(** * Python-Runner example scripts: batch processing and filter pipeline

    A shallow embedding of [examples/batch_processing.py] and
    [examples/custom_filter.py].  Python dictionaries are insertion-ordered
    association lists, console output and decoder calls are events of a
    small writer/exception monad, and [try ... except Exception] is an
    explicit handler of that monad.  Image samples are rational numbers
    or non-finite values, and an arithmetic operation on them is the
    exact result as the format rounds it. *)

From Stdlib Require Import List String Ascii Bool Arith ZArith QArith Qround Qreduction Qpower.
From Stdlib Require Import Lia Lqa Sorted Permutation.
Import ListNotations.

Close Scope Q_scope.
Open Scope string_scope.
Open Scope nat_scope.
Open Scope list_scope.

(** ** The Python fragment shared by both scripts *)

Module Py.

(** Scalar attribute values handed out by the decoder: [str], [int] and
    [None]. *)
Inductive pyval : Type :=
| VStr (s : string)
| VInt (z : Z)
| VNone.

Definition pyval_eqb (a b : pyval) : bool :=
  match a, b with
  | VStr s, VStr t => String.eqb s t
  | VInt x, VInt y => Z.eqb x y
  | VNone, VNone => true
  | _, _ => false
  end.

(** A [dict] with string keys: an association list in insertion order,
    one entry per key. *)
Definition pydict : Type := list (string * pyval).

(** [d.get(key)] without default. *)
Fixpoint dict_get (d : pydict) (key : string) : option pyval :=
  match d with
  | [] => None
  | (k, v) :: rest => if String.eqb k key then Some v else dict_get rest key
  end.

(** [key in d]. *)
Definition dict_in (key : string) (d : pydict) : bool :=
  match dict_get d key with Some _ => true | None => false end.

(** [d.get(key, default)]. *)
Definition dict_get_default (d : pydict) (key : string) (default : pyval) : pyval :=
  match dict_get d key with Some v => v | None => default end.

Definition dict_keys (d : pydict) : list string := map fst d.

(** [pathlib.Path]: the sequence of its components. *)
Definition Path : Type := list string.

(** [Path.name]: the final component. *)
Definition name (p : Path) : string := last p "".

(** Exceptions.  [SystemExit] derives from [BaseException] only, every
    other class here derives from [Exception]. *)
Inductive exn_class : Type :=
| ImportError
| AttributeError
| KeyError
| IndexError
| TypeError
| ValueError
| ZeroDivisionError
| LibraryError (cls : string)
| SystemExit (code : Z).

Record exn : Type := Exn { exn_cls : exn_class; exn_str : string }.

Definition is_Exception (e : exn) : bool :=
  match exn_cls e with SystemExit _ => false | _ => true end.

Inductive outcome (A : Type) : Type :=
| Returned (a : A)
| Raised (e : exn).
Arguments Returned {A} a.
Arguments Raised {A} e.

(** A computation: the events it emitted, in order, and how it ended. *)
Definition M (E A : Type) : Type := (list E * outcome A)%type.

Definition ret {E A} (a : A) : M E A := ([], Returned a).

Definition bind {E A B} (m : M E A) (f : A -> M E B) : M E B :=
  match m with
  | (t, Returned a) => let (t', o) := f a in (t ++ t', o)
  | (t, Raised e) => (t, Raised e)
  end.

Definition emit {E} (e : E) : M E unit := ([e], Returned tt).

Definition raise {E A} (e : exn) : M E A := ([], Raised e).

(** [sys.exit(code)]. *)
Definition sys_exit {E A} (code : Z) : M E A := raise (Exn (SystemExit code) "").

(** [try: body  except Exception as e: handler e]. *)
Definition try_except {E A} (body : M E A) (handler : exn -> M E A) : M E A :=
  match body with
  | (t, Returned a) => (t, Returned a)
  | (t, Raised e) =>
      if is_Exception e
      then let (t', o) := handler e in (t ++ t', o)
      else (t, Raised e)
  end.

Definition events {E A} (m : M E A) : list E := fst m.
Definition result {E A} (m : M E A) : outcome A := snd m.

Declare Scope py_scope.
Delimit Scope py_scope with py.
Notation "x <- c1 ;; c2" := (bind c1 (fun x => c2))
  (at level 61, c1 at next level, right associativity) : py_scope.
Notation "c1 ;;; c2" := (bind c1 (fun _ => c2))
  (at level 61, right associativity) : py_scope.

(** [for x in l: body x]. *)
Fixpoint for_each {E A} (l : list A) (body : A -> M E unit) : M E unit :=
  match l with
  | [] => ret tt
  | x :: rest => (body x ;;; for_each rest body)%py
  end.

(** ["\n"] and [s * n]. *)
Definition nl : string := String (ascii_of_nat 10) EmptyString.

Fixpoint str_repeat (s : string) (n : nat) : string :=
  match n with
  | O => EmptyString
  | S k => (s ++ str_repeat s k)%string
  end.

(** [s[:n]]. *)
Definition str_take (n : nat) (s : string) : string := substring 0 n s.

End Py.

(** ** examples/batch_processing.py *)

Module BatchProcessing.
Import Py.
Local Open Scope py_scope.

(** What a [print] call writes.  Literal text is kept as text; a
    formatted line keeps the values it interpolates. *)
Inductive line : Type :=
| Text (s : string)
| LFound (n : nat)
| LProgress (current total : nat) (percentage : Q) (filename : string)
| LTotalFiles (n : Z)
| LSuccessful (n : Z) (percentage : Q)
| LFailed (n : Z) (percentage : Q)
| LUniqueStudies (n : nat)
| LStudy (study_desc : pyval)
| LPatientID (patient_id : pyval)
| LModality (modality : pyval)
| LImages (n : nat)
| LStudyUID (prefix : string)
| LError (filename error : pyval)
| LMoreErrors (n : nat).

Inductive event : Type :=
| Print (l : line)
| Dcmread (p : Path) (stop_before_pixels : bool).

Definition print (l : line) : M event unit := emit (Print l).

(** The decoder collaborator: whether [import pydicom] succeeds, and what
    [pydicom.dcmread] does on a path: it raises an [Exception] of some
    class with some message, or returns the attributes of the file by
    keyword. *)
Record Env : Type := {
  pydicom_installed : bool;
  dcmread : Path -> bool -> (string * string) + pydict
}.

(** A processing result [(success, result)]. *)
Definition Result : Type := (bool * pydict)%type.

Definition NA : pyval := VStr "N/A".

Section WithDecoder.
Variable env : Env.

(** [pydicom.dcmread(path, stop_before_pixels=...)]. *)
Definition call_dcmread (p : Path) (stop_before_pixels : bool) : M event pydict :=
  emit (Dcmread p stop_before_pixels) ;;;
  match dcmread env p stop_before_pixels with
  | inl (cls, msg) => raise (Exn (LibraryError cls) msg)
  | inr ds => ret ds
  end.

(** [process_single_image], lines 18-52. *)
Definition process_single_image (dicom_path : Path) : M event Result :=
  if negb (pydicom_installed env)
  then ret (false, [("error", VStr "pydicom not installed")])
  else
    try_except
      (ds <- call_dcmread dicom_path true ;;
       let info :=
         [ ("filename", VStr (name dicom_path));
           ("patient_id", dict_get_default ds "PatientID" NA);
           ("study_uid", dict_get_default ds "StudyInstanceUID" NA);
           ("series_number", dict_get_default ds "SeriesNumber" NA);
           ("instance_number", dict_get_default ds "InstanceNumber" NA);
           ("modality", dict_get_default ds "Modality" NA);
           ("study_description", dict_get_default ds "StudyDescription" NA) ] in
       ret (true, info))
      (fun e => ret (false, [("error", VStr (exn_str e));
                             ("filename", VStr (name dicom_path))])).

End WithDecoder.

(** *** File discovery *)

(** A directory tree. *)
#[local] Unset Elimination Schemes.
Inductive entry : Type :=
| File (fname : string)
| Directory (dname : string) (children : list entry).
#[local] Set Elimination Schemes.

(** A path met during traversal, with the answer of [is_file()]. *)
Definition DirItem : Type := (Path * bool)%type.

(** Everything below [parent]/[e], [e] included. *)
Fixpoint walk (parent : Path) (e : entry) : list DirItem :=
  match e with
  | File n => [(parent ++ [n], true)]
  | Directory n children =>
      (parent ++ [n], false) :: flat_map (walk (parent ++ [n])) children
  end.

(** [s.rfind(c)]. *)
Fixpoint rfind_from (c : ascii) (s : string) (i : nat) (acc : option nat) : option nat :=
  match s with
  | EmptyString => acc
  | String a rest => rfind_from c rest (S i) (if Ascii.eqb a c then Some i else acc)
  end.

Definition rfind (c : ascii) (s : string) : option nat := rfind_from c s 0 None.

(** [PurePath.suffix]: [name[i:]] for [i = name.rfind('.')] when
    [0 < i < len(name) - 1], otherwise the empty string. *)
Definition suffix (p : Path) : string :=
  let n := name p in
  match rfind "."%char n with
  | Some i =>
      if (0 <? i) && (i <? String.length n - 1)
      then substring i (String.length n - i) n
      else ""
  | None => ""
  end.

Definition ends_with (ext s : string) : bool :=
  (String.length ext <=? String.length s) &&
  String.eqb (substring (String.length s - String.length ext) (String.length ext) s) ext.

(** The two shapes of glob pattern the script uses: [f'*{ext}'] and ['*']. *)
Inductive pattern : Type :=
| StarExt (ext : string)
| Star.

Definition fnmatch (n : string) (pat : pattern) : bool :=
  match pat with
  | StarExt ext => ends_with ext n
  | Star => true
  end.

(** [directory.rglob(pat)]: every entry below [directory], of any kind,
    whose name matches. *)
Definition rglob (directory : Path) (tree : list entry) (pat : pattern) : list DirItem :=
  filter (fun it => fnmatch (name (fst it)) pat) (flat_map (walk directory) tree).

(** Order of [Path] objects: component by component, strings by code point. *)
Fixpoint path_compare (p q : Path) : comparison :=
  match p, q with
  | [], [] => Eq
  | [], _ :: _ => Lt
  | _ :: _, [] => Gt
  | a :: p', b :: q' =>
      match String.compare a b with
      | Eq => path_compare p' q'
      | c => c
      end
  end.

Definition path_ltb (p q : Path) : bool :=
  match path_compare p q with Lt => true | _ => false end.

Fixpoint insert (x : Path) (l : list Path) : list Path :=
  match l with
  | [] => [x]
  | y :: rest => if path_ltb x y then x :: y :: rest else y :: insert x rest
  end.

(** [sorted(paths)]. *)
Fixpoint sorted (l : list Path) : list Path :=
  match l with
  | [] => []
  | x :: rest => insert x (sorted rest)
  end.

Definition extensions : list string := [".dcm"; ".dicom"; ".DCM"; ".DICOM"].

(** [find_dicom_files], lines 55-78; [tree] is the content of [directory]. *)
Definition find_dicom_files (directory : Path) (tree : list entry) : list Path :=
  let dicom_files := [] in
  let dicom_files :=
    fold_left (fun acc ext => acc ++ map fst (rglob directory tree (StarExt ext)))
              extensions dicom_files in
  let dicom_files :=
    fold_left (fun acc (file : DirItem) =>
                 if snd file && String.eqb (suffix (fst file)) ""
                    && negb (String.eqb (name (fst file)) ".DS_Store")
                 then acc ++ [fst file] else acc)
              (rglob directory tree Star) dicom_files in
  sorted dicom_files.

(** [is_dir()] of a path below [directory]. *)
Definition is_directory (directory : Path) (tree : list entry) (p : Path) : bool :=
  existsb (fun it => match path_compare (fst it) p with Eq => negb (snd it) | _ => false end)
          (flat_map (walk directory) tree).

(** *** Grouping by study *)

(** The [studies] dictionary: study UID to list of results, in insertion
    order. *)
Definition Studies : Type := list (pyval * list pydict).

(** [k in studies]. *)
Definition studies_mem (k : pyval) (studies : Studies) : bool :=
  existsb (fun kv => pyval_eqb (fst kv) k) studies.

(** [studies[k].append(r)] for a key that is present. *)
Fixpoint studies_append (k : pyval) (r : pydict) (studies : Studies) : Studies :=
  match studies with
  | [] => []
  | (k', images) :: rest =>
      if pyval_eqb k' k then (k', images ++ [r]) :: rest
      else (k', images) :: studies_append k r rest
  end.

(** One iteration of the loop of [group_by_study]. *)
Definition group_step (studies : Studies) (result : pydict) : Studies :=
  match dict_get result "study_uid" with
  | Some study_uid =>
      let studies :=
        if negb (studies_mem study_uid studies)
        then studies ++ [(study_uid, [])]
        else studies in
      studies_append study_uid result studies
  | None => studies
  end.

(** [group_by_study], lines 81-100. *)
Definition group_by_study (results : list pydict) : Studies :=
  fold_left group_step results [].

(** *** Progress and summary *)

(** [(n / d) * 100] on integers. *)
Definition percent_of (n d : Z) : Q := Qred (inject_Z n / inject_Z d * 100)%Q.

(** [display_progress], lines 103-113. *)
Definition display_progress (current total : nat) (filename : string) : M event unit :=
  let percentage :=
    if 0 <? total then percent_of (Z.of_nat current) (Z.of_nat total) else 0%Q in
  print (LProgress current total percentage filename).

(** [n / d * 100] where a zero [d] raises. *)
Definition percentage_or_raise (n d : Z) : M event Q :=
  if Z.eqb d 0
  then raise (Exn ZeroDivisionError "division by zero")
  else ret (percent_of n d).

Definition rule (c : string) : string := str_repeat c 70.

(** The body of the loop over [studies.items()], lines 146-155. *)
Definition display_study (item : pyval * list pydict) : M event unit :=
  let (study_uid, images) := item in
  match images with
  | [] => raise (Exn IndexError "list index out of range")
  | first :: _ =>
      let study_desc := dict_get_default first "study_description" NA in
      let patient_id := dict_get_default first "patient_id" NA in
      let modality := dict_get_default first "modality" NA in
      print (LStudy study_desc) ;;;
      print (LPatientID patient_id) ;;;
      print (LModality modality) ;;;
      print (LImages (List.length images)) ;;;
      match study_uid with
      | VStr s => print (LStudyUID (str_take 50 s))
      | VInt _ => raise (Exn TypeError "'int' object is not subscriptable")
      | VNone => raise (Exn TypeError "'NoneType' object is not subscriptable")
      end
  end.

(** The list comprehension of lines 158-159. *)
Fixpoint collect_errors (results : list Result) : M event (list (pyval * pyval)) :=
  match results with
  | [] => ret []
  | (success, result) :: rest =>
      if success then collect_errors rest
      else
        match dict_get result "filename" with
        | None => raise (Exn KeyError "'filename'")
        | Some filename =>
            errors <- collect_errors rest ;;
            ret ((filename, dict_get_default result "error" (VStr "Unknown error")) :: errors)
        end
  end.

(** The error section of the report, lines 161-168. *)
Definition display_errors (errors : list (pyval * pyval)) : M event unit :=
  match errors with
  | [] => ret tt
  | _ :: _ =>
      print (Text (nl ++ rule "-")%string) ;;;
      print (Text "ERRORS ENCOUNTERED:") ;;;
      print (Text (rule "-")) ;;;
      for_each (firstn 10 errors) (fun fe => print (LError (fst fe) (snd fe))) ;;;
      if 10 <? List.length errors
      then print (LMoreErrors (List.length errors - 10))
      else ret tt
  end.

(** [display_summary], lines 116-170. *)
Definition display_summary (results : list Result) (total_files : Z) : M event unit :=
  let successful := Z.of_nat (List.length (filter fst results)) in
  let failed := (total_files - successful)%Z in
  print (Text (nl ++ rule "=")%string) ;;;
  print (Text "BATCH PROCESSING SUMMARY") ;;;
  print (Text (rule "=")) ;;;
  print (LTotalFiles total_files) ;;;
  ps <- percentage_or_raise successful total_files ;;
  print (LSuccessful successful ps) ;;;
  pf <- percentage_or_raise failed total_files ;;
  print (LFailed failed pf) ;;;
  let successful_results := map snd (filter fst results) in
  let studies := group_by_study successful_results in
  print (LUniqueStudies (List.length studies)) ;;;
  match studies with
  | [] => ret tt
  | _ :: _ =>
      print (Text (nl ++ rule "-")%string) ;;;
      print (Text "STUDIES PROCESSED:") ;;;
      print (Text (rule "-")) ;;;
      for_each studies display_study
  end ;;;
  errors <- collect_errors results ;;
  display_errors errors ;;;
  print (Text (nl ++ rule "=")%string).

(** *** The batch loop of [main] *)

Section Batch.
Variable env : Env.

(** Lines 304-310: [idx] is the value [enumerate(..., start=1)] gives
    to the first of [files], [results] what was appended so far. *)
Fixpoint main_loop (total idx : nat) (files : list Path) (results : list Result)
  : M event (list Result) :=
  match files with
  | [] => ret results
  | dicom_file :: rest =>
      display_progress idx total (name dicom_file) ;;;
      r <- process_single_image env dicom_file ;;
      main_loop total (S idx) rest (results ++ [r])
  end.

(** [main] from line 296 on, given the files found. *)
Definition main_batch (dicom_files : list Path) : M event unit :=
  match dicom_files with
  | [] =>
      print (Text "No DICOM files found in the specified directory.") ;;;
      sys_exit 0
  | _ :: _ => ret tt
  end ;;;
  print (LFound (List.length dicom_files)) ;;;
  print (Text ("Starting batch processing..." ++ nl)%string) ;;;
  results <- main_loop (List.length dicom_files) 1 dicom_files [] ;;
  display_summary results (Z.of_nat (List.length dicom_files)) ;;;
  print (Text (nl ++ "Batch processing complete!")%string).

End Batch.

End BatchProcessing.

(** ** examples/custom_filter.py *)

Module CustomFilter.
Import Py.
Local Open Scope py_scope.

(** *** Samples

    A [float64] value is a rational number or one of the non-finite
    values.  An operation on two finite values is the exact result as
    the format rounds it: [rnd] is the rounding function of the
    arithmetic, which answers a finite value or, when the exact result
    is too large, an infinity.  The operations below take it as a
    parameter; the rounding of binary64 is [binary64_round] below, and
    what a theorem assumes of the rounding is stated with it.  The sign
    of zero is not modelled. *)
Inductive float64 : Type :=
| Finite (q : Q)
| PosInf
| NegInf
| NaN.

Definition Qlt_bool (a b : Q) : bool := negb (Qle_bool b a).

Definition is_finite (x : float64) : bool :=
  match x with Finite _ => true | _ => false end.

Definition is_nan (x : float64) : bool :=
  match x with NaN => true | _ => false end.

Definition fneg (x : float64) : float64 :=
  match x with
  | Finite a => Finite (Qred (- a))
  | PosInf => NegInf
  | NegInf => PosInf
  | NaN => NaN
  end.

Definition fadd (rnd : Q -> float64) (x y : float64) : float64 :=
  match x, y with
  | NaN, _ | _, NaN => NaN
  | Finite a, Finite b => rnd (a + b)%Q
  | PosInf, NegInf | NegInf, PosInf => NaN
  | PosInf, _ | _, PosInf => PosInf
  | NegInf, _ | _, NegInf => NegInf
  end.

Definition fsub (rnd : Q -> float64) (x y : float64) : float64 :=
  match x, y with
  | NaN, _ | _, NaN => NaN
  | Finite a, Finite b => rnd (a - b)%Q
  | PosInf, PosInf | NegInf, NegInf => NaN
  | PosInf, _ | _, NegInf => PosInf
  | NegInf, _ | _, PosInf => NegInf
  end.

(** An infinity with the sign of [a] times the sign given by [pos]. *)
Definition signed_inf (pos : bool) (a : Q) : float64 :=
  if Qeq_bool a 0 then NaN
  else if Bool.eqb pos (Qlt_bool 0 a) then PosInf else NegInf.

Definition fmul (rnd : Q -> float64) (x y : float64) : float64 :=
  match x, y with
  | NaN, _ | _, NaN => NaN
  | Finite a, Finite b => rnd (a * b)%Q
  | Finite a, PosInf | PosInf, Finite a => signed_inf true a
  | Finite a, NegInf | NegInf, Finite a => signed_inf false a
  | PosInf, PosInf | NegInf, NegInf => PosInf
  | PosInf, NegInf | NegInf, PosInf => NegInf
  end.

(** Division never raises on [float64]: a zero divisor gives an infinity,
    or [NaN] for [0 / 0]. *)
Definition fdiv (rnd : Q -> float64) (x y : float64) : float64 :=
  match x, y with
  | NaN, _ | _, NaN => NaN
  | Finite a, Finite b =>
      if Qeq_bool b 0 then signed_inf true a else rnd (a / b)%Q
  | Finite _, _ => Finite 0
  | PosInf, Finite b => if Qlt_bool b 0 then NegInf else PosInf
  | NegInf, Finite b => if Qlt_bool b 0 then PosInf else NegInf
  | _, _ => NaN
  end.

(** [x <= y]; false when either side is [NaN]. *)
Definition fle (x y : float64) : bool :=
  match x, y with
  | NaN, _ | _, NaN => false
  | NegInf, _ | _, PosInf => true
  | Finite a, Finite b => Qle_bool a b
  | _, _ => false
  end.

(** [np.maximum] and [np.minimum] on scalars. *)
Definition fmaximum (x y : float64) : float64 :=
  match x, y with
  | NaN, _ | _, NaN => NaN
  | _, _ => if fle x y then y else x
  end.

Definition fminimum (x y : float64) : float64 :=
  match x, y with
  | NaN, _ | _, NaN => NaN
  | _, _ => if fle x y then x else y
  end.

(** *** The rounding of binary64

    Rounding to nearest, ties to even: a number other than zero is
    rounded to the nearest multiple of its last place, which is 52 binary
    places below its leading bit and never below [2^-1074]; when the
    rounded magnitude reaches [2^1024] the result is an infinity. *)

(** The nearest integer, the even one of two nearest. *)
Definition round_half_even (t : Q) : Z :=
  let f := Qfloor t in
  match Qcompare (t - inject_Z f) (1 # 2) with
  | Lt => f
  | Gt => (f + 1)%Z
  | Eq => if Z.even f then f else (f + 1)%Z
  end.

(** The position of the leading bit of a positive [x]: [floor (log2 x)]. *)
Definition Qlog2 (x : Q) : Z :=
  let k := (Z.log2 (Qnum x) - Z.log2 (Zpos (Qden x)))%Z in
  if Qle_bool (2 ^ k) x then k else (k - 1)%Z.

(** The exponent of the last place of a positive [x]. *)
Definition ulp_exponent (x : Q) : Z := Z.max (Qlog2 x - 52) (-1074).

(** A positive number rounded to the nearest multiple of its last place. *)
Definition round_positive (x : Q) : Q :=
  (inject_Z (round_half_even (x / 2 ^ ulp_exponent x)) * 2 ^ ulp_exponent x)%Q.

Definition binary64_round (q : Q) : float64 :=
  let r := Qred q in
  match Qcompare r 0 with
  | Eq => Finite 0
  | Gt => let v := round_positive r in
          if Qle_bool (2 ^ 1024) v then PosInf else Finite (Qred v)
  | Lt => let v := round_positive (- r) in
          if Qle_bool (2 ^ 1024) v then NegInf else Finite (Qred (- v))
  end.

(** *** Arrays

    An array is its shape and its samples in row-major order.  The
    arrays of the script are images, which hold at least one sample;
    what numpy does with an empty array is not modelled. *)

Record ndarray : Type := { shape : nat * nat; data : list float64 }.

Definition arr_map (f : float64 -> float64) (a : ndarray) : ndarray :=
  {| shape := shape a; data := map f (data a) |}.

Definition arr_map2 (f : float64 -> float64 -> float64) (a b : ndarray) : ndarray :=
  {| shape := shape a; data := map (fun xy => f (fst xy) (snd xy)) (combine (data a) (data b)) |}.

(** [np.clip(a, a_min, a_max)]: [minimum(a_max, maximum(a, a_min))]. *)
Definition np_clip (a : ndarray) (a_min a_max : float64) : ndarray :=
  arr_map (fun x => fminimum a_max (fmaximum x a_min)) a.

Fixpoint insert_sorted (x : float64) (l : list float64) : list float64 :=
  match l with
  | [] => [x]
  | y :: rest => if fle x y then x :: y :: rest else y :: insert_sorted x rest
  end.

Fixpoint np_sort (l : list float64) : list float64 :=
  match l with
  | [] => []
  | x :: rest => insert_sorted x (np_sort rest)
  end.

(** Position of the [q]-th percentile among [n] sorted samples. *)
Definition virtual_index (n : nat) (q : Q) : Q :=
  (q / 100 * inject_Z (Z.of_nat (n - 1)))%Q.

(** The [q]-th percentile of the samples [l] for [0 <= q <= 100] by
    numpy's default method: linear interpolation between the two nearest
    ranks of the sorted samples, [a + (b - a) * gamma]; the position and
    the weight [gamma] are taken as the numbers they are, the
    interpolation is rounded.  On an empty array numpy raises; the empty
    list is given [NaN] here. *)
Definition percentile_linear (rnd : Q -> float64) (l : list float64) (q : Q) : float64 :=
  if existsb is_nan l then NaN
  else
    let sorted := np_sort l in
    let n := List.length sorted in
    let vi := virtual_index n q in
    let previous := Z.to_nat (Qfloor vi) in
    let next := Nat.min (S previous) (n - 1) in
    let gamma := (vi - inject_Z (Qfloor vi))%Q in
    let a := nth previous sorted NaN in
    let b := nth next sorted NaN in
    fadd rnd a (fmul rnd (fsub rnd b a) (Finite gamma)).

(** *** Console output *)

Inductive line : Type :=
| Text (s : string)
| LLoading (p : Path)
| LLoadError (msg : string)
| LDimensions (rows columns : pyval)
| LModality (v : pyval)
| LBitsAllocated (v : pyval)
| LPixelSpacing (a b : Q)
| LApplyGaussian (sigma : Q)
| LApplyEdge (sigma : Q)
| LEnhancing (percentile_low percentile_high : Q)
| LTitle (title : string)
| LShape (s : nat * nat)
| LDataType (s : string)
| LMin (v : float64)
| LMax (v : float64)
| LMean (v : float64)
| LStd (v : float64)
| LMedian (v : float64)
| LComparison (filter_name : string)
| LMeanChange (v : float64)
| LStdChange (v : float64)
| LOriginalShape (s : nat * nat)
| LGaussianSigma (sigma : Q)
| LEdgeSigma (sigma : Q)
| LContrast (enabled : bool).

Inductive event : Type :=
| Print (l : line)
| PrintErr (l : line)
| Dcmread (p : Path).

Definition print (l : line) : M event unit := emit (Print l).
Definition print_err (l : line) : M event unit := emit (PrintErr l).

Definition rule_eq : string := str_repeat "=" 70.

(** *** Collaborators *)

(** The numeric primitives of numpy and scipy that the script calls and
    that are not modelled here, and the rounding of the arithmetic on
    [float64] values. *)
Record Numeric : Type := {
  float_round : Q -> float64;
  gaussian_filter : ndarray -> Q -> ndarray;
  sobel : ndarray -> nat -> ndarray;
  np_sqrt : float64 -> float64;
  np_min : ndarray -> float64;
  np_max : ndarray -> float64;
  np_mean : ndarray -> float64;
  np_std : ndarray -> float64;
  np_median : ndarray -> float64
}.

(** What [pydicom.dcmread(path)] returns: [pixel_array] may raise when
    read, [Rows] and [Columns] are attributes that may be missing, the
    other fields are read with [get]. *)
Record Dataset : Type := {
  pixel_array : (string * string) + ndarray;
  Rows : option pyval;
  Columns : option pyval;
  attrs : pydict;
  PixelSpacing : option (list Q)
}.

Record Env : Type := {
  pydicom_installed : bool;
  scipy_installed : bool;
  dcmread : Path -> (string * string) + Dataset
}.

(** The value under ['pixel_spacing']: the decoder's multi-valued element,
    or the default, a plain [list]. *)
Inductive spacing : Type :=
| MultiValue (l : list Q)
| PyList (l : list Q).

Record Metadata : Type := {
  rows : pyval;
  columns : pyval;
  modality : pyval;
  bits_allocated : pyval;
  pixel_spacing : spacing;
  window_center : pyval;
  window_width : pyval
}.

(** The second component of what [load_dicom_pixel_data] returns. *)
Inductive info : Type :=
| MetadataDict (m : Metadata)
| ErrorDict (error : string).

(** The dictionary built by [compute_image_statistics]. *)
Record Stats : Type := {
  st_min : float64;
  st_max : float64;
  st_mean : float64;
  st_std : float64;
  st_median : float64;
  st_shape : nat * nat;
  st_dtype : string
}.

(** [np.percentile(image, q)]. *)
Definition np_percentile (np : Numeric) (image : ndarray) (q : Q) : M event float64 :=
  if Qle_bool 0 q && Qle_bool q 100
  then ret (percentile_linear (float_round np) (data image) q)
  else raise (Exn ValueError "Percentiles must be in the range [0, 100]").

(** [apply_contrast_enhancement], lines 120-143. *)
Definition apply_contrast_enhancement (np : Numeric) (image : ndarray)
           (percentile_low percentile_high : Q) : M event ndarray :=
  print (LEnhancing percentile_low percentile_high) ;;;
  p_low <- np_percentile np image percentile_low ;;
  p_high <- np_percentile np image percentile_high ;;
  let enhanced := np_clip image p_low p_high in
  let enhanced :=
    arr_map (fun x => fdiv (float_round np) (fsub (float_round np) x p_low)
                           (fsub (float_round np) p_high p_low)) enhanced in
  ret enhanced.

(** [display_statistics], lines 168-183. *)
Definition display_statistics (title : string) (stats : Stats) : M event unit :=
  print (LTitle title) ;;;
  print (LShape (st_shape stats)) ;;;
  print (LDataType (st_dtype stats)) ;;;
  print (LMin (st_min stats)) ;;;
  print (LMax (st_max stats)) ;;;
  print (LMean (st_mean stats)) ;;;
  print (LStd (st_std stats)) ;;;
  print (LMedian (st_median stats)).

(** The two percent changes of lines 204-207. *)
Definition mean_change (np : Numeric) (original_stats filtered_stats : Stats) : float64 :=
  fmul (float_round np)
       (fdiv (float_round np)
             (fsub (float_round np) (st_mean filtered_stats) (st_mean original_stats))
             (st_mean original_stats))
       (Finite 100).

Definition std_change (np : Numeric) (original_stats filtered_stats : Stats) : float64 :=
  fmul (float_round np)
       (fdiv (float_round np)
             (fsub (float_round np) (st_std filtered_stats) (st_std original_stats))
             (st_std original_stats))
       (Finite 100).

(** [display_filter_comparison], lines 186-213. *)
Definition display_filter_comparison (np : Numeric) (original_stats filtered_stats : Stats)
           (filter_name : string) : M event unit :=
  print (Text (nl ++ rule_eq)) ;;;
  print (LComparison filter_name) ;;;
  print (Text rule_eq) ;;;
  display_statistics "Original Image" original_stats ;;;
  display_statistics ("After " ++ filter_name) filtered_stats ;;;
  let mean_change := mean_change np original_stats filtered_stats in
  let std_change := std_change np original_stats filtered_stats in
  print (Text (nl ++ "[Changes]")) ;;;
  print (LMeanChange mean_change) ;;;
  print (LStdChange std_change) ;;;
  print (Text rule_eq).

Section WithLibraries.
Variable np : Numeric.
Variable env : Env.

(** [load_dicom_pixel_data], lines 20-61. *)
Definition load_dicom_pixel_data (dicom_path : Path) : M event (option ndarray * info) :=
  if negb (pydicom_installed env)
  then
    print_err (Text "Error: pydicom is not installed.") ;;;
    print_err (Text "Install with: pip install pydicom") ;;;
    ret (None, ErrorDict "pydicom not installed")
  else
    try_except
      (emit (Dcmread dicom_path) ;;;
       ds <- match dcmread env dicom_path with
             | inl (cls, msg) => raise (Exn (LibraryError cls) msg)
             | inr ds => ret ds
             end ;;
       pixel_array <- match pixel_array ds with
                      | inl (cls, msg) => raise (Exn (LibraryError cls) msg)
                      | inr a => ret a
                      end ;;
       r <- match Rows ds with
            | None => raise (Exn AttributeError
                               "'FileDataset' object has no attribute 'Rows'")
            | Some v => ret v
            end ;;
       c <- match Columns ds with
            | None => raise (Exn AttributeError
                               "'FileDataset' object has no attribute 'Columns'")
            | Some v => ret v
            end ;;
       let metadata :=
         {| rows := r;
            columns := c;
            modality := dict_get_default (attrs ds) "Modality" (VStr "N/A");
            bits_allocated := dict_get_default (attrs ds) "BitsAllocated" (VStr "N/A");
            pixel_spacing := match PixelSpacing ds with
                             | Some l => MultiValue l
                             | None => PyList [1%Q; 1%Q]
                             end;
            window_center := dict_get_default (attrs ds) "WindowCenter" VNone;
            window_width := dict_get_default (attrs ds) "WindowWidth" VNone |} in
       ret (Some pixel_array, MetadataDict metadata))
      (fun e =>
         print_err (LLoadError (exn_str e)) ;;;
         ret (None, ErrorDict (exn_str e))).

(** The guarded [from scipy.ndimage import ...] of both filters. *)
Definition import_scipy : M event unit :=
  if scipy_installed env then ret tt
  else
    print_err (Text "Error: scipy is not installed.") ;;;
    print_err (Text "Install with: pip install scipy") ;;;
    sys_exit 1.

(** [apply_gaussian_filter], lines 64-84. *)
Definition apply_gaussian_filter (image : ndarray) (sigma : Q) : M event ndarray :=
  import_scipy ;;;
  print (LApplyGaussian sigma) ;;;
  let filtered := gaussian_filter np image sigma in
  ret filtered.

(** [apply_edge_detection], lines 87-117. *)
Definition apply_edge_detection (image : ndarray) (sigma : Q) : M event ndarray :=
  import_scipy ;;;
  print (LApplyEdge sigma) ;;;
  let smoothed := gaussian_filter np image sigma in
  let gradient_x := sobel np smoothed 0 in
  let gradient_y := sobel np smoothed 1 in
  let magnitude :=
    arr_map (np_sqrt np)
            (arr_map2 (fadd (float_round np))
                      (arr_map (fun x => fmul (float_round np) x x) gradient_x)
                      (arr_map (fun y => fmul (float_round np) y y) gradient_y)) in
  ret magnitude.

(** [compute_image_statistics], lines 146-165. *)
Definition compute_image_statistics (image : ndarray) : Stats :=
  {| st_min := np_min np image;
     st_max := np_max np image;
     st_mean := np_mean np image;
     st_std := np_std np image;
     st_median := np_median np image;
     st_shape := shape image;
     st_dtype := "float64" |}.

(** [process_with_filters], lines 216-283. *)
Definition process_with_filters (dicom_path : Path) (gaussian_sigma edge_sigma : Q)
           (enable_contrast : bool) : M event unit :=
  print (LLoading dicom_path) ;;;
  loaded <- load_dicom_pixel_data dicom_path ;;
  match loaded with
  | (None, _) => print_err (Text "Failed to load pixel data")
  | (Some _, ErrorDict _) => raise (Exn KeyError "'rows'")
  | (Some pixel_data, MetadataDict metadata) =>
      print (Text (nl ++ rule_eq)) ;;;
      print (Text "IMAGE METADATA") ;;;
      print (Text rule_eq) ;;;
      print (LDimensions (rows metadata) (columns metadata)) ;;;
      print (LModality (modality metadata)) ;;;
      print (LBitsAllocated (bits_allocated metadata)) ;;;
      match pixel_spacing metadata with
      | PyList [a; b] => print (LPixelSpacing a b)
      | _ => ret tt
      end ;;;
      print (Text rule_eq) ;;;
      let original_stats := compute_image_statistics pixel_data in
      print (Text (nl ++ "[1] Gaussian Blur Filter")) ;;;
      gaussian_filtered <- apply_gaussian_filter pixel_data gaussian_sigma ;;
      let gaussian_stats := compute_image_statistics gaussian_filtered in
      display_filter_comparison np original_stats gaussian_stats "Gaussian Blur" ;;;
      print (Text (nl ++ "[2] Edge Detection Filter")) ;;;
      edge_filtered <- apply_edge_detection pixel_data edge_sigma ;;
      let edge_stats := compute_image_statistics edge_filtered in
      display_filter_comparison np original_stats edge_stats "Edge Detection" ;;;
      (if enable_contrast
       then
         print (Text (nl ++ "[3] Contrast Enhancement")) ;;;
         contrast_enhanced <- apply_contrast_enhancement np pixel_data 2 98 ;;
         let contrast_stats := compute_image_statistics contrast_enhanced in
         display_filter_comparison np original_stats contrast_stats "Contrast Enhancement"
       else ret tt) ;;;
      print (Text (nl ++ rule_eq)) ;;;
      print (Text "PROCESSING SUMMARY") ;;;
      print (Text rule_eq) ;;;
      print (LOriginalShape (st_shape original_stats)) ;;;
      print (Text "Filters applied:          3") ;;;
      print (LGaussianSigma gaussian_sigma) ;;;
      print (LEdgeSigma edge_sigma) ;;;
      print (LContrast enable_contrast) ;;;
      print (Text (nl ++ "All filters processed successfully!")) ;;;
      print (Text rule_eq)
  end.

End WithLibraries.

End CustomFilter.

(** ** Specification vocabulary for the batch script *)

Module BatchSpec.
Import Py BatchProcessing.

(** The study identifiers carried by a sequence of records, in order. *)
Definition study_ids (results : list pydict) : list pyval :=
  flat_map (fun r => match dict_get r "study_uid" with Some k => [k] | None => [] end)
           results.

(** A list without its repeated elements, each kept where it first occurs. *)
Fixpoint first_occurrences (l : list pyval) : list pyval :=
  match l with
  | [] => []
  | k :: rest => k :: filter (fun k' => negb (pyval_eqb k' k)) (first_occurrences rest)
  end.

(** Whether a record carries the identifier [k]. *)
Definition has_study (k : pyval) (r : pydict) : bool :=
  match dict_get r "study_uid" with
  | Some k' => pyval_eqb k' k
  | None => false
  end.

(** What discovery keeps: an entry of any kind whose name ends in one of
    the extensions, or a regular file without suffix other than the
    marker file. *)
Definition is_candidate (it : DirItem) : bool :=
  existsb (fun ext => fnmatch (name (fst it)) (StarExt ext)) extensions
  || (snd it && String.eqb (suffix (fst it)) ""
      && negb (String.eqb (name (fst it)) ".DS_Store")).

(** [p <= q] for paths. *)
Definition Path_le (p q : Path) : Prop := path_ltb q p = false.

(** [k in l]. *)
Definition id_mem (k : pyval) (l : list pyval) : bool :=
  existsb (fun k' => pyval_eqb k' k) l.

(** Grouping, stated directly: one group per identifier, in order of first
    appearance, holding the records of that identifier in input order. *)
Definition groups_of (results : list pydict) : Studies :=
  map (fun k => (k, filter (has_study k) results))
      (first_occurrences (study_ids results)).

(** An identifier other than the empty string. *)
Definition is_nonempty_id (k : pyval) : bool := negb (pyval_eqb k (VStr "")).

(** The pairs detailed in the error section of a report. *)
Definition error_lines (t : list event) : list (pyval * pyval) :=
  flat_map (fun e => match e with Print (LError f err) => [(f, err)] | _ => [] end) t.

(** The counts announced by the "more errors" line of a report. *)
Definition more_lines (t : list event) : list nat :=
  flat_map (fun e => match e with Print (LMoreErrors n) => [n] | _ => [] end) t.

(** The failures of a batch, as (file name, message), in order. *)
Definition failures (results : list Result) : list (pyval * pyval) :=
  flat_map (fun sr : Result =>
              if fst sr then []
              else [(dict_get_default (snd sr) "filename" VNone,
                     dict_get_default (snd sr) "error" (VStr "Unknown error"))])
           results.

(** Results on which the summary can be rendered: a failure names its
    file, a success has a textual study identifier or none. *)
Definition renderable (sr : Result) : bool :=
  if fst sr
  then match dict_get (snd sr) "study_uid" with
       | Some (VStr _) | None => true
       | Some _ => false
       end
  else dict_in "filename" (snd sr).

(** The table of [process_single_image]: record key and decoder keyword. *)
Definition extracted_fields : list (string * string) :=
  [ ("patient_id", "PatientID");
    ("study_uid", "StudyInstanceUID");
    ("series_number", "SeriesNumber");
    ("instance_number", "InstanceNumber");
    ("modality", "Modality");
    ("study_description", "StudyDescription") ].

Definition record_keys : list string :=
  [ "filename"; "patient_id"; "study_uid"; "series_number";
    "instance_number"; "modality"; "study_description" ].

(** What one iteration of the loop emits. *)
Definition iteration_events (env : Env) (total : nat) (it : nat * Path) : list event :=
  events (display_progress (fst it) total (name (snd it)))
  ++ events (process_single_image env (snd it)).

End BatchSpec.

(** ** Sample inputs *)

Module Samples.
Import Py BatchProcessing.

(** A decoder for a directory of three files: two decodable files of
    study [S1] and one malformed file; any other file decodes to a
    dataset without study identifier. *)
Definition decoder (p : Path) (stop_before_pixels : bool) : (string * string) + pydict :=
  match p with
  | ["data"; "bad.dcm"] => inl ("InvalidDicomError", "File is missing DICOM header")
  | ["data"; "a.dcm"] => inr [("StudyInstanceUID", VStr "S1"); ("PatientID", VStr "P1")]
  | ["data"; "b.dcm"] => inr [("StudyInstanceUID", VStr "S1"); ("Modality", VStr "CT")]
  | _ => inr [("PatientID", VStr "P2")]
  end.

Definition env : Env := {| pydicom_installed := true; dcmread := decoder |}.

(** The record extracted from a file that exposes no study identifier. *)
Definition anonymous_record : pydict :=
  [ ("filename", VStr "c.dcm"); ("patient_id", VStr "P2");
    ("study_uid", VStr "N/A"); ("series_number", VStr "N/A");
    ("instance_number", VStr "N/A"); ("modality", VStr "N/A");
    ("study_description", VStr "N/A") ].

(** A record whose study identifier is the empty string. *)
Definition empty_id_record : pydict :=
  [ ("filename", VStr "e.dcm"); ("study_uid", VStr "") ].

(** A root whose only entry is a directory named like a DICOM file. *)
Definition tree_with_dcm_directory : list entry := [Directory "scan.dcm" []].

Definition failure (n : string) : Result :=
  (false, [("error", VStr "unreadable"); ("filename", VStr n)]).

(** Twelve failed files. *)
Definition twelve_failures : list Result :=
  map failure ["f01"; "f02"; "f03"; "f04"; "f05"; "f06";
               "f07"; "f08"; "f09"; "f10"; "f11"; "f12"].

(** A 2x2 image of constant value 5. *)
Definition constant_image : CustomFilter.ndarray :=
  {| CustomFilter.shape := (2, 2);
     CustomFilter.data := [CustomFilter.Finite 5; CustomFilter.Finite 5;
                           CustomFilter.Finite 5; CustomFilter.Finite 5] |}.

(** The numeric primitives on constant arrays, where they are exact:
    smoothing changes nothing, gradients vanish, every location statistic
    is the common value and the deviation is zero; the arithmetic is
    that of binary64. *)
Definition constant_array_numeric : CustomFilter.Numeric :=
  let value (a : CustomFilter.ndarray) := hd CustomFilter.NaN (CustomFilter.data a) in
  {| CustomFilter.float_round := CustomFilter.binary64_round;
     CustomFilter.gaussian_filter := fun a _ => a;
     CustomFilter.sobel := fun a _ => CustomFilter.arr_map (fun _ => CustomFilter.Finite 0) a;
     CustomFilter.np_sqrt := fun x => x;
     CustomFilter.np_min := value;
     CustomFilter.np_max := value;
     CustomFilter.np_mean := value;
     CustomFilter.np_std :=
       fun a => match value a with
                | CustomFilter.Finite _ => CustomFilter.Finite 0
                | _ => CustomFilter.NaN
                end;
     CustomFilter.np_median := value |}.

(** A decoder that reads the constant image from any path. *)
Definition filter_env : CustomFilter.Env :=
  {| CustomFilter.pydicom_installed := true;
     CustomFilter.scipy_installed := true;
     CustomFilter.dcmread := fun _ =>
       inr {| CustomFilter.pixel_array := inr constant_image;
              CustomFilter.Rows := Some (VInt 2);
              CustomFilter.Columns := Some (VInt 2);
              CustomFilter.attrs := [("Modality", VStr "CT")];
              CustomFilter.PixelSpacing := None |} |}.

(** The samples 0, 50, 100. *)
Definition ramp_image : CustomFilter.ndarray :=
  {| CustomFilter.shape := (1, 3);
     CustomFilter.data := [CustomFilter.Finite 0; CustomFilter.Finite 50;
                           CustomFilter.Finite 100] |}.


End Samples.

(** ** Specification vocabulary for the filter script *)

Module FilterSpec.
Import Py CustomFilter.

(** The lines of a run that report a comparison: its title, the mean and
    standard deviation of both images, and the two percent changes. *)
Definition is_report_line (e : event) : bool :=
  match e with
  | Print (LComparison _) | Print (LMean _) | Print (LStd _)
  | Print (LMeanChange _) | Print (LStdChange _) => true
  | _ => false
  end.

Definition report_lines (t : list event) : list event := filter is_report_line t.

(** The comparison of a filter output [filtered] with the baseline
    [baseline], as it is reported. *)
Definition comparison_report (np : Numeric) (filter_name : string)
           (baseline filtered : ndarray) : list event :=
  [ Print (LComparison filter_name);
    Print (LMean (np_mean np baseline));
    Print (LStd (np_std np baseline));
    Print (LMean (np_mean np filtered));
    Print (LStd (np_std np filtered));
    Print (LMeanChange
             (fmul (float_round np)
                   (fdiv (float_round np)
                         (fsub (float_round np) (np_mean np filtered) (np_mean np baseline))
                         (np_mean np baseline)) (Finite 100)));
    Print (LStdChange
             (fmul (float_round np)
                   (fdiv (float_round np)
                         (fsub (float_round np) (np_std np filtered) (np_std np baseline))
                         (np_std np baseline)) (Finite 100))) ].

(** A number that binary64 holds exactly whatever its exponent range: a
    fraction in lowest terms whose numerator is below [2^53] in magnitude
    and whose denominator is a power of two not above [2^53]. *)
Fixpoint is_power_of_two (p : positive) : bool :=
  match p with
  | xH => true
  | xO p' => is_power_of_two p'
  | xI _ => false
  end.

Definition small_dyadic (q : Q) : bool :=
  (Z.abs (Qnum (Qred q)) <? 2 ^ 53)%Z
  && is_power_of_two (Qden (Qred q))
  && (Z.pos (Qden (Qred q)) <=? 2 ^ 53)%Z.

(** What is assumed of the rounding of the arithmetic, all of it true of
    [binary64_round]: the rounded value depends on the number only,
    rounding keeps the order (so it never answers [NaN]), and a number
    the format holds exactly is rounded to itself. *)
Record IEEE_rounding (rnd : Q -> float64) : Prop := {
  round_proper : forall q r : Q, (q == r)%Q -> rnd q = rnd r;
  round_monotone : forall q r : Q, (q <= r)%Q -> fle (rnd q) (rnd r) = true;
  round_exact : forall q : Q, small_dyadic q = true -> rnd q = Finite (Qred q)
}.

(** A value clipped to [[a, b]]. *)
Definition clipQ (v a b : Q) : Q :=
  if Qle_bool v a then a else if Qle_bool b v then b else v.

(** [x <= y] as a proposition. *)
Definition Fle (x y : float64) : Prop := fle x y = true.

(** A value that is neither infinite nor [NaN]. *)
Definition finite (x : float64) : Prop := is_finite x = true.

(** A finite value that the arithmetic holds as it is: a value of the
    format. *)
Definition representable (rnd : Q -> float64) (x : float64) : Prop :=
  match x with
  | Finite q => rnd q = Finite q
  | _ => False
  end.

(** Statistics with the given mean and standard deviation. *)
Definition stats_of (mean std : float64) : Stats :=
  {| st_min := mean; st_max := mean; st_mean := mean; st_std := std;
     st_median := mean; st_shape := (2, 2); st_dtype := "float64" |}.

End FilterSpec.

(** ** batch_processing.py: the entry point *)

Module BatchMain.
Import Py BatchProcessing.
Local Open Scope py_scope.

(** The lines [main] writes itself, before it hands over to the batch. *)
Inductive main_line : Type :=
| MText (s : string)
| MSearching (directory : Path)
| MNoDirectory (directory : Path)
| MNotDirectory (directory : Path).

(** Output of [main]: its own lines on stdout or stderr, and the events of
    the batch functions it calls. *)
Inductive main_event : Type :=
| Core (e : event)
| Out (l : main_line)
| Err (l : main_line).

(** What a path designates. *)
Inductive node : Type :=
| RegularFile
| Folder (tree : list entry).

(** The surroundings of a run: [sys.argv], the decoder, the [Path]
    constructor and the file system ([None]: the path does not exist). *)
Record World : Type := {
  argv : list string;
  decoder : Env;
  path_of : string -> Path;
  stat : Path -> option node
}.

Definition out (l : main_line) : M main_event unit := emit (Out l).
Definition err (l : main_line) : M main_event unit := emit (Err l).

(** A call into the batch functions. *)
Definition lift {A} (m : M event A) : M main_event A := (map Core (fst m), snd m).

(** [main], lines 173-321. *)
Definition main (w : World) : M main_event unit :=
  out (MText "DICOM Batch Processor - Example Script") ;;;
  out (MText "========================================") ;;;
  (if pydicom_installed (decoder w) then ret tt
   else
     err (MText (nl ++ "Error: pydicom is not installed.")) ;;;
     err (MText "Install with: pip install pydicom") ;;;
     out (MText (nl ++ "Note: This is a demonstration script showing batch processing.")) ;;;
     out (MText "To use this in your plugin:") ;;;
     out (MText "  1. Install pydicom in your virtual environment") ;;;
     out (MText "  2. Modify Plugin.swift to pass directory paths as arguments") ;;;
     out (MText "  3. Adapt this batch processing logic for your needs") ;;;
     sys_exit 1) ;;;
  match argv w with
  | _ :: arg :: _ =>
      let directory := path_of w arg in
      match stat w directory with
      | None => err (MNoDirectory directory) ;;; sys_exit 1
      | Some RegularFile => err (MNotDirectory directory) ;;; sys_exit 1
      | Some (Folder tree) =>
          out (MSearching directory) ;;;
          let dicom_files := find_dicom_files directory tree in
          lift (main_batch (decoder w) dicom_files)
      end
  | _ =>
      out (MText (nl ++ "Usage: python batch_processing.py <path_to_dicom_directory>")) ;;;
      out (MText (nl ++ "This script will:")) ;;;
      out (MText "  - Recursively find all DICOM files in the directory") ;;;
      out (MText "  - Process each file with progress reporting") ;;;
      out (MText "  - Handle errors gracefully and continue processing") ;;;
      out (MText "  - Group results by study") ;;;
      out (MText "  - Display a comprehensive summary") ;;;
      sys_exit 0
  end.

End BatchMain.

(** ** Further specification vocabulary *)

Module ExtraSpec.
Import Py BatchProcessing BatchSpec BatchMain.

(** The decoder calls of a trace, in order: path and [stop_before_pixels]. *)
Definition decoder_calls (t : list event) : list (Path * bool) :=
  flat_map (fun e => match e with Dcmread p b => [(p, b)] | _ => [] end) t.

Definition main_decoder_calls (t : list main_event) : list (Path * bool) :=
  flat_map (fun e => match e with Core (Dcmread p b) => [(p, b)] | _ => [] end) t.




(** A textual value. *)
Definition is_text (v : pyval) : bool :=
  match v with VStr _ => true | _ => false end.

(** A result the error section can name: a success, or a failure that
    carries ['filename']. *)
Definition names_file (sr : Result) : bool :=
  fst sr || dict_in "filename" (snd sr).

(** The successful records of a batch. *)
Definition successes (results : list Result) : list pydict :=
  map snd (filter fst results).

(** The count lines of a summary. *)
Definition count_lines (t : list event) : list line :=
  flat_map (fun e => match e with
                     | Print (LTotalFiles n) => [LTotalFiles n]
                     | Print (LSuccessful n p) => [LSuccessful n p]
                     | Print (LFailed n p) => [LFailed n p]
                     | Print (LUniqueStudies n) => [LUniqueStudies n]
                     | _ => []
                     end) t.

(** The lines of a summary that describe studies. *)
Definition study_lines (t : list event) : list line :=
  flat_map (fun e => match e with
                     | Print (LStudy v) => [LStudy v]
                     | Print (LPatientID v) => [LPatientID v]
                     | Print (LModality v) => [LModality v]
                     | Print (LImages n) => [LImages n]
                     | Print (LStudyUID s) => [LStudyUID s]
                     | _ => []
                     end) t.

(** What the summary shows of one study: description, patient and
    modality of its first record, the number of its records, and the
    first 50 characters of its identifier. *)
Definition study_block (item : pyval * list pydict) : list line :=
  match item with
  | (VStr uid, first :: rest) =>
      [ LStudy (dict_get_default first "study_description" NA);
        LPatientID (dict_get_default first "patient_id" NA);
        LModality (dict_get_default first "modality" NA);
        LImages (S (List.length rest));
        LStudyUID (str_take 50 uid) ]
  | _ => []
  end.

(** Whether a file, if it decodes, yields a textual study identifier (a
    file without identifier yields the sentinel, which is text). *)
Definition text_study_uid (env : Env) (f : Path) : bool :=
  match dcmread env f true with
  | inr ds => is_text (dict_get_default ds "StudyInstanceUID" NA)
  | inl _ => true
  end.

End ExtraSpec.

(** ** Further specification vocabulary for the filter script *)

Module ExtraFilterSpec.
Import Py CustomFilter.

(** Why loading can fail: [pydicom] is missing, the decoder raises, the
    pixel data cannot be read, or a dimension is missing; in each case
    with the message that is reported. *)
Definition load_failure (env : Env) (p : Path) (msg : string) : Prop :=
  (pydicom_installed env = false /\ msg = "pydicom not installed")
  \/ (pydicom_installed env = true /\
      ((exists cls, dcmread env p = inl (cls, msg))
       \/ (exists ds, dcmread env p = inr ds /\
                      ((exists cls, pixel_array ds = inl (cls, msg))
                       \/ (exists a, pixel_array ds = inr a /\
                                     ((Rows ds = None /\ msg = "'FileDataset' object has no attribute 'Rows'")
                                      \/ (exists r, Rows ds = Some r /\
                                                    Columns ds = None /\
                                                    msg = "'FileDataset' object has no attribute 'Columns'"))))))).

End ExtraFilterSpec.

(** ** Properties of the batch script *)

Module BatchFacts.
Import Py BatchProcessing BatchSpec.

(** *** The monad *)

Lemma bind_events {E A B} (m : M E A) (f : A -> M E B) :
  events (bind m f) =
  events m ++ match result m with
              | Returned a => events (f a)
              | Raised _ => []
              end.
Proof.
  destruct m as [t [a | e]]; simpl.
  - destruct (f a); reflexivity.
  - now rewrite app_nil_r.
Qed.

Lemma bind_result {E A B} (m : M E A) (f : A -> M E B) :
  result (bind m f) =
  match result m with
  | Returned a => result (f a)
  | Raised e => Raised e
  end.
Proof.
  destruct m as [t [a | e]]; simpl; [destruct (f a) |]; reflexivity.
Qed.

Lemma M_eta {E A} (m : M E A) : m = (events m, result m).
Proof. now destruct m. Qed.

(** *** Extraction *)

Lemma process_single_image_returns (env : Env) (p : Path) :
  exists r, result (process_single_image env p) = Returned r.
Proof.
  unfold process_single_image.
  destruct (pydicom_installed env); simpl; [| eauto].
  unfold call_dcmread.
  destruct (dcmread env p true) as [[cls msg] | ds]; simpl; eauto.
Qed.



(** *** The batch loop *)

Lemma main_loop_spec (env : Env) (total : nat) (files : list Path) :
  forall idx acc,
  exists outs,
    main_loop env total idx files acc =
    (flat_map (iteration_events env total) (combine (seq idx (List.length files)) files),
     Returned (acc ++ outs))
    /\ Forall2 (fun f r => result (process_single_image env f) = Returned r) files outs.
Proof.
  induction files as [| f rest IH]; intros idx acc.
  - exists []. simpl. rewrite app_nil_r. split; [reflexivity | constructor].
  - destruct (process_single_image_returns env f) as [r Hr].
    destruct (IH (S idx) (acc ++ [r])) as [outs [Heq Hall]].
    exists (r :: outs). split.
    + cbn [main_loop List.length seq combine flat_map].
      unfold iteration_events at 1. cbn [fst snd].
      destruct (process_single_image env f) as [t o] eqn:E. cbn in Hr. subst o.
      unfold display_progress, print, emit. cbn [bind events fst]. rewrite Heq.
      now rewrite <- !app_assoc.
    + constructor; [| assumption]. now rewrite Hr.
Qed.

Lemma Forall2_nth_error_l {A B} (R : A -> B -> Prop) (l : list A) (l' : list B) :
  Forall2 R l l' ->
  forall i a, nth_error l i = Some a -> exists b, nth_error l' i = Some b /\ R a b.
Proof.
  induction 1 as [| x y l l' Hxy _ IH]; intros [| i] a Hi; simpl in *; try discriminate.
  - injection Hi as <-. eauto.
  - eauto.
Qed.

Lemma display_progress_events (current total : nat) (filename : string) :
  exists percentage,
    events (display_progress current total filename) =
    [Print (LProgress current total percentage filename)].
Proof. unfold display_progress. eexists. reflexivity. Qed.

(** C1.  The batch loop returns one outcome per input file, in input
    order: the list of outcomes is as long as the list of files and its
    i-th element is what [process_single_image] returns on the i-th file.
    Its output is, file after file, one progress line carrying the 1-based
    index, the total and the file name, followed by the events of
    processing that file. *)
Theorem batch_one_outcome_per_file (env : Env) (files : list Path) :
  exists outcomes,
    main_loop env (List.length files) 1 files [] =
      (flat_map (iteration_events env (List.length files))
                (combine (seq 1 (List.length files)) files),
       Returned outcomes)
    /\ List.length outcomes = List.length files
    /\ (forall i f, nth_error files i = Some f ->
          exists r, nth_error outcomes i = Some r
                    /\ result (process_single_image env f) = Returned r)
    /\ (forall i f, nth_error files i = Some f ->
          exists percentage,
            iteration_events env (List.length files) (S i, f) =
            Print (LProgress (S i) (List.length files) percentage (name f))
            :: events (process_single_image env f)).
Proof.
  destruct (main_loop_spec env (List.length files) files 1 []) as [outs [Heq Hall]].
  exists outs. repeat split.
  - exact Heq.
  - symmetry. eapply Forall2_length. exact Hall.
  - intros i f Hi. eapply Forall2_nth_error_l in Hall as [r [Hr HR]]; eauto.
  - intros i f _. unfold iteration_events. cbn [fst snd].
    destruct (display_progress_events (S i) (List.length files) (name f)) as [pct ->].
    exists pct. reflexivity.
Qed.



Lemma success_record_fields (env : Env) (p : Path) (info : pydict) :
  result (process_single_image env p) = Returned (true, info) ->
  exists ds,
    dcmread env p true = inr ds
    /\ forall key keyword,
         In (key, keyword) extracted_fields ->
         dict_get info key =
         Some (match dict_get ds keyword with Some v => v | None => VStr "N/A" end).
Proof.
  unfold process_single_image, call_dcmread.
  destruct (pydicom_installed env); [| discriminate].
  destruct (dcmread env p true) as [[cls msg] | ds] eqn:Hd; cbn; [discriminate |].
  intros H. injection H as <-.
  exists ds. split; [reflexivity |].
  intros key keyword Hin. unfold extracted_fields in Hin. cbn in Hin.
  repeat (destruct Hin as [Hin | Hin];
          [injection Hin as <- <-; reflexivity |]).
  contradiction.
Qed.

(** C10.  A success outcome of extraction carries a record with exactly
    the seven fixed keys, in order; ['filename'] is the name of the file
    and each of the six other fields is the decoder's value, or ['N/A']
    when the decoder does not expose the field.  In particular
    ['study_uid'] is present, so the aggregator's presence test holds and
    the record is appended to the group of its identifier. *)
Theorem success_record_has_fixed_keys (env : Env) (p : Path) (info : pydict) :
  result (process_single_image env p) = Returned (true, info) ->
  dict_keys info = record_keys
  /\ dict_get info "filename" = Some (VStr (name p))
  /\ (exists ds,
        dcmread env p true = inr ds
        /\ forall key keyword,
             In (key, keyword) extracted_fields ->
             dict_get info key =
             Some (match dict_get ds keyword with Some v => v | None => VStr "N/A" end))
  /\ dict_in "study_uid" info = true
  /\ exists k,
       dict_get info "study_uid" = Some k
       /\ forall studies,
            group_step studies info =
            studies_append k info
              (if negb (studies_mem k studies) then studies ++ [(k, [])] else studies).
Proof.
  unfold process_single_image, call_dcmread.
  destruct (pydicom_installed env); [| discriminate].
  destruct (dcmread env p true) as [[cls msg] | ds] eqn:Hd; cbn; [discriminate |].
  intros H. injection H as <-.
  split; [reflexivity |]. split; [reflexivity |]. split.
  - exists ds. split; [reflexivity |].
    intros key keyword Hin. unfold extracted_fields in Hin. cbn in Hin.
    repeat (destruct Hin as [Hin | Hin];
            [injection Hin as <- <-; reflexivity |]).
    contradiction.
  - split; [reflexivity |].
    eexists. split; [reflexivity |]. intros studies. reflexivity.
Qed.

Lemma success_record_has_fixed_keys_witness :
  dict_keys Samples.anonymous_record = record_keys
  /\ dict_in "study_uid" Samples.anonymous_record = true.
Proof.
  destruct (success_record_has_fixed_keys
              Samples.env ["data"; "c.dcm"] Samples.anonymous_record eq_refl)
    as [Hkeys [_ [_ [Hin _]]]].
  split; [exact Hkeys | exact Hin].
Defined.

(** *** Grouping *)

Lemma pyval_eqb_eq (a b : pyval) : pyval_eqb a b = true <-> a = b.
Proof.
  destruct a, b; simpl; split; intros H; try discriminate; try reflexivity.
  - apply String.eqb_eq in H. now subst.
  - injection H as ->. apply String.eqb_refl.
  - apply Z.eqb_eq in H. now subst.
  - injection H as ->. apply Z.eqb_refl.
Qed.

Lemma pyval_eqb_refl (a : pyval) : pyval_eqb a a = true.
Proof. now apply pyval_eqb_eq. Qed.

Lemma pyval_eqb_neq (a b : pyval) : pyval_eqb a b = false <-> a <> b.
Proof.
  split.
  - intros H E. apply pyval_eqb_eq in E. congruence.
  - intros H. destruct (pyval_eqb a b) eqn:E; [| reflexivity].
    apply pyval_eqb_eq in E. contradiction.
Qed.

Lemma pyval_eqb_sym (a b : pyval) : pyval_eqb a b = pyval_eqb b a.
Proof.
  destruct (pyval_eqb b a) eqn:E.
  - apply pyval_eqb_eq in E. subst. apply pyval_eqb_refl.
  - apply pyval_eqb_neq in E. apply pyval_eqb_neq. congruence.
Qed.

Lemma id_mem_In (k : pyval) (l : list pyval) : id_mem k l = true <-> In k l.
Proof.
  unfold id_mem. rewrite existsb_exists. split.
  - intros [x [Hx E]]. apply pyval_eqb_eq in E. now subst.
  - intros H. exists k. split; [assumption | apply pyval_eqb_refl].
Qed.

Lemma id_mem_not_In (k : pyval) (l : list pyval) : id_mem k l = false <-> ~ In k l.
Proof.
  rewrite <- id_mem_In. destruct (id_mem k l); split; congruence.
Qed.

Lemma first_occurrences_In (k : pyval) (l : list pyval) :
  In k (first_occurrences l) <-> In k l.
Proof.
  induction l as [| x l IH]; simpl; [tauto |].
  rewrite filter_In, IH. split.
  - intros [H | [H _]]; auto.
  - intros [H | H]; [now left |].
    destruct (pyval_eqb k x) eqn:E.
    + apply pyval_eqb_eq in E. now left.
    + right. now split.
Qed.

Lemma first_occurrences_NoDup (l : list pyval) : NoDup (first_occurrences l).
Proof.
  induction l as [| x l IH]; simpl; constructor.
  - rewrite filter_In. intros [_ H]. now rewrite pyval_eqb_refl in H.
  - now apply NoDup_filter.
Qed.

Lemma first_occurrences_snoc (l : list pyval) (x : pyval) :
  first_occurrences (l ++ [x]) =
  if id_mem x l then first_occurrences l else first_occurrences l ++ [x].
Proof.
  induction l as [| k l IH]; [reflexivity |].
  cbn [app first_occurrences]. rewrite IH.
  unfold id_mem. cbn [existsb]. fold (id_mem x l).
  destruct (pyval_eqb k x) eqn:E; cbn [orb].
  - destruct (id_mem x l); [reflexivity |].
    rewrite filter_app. cbn [filter].
    rewrite pyval_eqb_sym, E. cbn. now rewrite app_nil_r.
  - destruct (id_mem x l); [reflexivity |].
    rewrite filter_app. cbn [filter].
    rewrite pyval_eqb_sym, E. reflexivity.
Qed.

Lemma study_ids_snoc (results : list pydict) (r : pydict) :
  study_ids (results ++ [r]) =
  study_ids results ++ match dict_get r "study_uid" with Some k => [k] | None => [] end.
Proof. unfold study_ids. rewrite flat_map_app. cbn. now rewrite app_nil_r. Qed.

Lemma study_ids_In (k : pyval) (results : list pydict) :
  In k (study_ids results) <->
  exists r, In r results /\ dict_get r "study_uid" = Some k.
Proof.
  unfold study_ids. rewrite in_flat_map. split.
  - intros [r [Hr Hk]]. exists r. split; [assumption |].
    destruct (dict_get r "study_uid"); [| contradiction].
    destruct Hk as [-> | []]. reflexivity.
  - intros [r [Hr Hk]]. exists r. split; [assumption |]. rewrite Hk. now left.
Qed.

Lemma has_study_Some (k k0 : pyval) (r : pydict) :
  dict_get r "study_uid" = Some k0 -> has_study k r = pyval_eqb k0 k.
Proof. unfold has_study. now intros ->. Qed.

Lemma has_study_None (k : pyval) (r : pydict) :
  dict_get r "study_uid" = None -> has_study k r = false.
Proof. unfold has_study. now intros ->. Qed.

Lemma filter_has_study_absent (k : pyval) (results : list pydict) :
  ~ In k (study_ids results) -> filter (has_study k) results = [].
Proof.
  intros Hk. induction results as [| r rs IH]; [reflexivity |].
  cbn [filter]. destruct (has_study k r) eqn:E.
  - exfalso. apply Hk. apply study_ids_In. exists r. split; [now left |].
    unfold has_study in E. destruct (dict_get r "study_uid") as [k' |]; [| discriminate].
    apply pyval_eqb_eq in E. now subst.
  - apply IH. intros H. apply Hk. apply study_ids_In.
    apply study_ids_In in H as [r' [Hr' Hk']]. exists r'. split; [now right | assumption].
Qed.

Lemma studies_append_absent (k : pyval) (r : pydict) (studies : Studies) :
  ~ In k (map fst studies) -> studies_append k r studies = studies.
Proof.
  induction studies as [| [k' images] rest IH]; intros Hk; [reflexivity |].
  cbn [studies_append]. destruct (pyval_eqb k' k) eqn:E.
  - apply pyval_eqb_eq in E. subst. exfalso. apply Hk. now left.
  - rewrite IH; [reflexivity |]. intros H. apply Hk. now right.
Qed.

(** Appending to the group of [k0] in a dictionary built from a
    duplicate-free list of keys. *)
Lemma studies_append_map (k0 : pyval) (r : pydict) (F : pyval -> list pydict)
      (keys : list pyval) :
  NoDup keys ->
  studies_append k0 r (map (fun k => (k, F k)) keys) =
  map (fun k => (k, F k ++ if pyval_eqb k k0 then [r] else [])) keys.
Proof.
  induction 1 as [| k keys Hk Hnd IH]; [reflexivity |].
  cbn [map studies_append]. destruct (pyval_eqb k k0) eqn:E.
  - f_equal. apply pyval_eqb_eq in E. subst k0.
    apply map_ext_in. intros k' Hk'.
    destruct (pyval_eqb k' k) eqn:E'.
    + apply pyval_eqb_eq in E'. subst. contradiction.
    + now rewrite app_nil_r.
  - rewrite app_nil_r. now rewrite IH.
Qed.

Lemma studies_mem_In (k : pyval) (studies : Studies) :
  studies_mem k studies = true <-> In k (map fst studies).
Proof.
  unfold studies_mem. rewrite existsb_exists, in_map_iff. split.
  - intros [kv [Hin E]]. apply pyval_eqb_eq in E. eauto.
  - intros [kv [E Hin]]. exists kv. split; [assumption |]. rewrite E. apply pyval_eqb_refl.
Qed.

Lemma groups_of_keys (results : list pydict) :
  map fst (groups_of results) = first_occurrences (study_ids results).
Proof. unfold groups_of. rewrite map_map. cbn [fst]. apply map_id. Qed.

Lemma studies_mem_groups_of (k : pyval) (results : list pydict) :
  studies_mem k (groups_of results) = id_mem k (study_ids results).
Proof.
  destruct (id_mem k (study_ids results)) eqn:E.
  - apply studies_mem_In. rewrite groups_of_keys.
    apply first_occurrences_In. now apply id_mem_In.
  - destruct (studies_mem k (groups_of results)) eqn:E'; [| reflexivity].
    apply studies_mem_In in E'. rewrite groups_of_keys in E'.
    rewrite first_occurrences_In, <- id_mem_In in E'. congruence.
Qed.

Lemma groups_of_snoc (results : list pydict) (r : pydict) :
  groups_of (results ++ [r]) = group_step (groups_of results) r.
Proof.
  unfold group_step. destruct (dict_get r "study_uid") as [k0 |] eqn:Hr.
  - rewrite studies_mem_groups_of.
    unfold groups_of at 1. rewrite study_ids_snoc, Hr, first_occurrences_snoc.
    destruct (id_mem k0 (study_ids results)) eqn:Hmem; cbn [negb].
    + unfold groups_of. rewrite studies_append_map by apply first_occurrences_NoDup.
      apply map_ext. intros k. rewrite filter_app. cbn [filter].
      rewrite (has_study_Some k k0 r Hr), (pyval_eqb_sym k0 k).
      now destruct (pyval_eqb k k0).
    + apply id_mem_not_In in Hmem.
      assert (Hfresh : ~ In k0 (map fst (groups_of results))).
      { rewrite groups_of_keys. now rewrite first_occurrences_In. }
      rewrite map_app. cbn [map].
      assert (Hstep : studies_append k0 r (groups_of results ++ [(k0, [])]) =
                      groups_of results ++ [(k0, [r])]).
      { clear - Hfresh. induction (groups_of results) as [| [k' images] rest IH].
        - cbn. now rewrite pyval_eqb_refl.
        - cbn [app studies_append]. destruct (pyval_eqb k' k0) eqn:E.
          + apply pyval_eqb_eq in E. subst. exfalso. apply Hfresh. now left.
          + rewrite IH; [reflexivity |]. intros H. apply Hfresh. now right. }
      rewrite Hstep. f_equal.
      * unfold groups_of. apply map_ext_in. intros k Hk. f_equal.
        rewrite filter_app. cbn [filter].
        rewrite (has_study_Some k k0 r Hr).
        destruct (pyval_eqb k0 k) eqn:E; [| now rewrite app_nil_r].
        apply pyval_eqb_eq in E. subst.
        rewrite first_occurrences_In in Hk. contradiction.
      * f_equal. f_equal. rewrite filter_app. cbn [filter].
        rewrite (has_study_Some k0 k0 r Hr), pyval_eqb_refl.
        now rewrite filter_has_study_absent.
  - unfold groups_of. rewrite study_ids_snoc, Hr, app_nil_r.
    apply map_ext. intros k. f_equal. rewrite filter_app. cbn [filter].
    rewrite (has_study_None k r Hr). now rewrite app_nil_r.
Qed.

(** The loop of [group_by_study] computes [groups_of]. *)
Lemma group_by_study_groups_of (results : list pydict) :
  group_by_study results = groups_of results.
Proof.
  induction results as [| r results IH] using rev_ind; [reflexivity |].
  unfold group_by_study in *. rewrite fold_left_app. cbn [fold_left].
  now rewrite IH, groups_of_snoc.
Qed.

Lemma groups_of_In (results : list pydict) (k : pyval) (g : list pydict) :
  In (k, g) (groups_of results) ->
  In k (first_occurrences (study_ids results)) /\ g = filter (has_study k) results.
Proof.
  unfold groups_of. rewrite in_map_iff. intros [k' [E Hk']].
  injection E as <- <-. now split.
Qed.

(** The claim of C3 fails: a file that exposes no study identifier is
    extracted with the sentinel ['N/A'] under ['study_uid'], and its record
    is placed in the group of key ['N/A']. *)
Lemma anonymous_record_is_grouped :
  dcmread Samples.env ["data"; "c.dcm"] true = inr [("PatientID", VStr "P2")]
  /\ dict_get [("PatientID", VStr "P2")] "StudyInstanceUID" = None
  /\ result (process_single_image Samples.env ["data"; "c.dcm"])
     = Returned (true, Samples.anonymous_record)
  /\ group_by_study [Samples.anonymous_record]
     = [(VStr "N/A", [Samples.anonymous_record])]
  /\ ~ (forall k g, In (k, g) (group_by_study [Samples.anonymous_record]) ->
                    ~ In Samples.anonymous_record g).
Proof.
  repeat split.
  intros H. apply (H (VStr "N/A") [Samples.anonymous_record]); now left.
Qed.

(** What single-file extraction stores under ['study_uid'] for a file
    that exposes no study identifier. *)
Lemma anonymous_record_study_uid (env : Env) (p : Path) (ds info : pydict) :
  result (process_single_image env p) = Returned (true, info) ->
  dcmread env p true = inr ds ->
  dict_get ds "StudyInstanceUID" = None ->
  dict_get info "study_uid" = Some (VStr "N/A").
Proof.
  intros Hinfo Hds Hnone.
  destruct (success_record_fields env p info Hinfo) as [ds' [Hds' Hfields]].
  rewrite Hds in Hds'. injection Hds' as <-.
  rewrite (Hfields "study_uid" "StudyInstanceUID") by (cbn; tauto).
  now rewrite Hnone.
Qed.

(** C3, amended.  A record without the key ['study_uid'] is in no group,
    whatever the records that are grouped.  A record extracted from a
    file that exposes no study identifier does carry the key, with the
    sentinel ['N/A']: wherever it occurs among the records it is a member
    of the group of key ['N/A'] and of no other group, and that group
    holds, in their order, the records whose identifier is ['N/A'], among
    them every other record extracted from such a file. *)
Theorem record_without_key_is_excluded :
  (forall (results : list pydict) (r : pydict),
      dict_get r "study_uid" = None ->
      forall k g, In (k, g) (group_by_study results) -> ~ In r g)
  /\ (forall (env : Env) (p : Path) (ds info : pydict),
         result (process_single_image env p) = Returned (true, info) ->
         dcmread env p true = inr ds ->
         dict_get ds "StudyInstanceUID" = None ->
         dict_get info "study_uid" = Some (VStr "N/A")
         /\ forall results : list pydict,
              In info results ->
              exists g,
                In (VStr "N/A", g) (group_by_study results)
                /\ In info g
                /\ g = filter (has_study (VStr "N/A")) results
                /\ (forall k g',
                       In (k, g') (group_by_study results) -> In info g' ->
                       k = VStr "N/A")
                /\ (forall (env' : Env) (p' : Path) (ds' info' : pydict),
                       result (process_single_image env' p') = Returned (true, info') ->
                       dcmread env' p' true = inr ds' ->
                       dict_get ds' "StudyInstanceUID" = None ->
                       In info' results ->
                       In info' g)).
Proof.
  split.
  - intros results r Hr k g Hkg Hrg. rewrite group_by_study_groups_of in Hkg.
    apply groups_of_In in Hkg as [_ ->].
    apply filter_In in Hrg as [_ Hrg]. now rewrite (has_study_None k r Hr) in Hrg.
  - intros env p ds info Hinfo Hds Hnone.
    pose proof (anonymous_record_study_uid env p ds info Hinfo Hds Hnone) as Huid.
    split; [exact Huid |].
    intros results Hin. rewrite group_by_study_groups_of.
    exists (filter (has_study (VStr "N/A")) results).
    split; [| split; [| split; [reflexivity | split]]].
    + unfold groups_of. apply in_map_iff. exists (VStr "N/A"). split; [reflexivity |].
      apply first_occurrences_In, study_ids_In. eauto.
    + apply filter_In. split; [assumption |].
      rewrite (has_study_Some _ _ _ Huid). apply pyval_eqb_refl.
    + intros k g' Hkg Hg'. apply groups_of_In in Hkg as [_ ->].
      apply filter_In in Hg' as [_ Hg'].
      rewrite (has_study_Some _ _ _ Huid) in Hg'.
      apply pyval_eqb_eq in Hg'. now subst.
    + intros env' p' ds' info' Hinfo' Hds' Hnone' Hin'.
      apply filter_In. split; [assumption |].
      rewrite (has_study_Some _ _ _
                 (anonymous_record_study_uid env' p' ds' info' Hinfo' Hds' Hnone')).
      apply pyval_eqb_refl.
Qed.

Lemma record_without_key_is_excluded_witness :
  (forall k g, In (k, g) (group_by_study [[("filename", VStr "x")]]) ->
               ~ In [("filename", VStr "x")] g)
  /\ exists g,
       In (VStr "N/A", g)
          (group_by_study [Samples.anonymous_record; [("filename", VStr "x")];
                           Samples.anonymous_record])
       /\ g = [Samples.anonymous_record; Samples.anonymous_record].
Proof.
  destruct record_without_key_is_excluded as [Hexcl Hgrp].
  split.
  - exact (Hexcl [[("filename", VStr "x")]] [("filename", VStr "x")] eq_refl).
  - destruct (Hgrp Samples.env ["data"; "c.dcm"] [("PatientID", VStr "P2")]
                   Samples.anonymous_record eq_refl eq_refl eq_refl)
      as [_ Hin].
    destruct (Hin [Samples.anonymous_record; [("filename", VStr "x")];
                   Samples.anonymous_record] (or_introl eq_refl))
      as [g [Hg [_ [Heq _]]]].
    exists g. split; [exact Hg | exact Heq].
Defined.

(** The claim of C8 fails on the count: a record whose study identifier is
    the empty string opens a group of its own, so there is one group where
    no identifier is non-empty. *)
Lemma empty_identifier_is_a_group :
  group_by_study [Samples.empty_id_record] = [(VStr "", [Samples.empty_id_record])]
  /\ List.length (group_by_study [Samples.empty_id_record])
     <> List.length (first_occurrences
                       (filter is_nonempty_id (study_ids [Samples.empty_id_record]))).
Proof. split; [reflexivity | cbn; discriminate]. Qed.

(** C8, amended.  Every record of a group carries the group's key as its
    study identifier, and the group holds all records of that identifier
    in input order.  The keys are pairwise distinct, they are the
    identifiers carried by the input records, the empty string like any
    other value, and they come in order of first appearance; so the number
    of groups is the number of distinct identifiers. *)
Theorem groups_partition_by_identifier (results : list pydict) :
  (forall k g r, In (k, g) (group_by_study results) -> In r g ->
                 dict_get r "study_uid" = Some k)
  /\ (forall k g, In (k, g) (group_by_study results) ->
                  g = filter (has_study k) results)
  /\ map fst (group_by_study results) = first_occurrences (study_ids results)
  /\ NoDup (map fst (group_by_study results))
  /\ (forall k, In k (map fst (group_by_study results)) <->
                exists r, In r results /\ dict_get r "study_uid" = Some k)
  /\ List.length (group_by_study results)
     = List.length (first_occurrences (study_ids results)).
Proof.
  rewrite group_by_study_groups_of, groups_of_keys.
  split; [| split; [| split; [| split; [| split]]]].
  - intros k g r Hkg Hr. apply groups_of_In in Hkg as [_ ->].
    apply filter_In in Hr as [_ Hr]. unfold has_study in Hr.
    destruct (dict_get r "study_uid") as [k' |]; [| discriminate].
    apply pyval_eqb_eq in Hr. now subst.
  - intros k g Hkg. now apply groups_of_In in Hkg.
  - reflexivity.
  - apply first_occurrences_NoDup.
  - intros k. now rewrite first_occurrences_In, study_ids_In.
  - unfold groups_of. apply length_map.
Qed.

(** *** The summary *)

Lemma error_lines_app (t t' : list event) :
  error_lines (t ++ t') = error_lines t ++ error_lines t'.
Proof. apply flat_map_app. Qed.

Lemma more_lines_app (t t' : list event) :
  more_lines (t ++ t') = more_lines t ++ more_lines t'.
Proof. apply flat_map_app. Qed.

Lemma display_study_lines (item : pyval * list pydict) :
  error_lines (events (display_study item)) = []
  /\ more_lines (events (display_study item)) = [].
Proof.
  destruct item as [k [| first rest]]; [now split |].
  destruct k; now split.
Qed.

Lemma for_each_display_study_lines (studies : Studies) :
  error_lines (events (for_each studies display_study)) = []
  /\ more_lines (events (for_each studies display_study)) = [].
Proof.
  induction studies as [| item rest [IHe IHm]]; [now split |].
  cbn [for_each]. rewrite bind_events, error_lines_app, more_lines_app.
  destruct (display_study_lines item) as [-> ->].
  destruct (result (display_study item)); now split.
Qed.

Lemma for_each_display_study_returns (studies : Studies) :
  Forall (fun kv => (exists s, fst kv = VStr s) /\ snd kv <> []) studies ->
  result (for_each studies display_study) = Returned tt.
Proof.
  induction 1 as [| [k images] rest [[s Hk] Hne] _ IH]; [reflexivity |].
  cbn [fst snd] in Hk, Hne. subst k.
  destruct images as [| first more]; [contradiction |].
  cbn [for_each]. rewrite bind_result. cbn. exact IH.
Qed.

Lemma collect_errors_events (results : list Result) :
  events (collect_errors results) = [].
Proof.
  induction results as [| [[|] r] rest IH]; [reflexivity | exact IH |].
  cbn [collect_errors]. destruct (dict_get r "filename"); [| reflexivity].
  rewrite bind_events, IH. now destruct (result (collect_errors rest)).
Qed.

Lemma collect_errors_result (results : list Result) (errors : list (pyval * pyval)) :
  result (collect_errors results) = Returned errors -> errors = failures results.
Proof.
  revert errors. induction results as [| [[|] r] rest IH]; intros errors.
  - cbn. now intros [= <-].
  - exact (IH errors).
  - cbn [collect_errors]. unfold failures. cbn [flat_map fst snd].
    unfold dict_get_default.
    destruct (dict_get r "filename") as [f |]; [| discriminate].
    rewrite bind_result.
    destruct (result (collect_errors rest)) as [errs |]; [| discriminate].
    cbn. intros [= <-]. now rewrite (IH errs eq_refl).
Qed.

Lemma collect_errors_returns (results : list Result) :
  forallb renderable results = true ->
  result (collect_errors results) = Returned (failures results).
Proof.
  induction results as [| [[|] r] rest IH]; cbn [forallb]; intros H.
  - reflexivity.
  - apply andb_prop in H as [_ H]. exact (IH H).
  - apply andb_prop in H as [Hr H]. unfold renderable, dict_in in Hr. cbn [fst snd] in Hr.
    cbn [collect_errors]. unfold failures. cbn [flat_map fst snd].
    unfold dict_get_default.
    destruct (dict_get r "filename") as [f |]; [| discriminate].
    rewrite bind_result, (IH H). reflexivity.
Qed.

Lemma print_errors_spec (errors : list (pyval * pyval)) :
  for_each errors (fun fe => print (LError (fst fe) (snd fe))) =
  (map (fun fe => Print (LError (fst fe) (snd fe))) errors, Returned tt).
Proof.
  induction errors as [| fe rest IH]; [reflexivity |].
  cbn [for_each]. rewrite IH. reflexivity.
Qed.

Lemma error_lines_printed (errors : list (pyval * pyval)) :
  error_lines (map (fun fe => Print (LError (fst fe) (snd fe))) errors) = errors
  /\ more_lines (map (fun fe => Print (LError (fst fe) (snd fe))) errors) = [].
Proof.
  induction errors as [| [f e] rest [IHe IHm]]; [now split |].
  cbn. split; [now f_equal | exact IHm].
Qed.

Lemma display_errors_spec (errors : list (pyval * pyval)) :
  result (display_errors errors) = Returned tt
  /\ error_lines (events (display_errors errors)) = firstn 10 errors
  /\ more_lines (events (display_errors errors)) =
     if 10 <? List.length errors then [List.length errors - 10] else [].
Proof.
  destruct errors as [| fe rest]; [now repeat split |].
  unfold display_errors. rewrite print_errors_spec.
  destruct (error_lines_printed (firstn 10 (fe :: rest))) as [He Hm].
  destruct (10 <? List.length (fe :: rest)); cbn [print emit ret bind events result fst snd];
    rewrite !error_lines_app, !more_lines_app, ?He, ?Hm; cbn;
    rewrite ?app_nil_r; repeat split; reflexivity.
Qed.

Lemma groups_renderable (results : list Result) :
  forallb renderable results = true ->
  Forall (fun kv => (exists s, fst kv = VStr s) /\ snd kv <> [])
         (group_by_study (map snd (filter fst results))).
Proof.
  intros Hall. rewrite group_by_study_groups_of. apply Forall_forall.
  intros [k g] Hin. apply groups_of_In in Hin as [Hk ->]. cbn [fst snd].
  rewrite first_occurrences_In, study_ids_In in Hk.
  destruct Hk as [r [Hr Hk]].
  split.
  - apply in_map_iff in Hr as [[ok r'] [E Hsr]]. cbn in E. subst r'.
    apply filter_In in Hsr as [Hsr Hok]. cbn in Hok. subst ok.
    rewrite forallb_forall in Hall. specialize (Hall _ Hsr).
    unfold renderable in Hall. cbn [fst snd] in Hall. rewrite Hk in Hall.
    destruct k; try discriminate. eauto.
  - intros Hnil.
    assert (Hin : In r (filter (has_study k) (map snd (filter fst results)))).
    { apply filter_In. split; [assumption |].
      rewrite (has_study_Some _ _ _ Hk). apply pyval_eqb_refl. }
    now rewrite Hnil in Hin.
Qed.

Lemma error_lines_bind {A B} (m : M event A) (f : A -> M event B) :
  error_lines (events (bind m f)) =
  error_lines (events m) ++ match result m with
                            | Returned a => error_lines (events (f a))
                            | Raised _ => []
                            end.
Proof.
  rewrite bind_events, error_lines_app. now destruct (result m).
Qed.

Lemma more_lines_bind {A B} (m : M event A) (f : A -> M event B) :
  more_lines (events (bind m f)) =
  more_lines (events m) ++ match result m with
                           | Returned a => more_lines (events (f a))
                           | Raised _ => []
                           end.
Proof.
  rewrite bind_events, more_lines_app. now destruct (result m).
Qed.

Ltac summary_step :=
  rewrite ?error_lines_bind, ?more_lines_bind, ?bind_result;
  cbn [print emit ret raise events result fst snd error_lines more_lines flat_map app].

(** C9.  The error section of the summary never details more than ten
    failures.  When the summary is rendered (a non-zero total, failures
    that name their file, textual study identifiers) it returns, the
    detailed failures are exactly the first ten of the batch, in order,
    and the others are reported by one line carrying their count. *)
Theorem error_report_is_bounded (results : list Result) (total_files : Z) :
  List.length (error_lines (events (display_summary results total_files))) <= 10
  /\ (total_files <> 0%Z ->
      forallb renderable results = true ->
      result (display_summary results total_files) = Returned tt
      /\ error_lines (events (display_summary results total_files))
         = firstn 10 (failures results)
      /\ more_lines (events (display_summary results total_files))
         = if 10 <? List.length (failures results)
           then [List.length (failures results) - 10]
           else []).
Proof.
  unfold display_summary.
  repeat summary_step.
  unfold percentage_or_raise.
  destruct (Z.eqb total_files 0) eqn:Hz.
  { cbn. split; [lia |]. intros Hne. apply Z.eqb_eq in Hz. contradiction. }
  repeat summary_step.
  pose proof (groups_renderable results) as Hgroups.
  remember (group_by_study (map snd (filter fst results))) as studies eqn:Hstudies.
  pose proof (for_each_display_study_lines studies) as [HSe HSm].
  pose proof (for_each_display_study_returns studies) as HSr.
  pose proof (collect_errors_events results) as HCe.
  pose proof (collect_errors_returns results) as HCr.
  destruct (display_errors_spec (failures results)) as [HDr [HDe HDm]].
  assert (Hbound : forall errors : list (pyval * pyval),
             List.length (firstn 10 errors) <= 10)
    by (intros; apply firstn_le_length).
  split.
  - destruct studies as [| item rest]; repeat summary_step;
      rewrite ?HSe, ?HCe; cbn [error_lines flat_map app];
      destruct (result (for_each _ display_study)); cbn [List.length]; try lia;
      repeat summary_step; rewrite ?HCe; cbn [error_lines flat_map app];
      (destruct (result (collect_errors results)) as [errors |] eqn:HC;
       [| cbn; lia]);
      repeat summary_step;
      destruct (display_errors_spec errors) as [-> [-> _]];
      cbn [error_lines flat_map app]; rewrite app_nil_r; apply Hbound.
  - intros _ Hall. specialize (Hgroups Hall). specialize (HSr Hgroups).
    specialize (HCr Hall).
    destruct studies as [| item rest]; repeat summary_step;
      rewrite ?HSe, ?HSm, ?HSr, ?HCe, ?HCr; repeat summary_step;
      rewrite ?HCe, ?HCr; repeat summary_step;
      rewrite HDr, HDe, HDm; cbn [error_lines more_lines flat_map app];
      rewrite ?app_nil_r; repeat split; reflexivity.
Qed.

Lemma error_report_is_bounded_witness :
  result (display_summary Samples.twelve_failures 12) = Returned tt
  /\ List.length (error_lines (events (display_summary Samples.twelve_failures 12))) = 10
  /\ more_lines (events (display_summary Samples.twelve_failures 12)) = [2].
Proof.
  destruct (error_report_is_bounded Samples.twelve_failures 12) as [_ H].
  destruct H as [Hr [He Hm]]; [discriminate | reflexivity |].
  split; [exact Hr |]. split; [now rewrite He | exact Hm].
Defined.

(** *** File discovery *)

Lemma path_compare_antisym (p q : Path) :
  path_compare q p = CompOpp (path_compare p q).
Proof.
  revert q. induction p as [| a p IH]; intros [| b q]; cbn; try reflexivity.
  rewrite (String.compare_antisym a b).
  destruct (String.compare b a); cbn; auto.
Qed.

Lemma path_ltb_asym (p q : Path) : path_ltb p q = true -> Path_le p q.
Proof.
  unfold Path_le, path_ltb. rewrite (path_compare_antisym p q).
  now destruct (path_compare p q).
Qed.

Lemma insert_In (z x : Path) (l : list Path) : In z (insert x l) <-> z = x \/ In z l.
Proof.
  induction l as [| y l IH]; cbn.
  - intuition congruence.
  - destruct (path_ltb x y); cbn; [intuition congruence |].
    rewrite IH. intuition congruence.
Qed.

Lemma sorted_In (z : Path) (l : list Path) : In z (sorted l) <-> In z l.
Proof.
  induction l as [| x l IH]; cbn; [tauto |].
  rewrite insert_In, IH. intuition congruence.
Qed.

Lemma insert_Sorted (x : Path) (l : list Path) :
  Sorted Path_le l -> Sorted Path_le (insert x l).
Proof.
  induction 1 as [| y l Hs IH Hy]; cbn.
  - repeat constructor.
  - destruct (path_ltb x y) eqn:E.
    + constructor; [now constructor |]. constructor. now apply path_ltb_asym.
    + constructor; [exact IH |].
      destruct l as [| z l]; cbn.
      * constructor. exact E.
      * destruct (path_ltb x z); constructor; [exact E |].
        now inversion Hy.
Qed.

Lemma sorted_Sorted (l : list Path) : Sorted Path_le (sorted l).
Proof.
  induction l as [| x l IH]; cbn; [constructor | now apply insert_Sorted].
Qed.

Lemma fold_left_extend {A B} (f : A -> list B) (l : list A) (acc : list B) :
  fold_left (fun acc x => acc ++ f x) l acc = acc ++ flat_map f l.
Proof.
  revert acc. induction l as [| x l IH]; intros acc; cbn.
  - now rewrite app_nil_r.
  - now rewrite IH, app_assoc.
Qed.

Lemma fold_left_append_if {A B} (keep : A -> bool) (g : A -> B) (l : list A) (acc : list B) :
  fold_left (fun acc x => if keep x then acc ++ [g x] else acc) l acc =
  acc ++ map g (filter keep l).
Proof.
  revert acc. induction l as [| x l IH]; intros acc; cbn.
  - now rewrite app_nil_r.
  - rewrite IH. destruct (keep x); cbn; [now rewrite <- app_assoc | reflexivity].
Qed.

(** Every path met below [parent] extends [parent]. *)
Fixpoint walk_under (e : entry) :
  forall parent it, In it (walk parent e) ->
                    exists rest, rest <> [] /\ fst it = parent ++ rest.
Proof.
  destruct e as [n | n children]; intros parent it Hin; cbn in Hin.
  - destruct Hin as [<- | []]. exists [n]. split; [discriminate | reflexivity].
  - destruct Hin as [<- | Hin].
    + exists [n]. split; [discriminate | reflexivity].
    + induction children as [| c cs IH]; cbn in Hin; [contradiction |].
      apply in_app_or in Hin as [Hin | Hin].
      * destruct (walk_under c (parent ++ [n]) it Hin) as [rest [Hne E]].
        exists (n :: rest). split; [discriminate |].
        rewrite E, <- app_assoc. reflexivity.
      * exact (IH Hin).
Qed.

(** The paths found are those of the entries below the root that
    [is_candidate] keeps, and they come out in order. *)
Lemma find_dicom_files_spec (directory : Path) (tree : list entry) :
  Sorted Path_le (find_dicom_files directory tree)
  /\ (forall p,
         In p (find_dicom_files directory tree) <->
         exists it, In it (flat_map (walk directory) tree)
                    /\ fst it = p /\ is_candidate it = true)
  /\ (forall p,
         In p (find_dicom_files directory tree) ->
         exists rest, rest <> [] /\ p = directory ++ rest).
Proof.
  assert (Hin : forall p,
             In p (find_dicom_files directory tree) <->
             exists it, In it (flat_map (walk directory) tree)
                        /\ fst it = p /\ is_candidate it = true);
    [| split; [apply sorted_Sorted | split; [exact Hin |]];
       intros p Hp; apply Hin in Hp as [it [Hit [<- _]]];
       apply in_flat_map in Hit as [e [_ He]];
       exact (walk_under e directory it He)].
  unfold find_dicom_files.
  intros p. rewrite sorted_In, fold_left_append_if, fold_left_extend.
  cbn [app]. rewrite in_app_iff, in_flat_map. unfold rglob. split.
  - intros [[ext [Hext Hp]] | Hp].
    + apply in_map_iff in Hp as [it [<- Hit]]. apply filter_In in Hit as [Hit Hm].
      exists it. repeat split; [assumption |]. unfold is_candidate.
      apply orb_true_intro. left. apply existsb_exists. eauto.
    + apply in_map_iff in Hp as [it [<- Hit]]. apply filter_In in Hit as [Hit Hk].
      apply filter_In in Hit as [Hit _].
      exists it. repeat split; [assumption |]. unfold is_candidate.
      apply orb_true_intro. now right.
  - intros [it [Hit [<- Hc]]]. unfold is_candidate in Hc.
    apply orb_prop in Hc as [Hc | Hc].
    + left. apply existsb_exists in Hc as [ext [Hext Hm]].
      exists ext. split; [assumption |]. apply in_map. apply filter_In. now split.
    + right. apply in_map. apply filter_In. split; [| assumption].
      apply filter_In. now split.
Qed.

(** C5.  On a root that holds a directory named [scan.dcm], discovery
    returns that directory: the extension loop collects whatever
    [rglob] yields and, unlike the loop over extensionless entries, does
    not ask [is_file()]. *)
Theorem find_dicom_files_returns_directory :
  find_dicom_files ["data"] Samples.tree_with_dcm_directory = [["data"; "scan.dcm"]]
  /\ is_directory ["data"] Samples.tree_with_dcm_directory ["data"; "scan.dcm"] = true
  /\ find_dicom_files ["data"] [Directory "scan" []] = [].
Proof. repeat split. Qed.

End BatchFacts.

(** ** Properties of the filter script *)

Module FilterFacts.
Import Py CustomFilter FilterSpec.

(** *** Arithmetic on numbers the format holds exactly *)

Section Exact.
Variable rnd : Q -> float64.
Hypothesis ieee : IEEE_rounding rnd.








End Exact.

(** *** The rounding of binary64 *)

#[local] Open Scope Q_scope.

#[local] Opaque Qpower.

Lemma pow2_pos (e : Z) : 0 < 2 ^ e.
Proof. apply Qpower_0_lt. reflexivity. Qed.

Lemma pow2_plus (a b : Z) : 2 ^ (a + b) == 2 ^ a * 2 ^ b.
Proof. apply Qpower_plus. discriminate. Qed.

Lemma pow2_le (a b : Z) : (a <= b)%Z -> 2 ^ a <= 2 ^ b.
Proof. intros H. apply Qpower_le_compat_l; [assumption | discriminate]. Qed.

Lemma pow2_lt (a b : Z) : (a < b)%Z -> 2 ^ a < 2 ^ b.
Proof. intros H. apply Qpower_lt_compat_l; [assumption | reflexivity]. Qed.

Lemma pow2_Z (n : Z) : (0 <= n)%Z -> inject_Z (2 ^ n) == 2 ^ n.
Proof. intros H. now rewrite Zpower_Qpower. Qed.

Lemma pow2_succ (a : Z) : 2 ^ (a + 1) == 2 * 2 ^ a.
Proof. rewrite pow2_plus. change (2 ^ 1) with 2. ring. Qed.

(** Rounding to an integer *)

Lemma round_half_even_bounds (t : Q) :
  (Qfloor t <= round_half_even t <= Qfloor t + 1)%Z.
Proof.
  unfold round_half_even.
  destruct (Qcompare (t - inject_Z (Qfloor t)) (1 # 2)); [| lia | lia].
  destruct (Z.even (Qfloor t)); lia.
Qed.

Lemma round_half_even_Z (t : Q) (z : Z) : t == inject_Z z -> round_half_even t = z.
Proof.
  intros H. unfold round_half_even.
  assert (Hf : Qfloor t = z) by (rewrite H; apply Qfloor_Z).
  rewrite Hf.
  assert (Hlt : t - inject_Z z < 1 # 2) by (rewrite H; lra).
  destruct (Qcompare_spec (t - inject_Z z) (1 # 2)) as [H1 | H1 | H1];
    [lra | reflexivity | lra].
Qed.

Lemma round_half_even_mono (t u : Q) : t <= u -> (round_half_even t <= round_half_even u)%Z.
Proof.
  intros H. pose proof (Qfloor_resp_le t u H) as Hf.
  pose proof (round_half_even_bounds t) as Ht.
  pose proof (round_half_even_bounds u) as Hu.
  destruct (Z.eq_dec (Qfloor t) (Qfloor u)) as [E | E]; [| lia].
  unfold round_half_even in *. rewrite <- E in *.
  destruct (Qcompare_spec (t - inject_Z (Qfloor t)) (1 # 2)) as [H1 | H1 | H1];
    destruct (Qcompare_spec (u - inject_Z (Qfloor t)) (1 # 2)) as [H2 | H2 | H2];
    try lia; try lra;
    destruct (Z.even (Qfloor t)); lia || lra.
Qed.

Lemma round_half_even_ge (t : Q) (z : Z) : inject_Z z <= t -> (z <= round_half_even t)%Z.
Proof.
  intros H. rewrite <- (round_half_even_Z (inject_Z z) z (Qeq_refl _)).
  now apply round_half_even_mono.
Qed.

Lemma round_half_even_le (t : Q) (z : Z) : t <= inject_Z z -> (round_half_even t <= z)%Z.
Proof.
  intros H. rewrite <- (round_half_even_Z (inject_Z z) z (Qeq_refl _)).
  now apply round_half_even_mono.
Qed.

(** The binary logarithm *)

Lemma Qlog2_spec (x : Q) : 0 < x -> 2 ^ Qlog2 x <= x /\ x < 2 ^ (Qlog2 x + 1).
Proof.
  intros Hx. destruct x as [n d]. unfold Qlog2. cbn [Qnum Qden].
  assert (Hn : (0 < n)%Z).
  { unfold Qlt in Hx. cbn in Hx. lia. }
  destruct (Z.log2_spec n Hn) as [Ha1 Ha2].
  destruct (Z.log2_spec (Zpos d) (Pos2Z.is_pos d)) as [Hb1 Hb2].
  pose proof (Z.log2_nonneg n) as Ha0. pose proof (Z.log2_nonneg (Zpos d)) as Hb0.
  set (a := Z.log2 n) in *. set (b := Z.log2 (Zpos d)) in *.
  assert (HA1 : 2 ^ a <= inject_Z n) by (rewrite <- pow2_Z, <- Zle_Qle; lia).
  assert (HA2 : inject_Z n < 2 * 2 ^ a).
  { rewrite <- pow2_succ, <- pow2_Z, <- Zlt_Qlt by lia. replace (a + 1)%Z with (Z.succ a); lia. }
  assert (HB1 : 2 ^ b <= inject_Z (Zpos d)) by (rewrite <- pow2_Z, <- Zle_Qle; lia).
  assert (HB2 : inject_Z (Zpos d) < 2 * 2 ^ b).
  { rewrite <- pow2_succ, <- pow2_Z, <- Zlt_Qlt by lia. replace (b + 1)%Z with (Z.succ b); lia. }
  assert (Hk : 2 ^ (a - b) * 2 ^ b == 2 ^ a).
  { rewrite <- pow2_plus. now replace (a - b + b)%Z with a by lia. }
  assert (Hxd : (n # d) * inject_Z (Zpos d) == inject_Z n).
  { rewrite Qmake_Qdiv. field. discriminate. }
  pose proof (pow2_pos a) as Pa. pose proof (pow2_pos b) as Pb.
  pose proof (pow2_pos (a - b)) as Pk.
  set (X := n # d) in *. set (D := inject_Z (Zpos d)) in *. set (N := inject_Z n) in *.
  set (A := 2 ^ a) in *. set (B := 2 ^ b) in *.
  assert (HD : 0 < D) by lra.
  destruct (Qle_bool (2 ^ (a - b)) X) eqn:E.
  - apply Qle_bool_iff in E. split; [exact E |].
    rewrite pow2_succ. set (K := 2 ^ (a - b)) in *.
    (* X * D = N < 2 A = 2 K B <= 2 K D *)
    apply (Qmult_lt_r _ _ D HD). nra.
  - assert (E' : X < 2 ^ (a - b)).
    { apply Qnot_le_lt. intros H. apply Qle_bool_iff in H. congruence. }
    replace (a - b - 1 + 1)%Z with (a - b)%Z by lia. split; [| exact E'].
    assert (Hhalf : 2 * 2 ^ (a - b - 1) == 2 ^ (a - b)).
    { rewrite <- pow2_succ. now replace (a - b - 1 + 1)%Z with (a - b)%Z by lia. }
    pose proof (pow2_pos (a - b - 1)) as Ph.
    set (K := 2 ^ (a - b)) in *. set (H := 2 ^ (a - b - 1)) in *.
    apply (Qmult_le_r _ _ D HD). nra.
Qed.

Lemma Qlog2_mono (x y : Q) : 0 < x -> x <= y -> (Qlog2 x <= Qlog2 y)%Z.
Proof.
  intros Hx Hxy.
  destruct (Qlog2_spec x Hx) as [Hx1 _].
  destruct (Qlog2_spec y) as [_ Hy2]; [lra |].
  destruct (Z_le_gt_dec (Qlog2 x) (Qlog2 y)) as [H | H]; [exact H |].
  exfalso. assert (Hp : 2 ^ (Qlog2 y + 1) <= 2 ^ Qlog2 x) by (apply pow2_le; lia).
  lra.
Qed.

(** Rounding a positive number *)

Lemma ulp_exponent_mono (x y : Q) : 0 < x -> x <= y -> (ulp_exponent x <= ulp_exponent y)%Z.
Proof.
  intros Hx Hxy. pose proof (Qlog2_mono x y Hx Hxy). unfold ulp_exponent. lia.
Qed.

Lemma round_positive_nonneg (x : Q) : 0 < x -> 0 <= round_positive x.
Proof.
  intros Hx. unfold round_positive.
  pose proof (pow2_pos (ulp_exponent x)) as He.
  apply Qmult_le_0_compat; [| lra].
  change 0 with (inject_Z 0). rewrite <- Zle_Qle.
  apply round_half_even_ge. apply Qle_shift_div_l; [exact He |].
  change (inject_Z 0) with 0. lra.
Qed.

Lemma round_positive_mono (x y : Q) :
  0 < x -> x <= y -> round_positive x <= round_positive y.
Proof.
  intros Hx Hxy. assert (Hy : 0 < y) by lra.
  pose proof (ulp_exponent_mono x y Hx Hxy) as He.
  destruct (Qlog2_spec x Hx) as [_ Hx2]. destruct (Qlog2_spec y Hy) as [Hy1 _].
  unfold round_positive.
  pose proof (pow2_pos (ulp_exponent x)) as Px. pose proof (pow2_pos (ulp_exponent y)) as Py.
  destruct (Z.eq_dec (ulp_exponent x) (ulp_exponent y)) as [E | E].
  - rewrite <- E. apply Qmult_le_compat_r; [| lra].
    rewrite <- Zle_Qle. apply round_half_even_mono.
    unfold Qdiv. apply Qmult_le_compat_r; [exact Hxy |].
    apply Qlt_le_weak, Qinv_lt_0_compat, Px.
  - assert (Hey : ulp_exponent y = (Qlog2 y - 52)%Z) by (unfold ulp_exponent in *; lia).
    assert (Hex : (Qlog2 x + 1 <= ulp_exponent x + 53)%Z) by (unfold ulp_exponent; lia).
    apply Qle_trans with (2 ^ (ulp_exponent x + 53)).
    + rewrite pow2_plus, (Qmult_comm (2 ^ ulp_exponent x)).
      apply Qmult_le_compat_r; [| lra].
      rewrite <- (pow2_Z 53) by lia. rewrite <- Zle_Qle.
      apply round_half_even_le. rewrite (pow2_Z 53) by lia.
      apply Qle_shift_div_r; [exact Px |].
      rewrite Qmult_comm, <- pow2_plus.
      apply Qle_trans with (2 ^ (Qlog2 x + 1)); [lra | now apply pow2_le].
    + apply Qle_trans with (2 ^ (ulp_exponent y + 52)); [apply pow2_le; lia |].
      rewrite pow2_plus, (Qmult_comm (2 ^ ulp_exponent y)).
      apply Qmult_le_compat_r; [| lra].
      rewrite <- (pow2_Z 52) by lia. rewrite <- Zle_Qle.
      apply round_half_even_ge. rewrite (pow2_Z 52) by lia.
      apply Qle_shift_div_l; [exact Py |].
      rewrite Qmult_comm, <- pow2_plus.
      replace (ulp_exponent y + 52)%Z with (Qlog2 y) by lia. exact Hy1.
Qed.

(** A positive number whose last place holds it is rounded to itself. *)
Lemma round_positive_exact (x : Q) (n k : Z) :
  (0 < n < 2 ^ 53)%Z -> (0 <= k <= 1074)%Z ->
  x == inject_Z n / 2 ^ k ->
  round_positive x == x.
Proof.
  intros Hn Hk Hx.
  pose proof (pow2_pos k) as Pk.
  assert (Hpos : 0 < x).
  { rewrite Hx. apply Qlt_shift_div_l; [exact Pk |].
    rewrite Qmult_0_l. change 0 with (inject_Z 0). rewrite <- Zlt_Qlt. lia. }
  destruct (Qlog2_spec x Hpos) as [Hl _].
  assert (Hlog : (Qlog2 x <= 52 - k)%Z).
  { assert (Hlt : 2 ^ Qlog2 x < 2 ^ (53 - k)).
    { apply Qle_lt_trans with x; [exact Hl |].
      rewrite Hx. apply Qlt_shift_div_r; [exact Pk |].
      rewrite <- pow2_plus. replace (53 - k + k)%Z with 53%Z by lia.
      rewrite <- (pow2_Z 53) by lia. rewrite <- Zlt_Qlt. lia. }
    apply Qpower_lt_compat_l_inv in Hlt; [lia | reflexivity]. }
  unfold round_positive.
  assert (He : (ulp_exponent x <= - k)%Z) by (unfold ulp_exponent; lia).
  set (e := ulp_exponent x) in *.
  pose proof (pow2_pos e) as Pe.
  assert (Hsplit : 2 ^ (- k - e) * 2 ^ e * 2 ^ k == 1).
  { rewrite <- !pow2_plus. now replace (- k - e + e + k)%Z with 0%Z by lia. }
  assert (Ht : x / 2 ^ e == inject_Z (n * 2 ^ (- k - e))).
  { rewrite inject_Z_mult, (pow2_Z (- k - e)) by lia. rewrite Hx.
    pose proof (pow2_pos (- k - e)) as Pke.
    field_simplify_eq; [| split; lra].
    setoid_replace (inject_Z n * 2 ^ k * 2 ^ e * 2 ^ (- k - e))
      with (inject_Z n * (2 ^ (- k - e) * 2 ^ e * 2 ^ k)) by ring.
    rewrite Hsplit. ring. }
  rewrite (round_half_even_Z _ _ Ht). rewrite <- Ht. field. lra.
Qed.

(** The rounding of binary64 *)

Lemma is_power_of_two_spec (p : positive) :
  is_power_of_two p = true -> exists k, (0 <= k)%Z /\ Zpos p = (2 ^ k)%Z.
Proof.
  induction p as [p IH | p IH |]; cbn; intros H; [discriminate | |].
  - destruct (IH H) as [k [Hk Hp]]. exists (k + 1)%Z. split; [lia |].
    rewrite Z.pow_add_r by lia. rewrite Pos2Z.inj_xO, Hp. lia.
  - exists 0%Z. split; [lia | reflexivity].
Qed.

Lemma Qred_Qred (q : Q) : Qred (Qred q) = Qred q.
Proof. apply Qred_complete, Qred_correct. Qed.

Lemma binary64_round_proper (q r : Q) : q == r -> binary64_round q = binary64_round r.
Proof. intros H. unfold binary64_round. now rewrite (Qred_complete _ _ H). Qed.

Lemma fle_Qred (a b : Q) : a <= b -> fle (Finite (Qred a)) (Finite (Qred b)) = true.
Proof. intros H. cbn. apply Qle_bool_iff. now rewrite !Qred_correct. Qed.

Lemma binary64_round_monotone (q r : Q) :
  q <= r -> fle (binary64_round q) (binary64_round r) = true.
Proof.
  intros H. unfold binary64_round.
  assert (H' : Qred q <= Qred r) by now rewrite !Qred_correct.
  generalize dependent (Qred r). generalize dependent (Qred q). clear q r H.
  intros a b Hab. cbv zeta.
  destruct (Qcompare_spec a 0) as [Ha | Ha | Ha];
    destruct (Qcompare_spec b 0) as [Hb | Hb | Hb];
    try (exfalso; lra).
  - reflexivity.
  - pose proof (round_positive_nonneg b Hb) as Hv.
    destruct (Qle_bool (2 ^ 1024) (round_positive b)); [reflexivity |].
    change (Finite 0) with (Finite (Qred 0)). now apply fle_Qred.
  - assert (Hna : 0 < - a) by lra.
    pose proof (round_positive_nonneg (- a) Hna) as Hv.
    destruct (Qle_bool (2 ^ 1024) (round_positive (- a))); [reflexivity |].
    change (Finite 0) with (Finite (Qred 0)). apply fle_Qred. lra.
  - assert (Hna : 0 < - a) by lra. assert (Hnb : 0 < - b) by lra.
    assert (Hmono : round_positive (- b) <= round_positive (- a))
      by (apply round_positive_mono; lra).
    destruct (Qle_bool (2 ^ 1024) (round_positive (- a))) eqn:Ea;
      destruct (Qle_bool (2 ^ 1024) (round_positive (- b))) eqn:Eb; try reflexivity.
    + apply Qle_bool_iff in Eb.
      assert (Ea' : 2 ^ 1024 <= round_positive (- a)) by lra.
      apply Qle_bool_iff in Ea'. congruence.
    + apply fle_Qred. lra.
  - assert (Hna : 0 < - a) by lra.
    pose proof (round_positive_nonneg (- a) Hna) as Hva.
    pose proof (round_positive_nonneg b Hb) as Hvb.
    destruct (Qle_bool (2 ^ 1024) (round_positive (- a)));
      destruct (Qle_bool (2 ^ 1024) (round_positive b)); try reflexivity.
    apply fle_Qred. lra.
  - assert (Hmono : round_positive a <= round_positive b)
      by (apply round_positive_mono; lra).
    destruct (Qle_bool (2 ^ 1024) (round_positive a)) eqn:Ea;
      destruct (Qle_bool (2 ^ 1024) (round_positive b)) eqn:Eb; try reflexivity.
    + apply Qle_bool_iff in Ea.
      assert (Eb' : 2 ^ 1024 <= round_positive b) by lra.
      apply Qle_bool_iff in Eb'. congruence.
    + now apply fle_Qred.
Qed.

Lemma binary64_round_exact (q : Q) :
  small_dyadic q = true -> binary64_round q = Finite (Qred q).
Proof.
  intros H. unfold small_dyadic in H.
  apply andb_prop in H as [H H3]. apply andb_prop in H as [H1 H2].
  apply Z.ltb_lt in H1. apply Z.leb_le in H3.
  destruct (is_power_of_two_spec _ H2) as [k [Hk0 Hk]].
  assert (Hk53 : (k <= 53)%Z).
  { rewrite Hk in H3. apply Z.pow_le_mono_r_iff in H3; lia. }
  unfold binary64_round. cbv zeta.
  pose proof (Qred_Qred q) as Hrr.
  set (r := Qred q) in *.
  assert (Hr : r == inject_Z (Qnum r) / 2 ^ k).
  { destruct r as [n d]. cbn [Qnum Qden] in *. rewrite Qmake_Qdiv, Hk.
    now rewrite (pow2_Z k) by lia. }
  pose proof (pow2_pos k) as Pk.
  assert (Hbig : (2 ^ 53 < 2 ^ 1024)%Z) by (apply Z.pow_lt_mono_r; lia).
  assert (Hsmall : forall x n, (0 < n < 2 ^ 53)%Z -> x == inject_Z n / 2 ^ k ->
                               Qle_bool (2 ^ 1024) (round_positive x) = false).
  { intros x n Hn Hx.
    destruct (Qle_bool (2 ^ 1024) (round_positive x)) eqn:E; [| reflexivity].
    apply Qle_bool_iff in E. rewrite (round_positive_exact x n k) in E by (assumption || lia).
    exfalso. rewrite Hx in E.
    assert (Hle : inject_Z n / 2 ^ k <= inject_Z n).
    { apply Qle_shift_div_r; [exact Pk |].
      assert (H1k : 1 <= 2 ^ k) by (change 1 with (2 ^ 0); apply pow2_le; lia).
      assert (0 <= inject_Z n) by (change 0 with (inject_Z 0); rewrite <- Zle_Qle; lia).
      nra. }
    assert (Hn' : inject_Z n < 2 ^ 1024).
    { rewrite <- (pow2_Z 1024) by lia. rewrite <- Zlt_Qlt. lia. }
    lra. }
  destruct (Qcompare_spec r 0) as [Hz | Hneg | Hpos].
  - f_equal. rewrite <- Hrr. symmetry. change 0 with (Qred 0). now apply Qred_complete.
  - assert (Hn : (0 < - Qnum r < 2 ^ 53)%Z).
    { destruct r as [n d]. unfold Qlt in Hneg. cbn in *. lia. }
    assert (Hx : - r == inject_Z (- Qnum r) / 2 ^ k).
    { rewrite Hr at 1. rewrite inject_Z_opp. field. lra. }
    rewrite (Hsmall _ _ Hn Hx). f_equal. rewrite <- Hrr at 2. apply Qred_complete.
    rewrite (round_positive_exact (- r) (- Qnum r) k Hn) by (assumption || lia). ring.
  - assert (Hn : (0 < Qnum r < 2 ^ 53)%Z).
    { destruct r as [n d]. unfold Qlt in Hpos. cbn in *. lia. }
    rewrite (Hsmall _ _ Hn Hr). f_equal. rewrite <- Hrr at 2. apply Qred_complete.
    now rewrite (round_positive_exact r (Qnum r) k Hn) by (assumption || lia).
Qed.

Lemma binary64_round_IEEE : IEEE_rounding binary64_round.
Proof.
  constructor.
  - exact binary64_round_proper.
  - exact binary64_round_monotone.
  - exact binary64_round_exact.
Qed.

#[local] Close Scope Q_scope.

(** *** Arithmetic on samples *)

#[local] Opaque Qred Qplus Qminus Qmult Qopp Qinv Qle_bool Qeq_bool.

Lemma Qred_zero (q : Q) : (q == 0)%Q -> Qred q = 0%Q.
Proof. intros H. now rewrite (Qred_complete _ _ H). Qed.

Lemma Qred_one (q : Q) : (q == 1)%Q -> Qred q = 1%Q.
Proof. intros H. now rewrite (Qred_complete _ _ H). Qed.

Lemma Qeq_bool_false (q : Q) : ~ (q == 0)%Q -> Qeq_bool q 0 = false.
Proof.
  intros H. destruct (Qeq_bool q 0) eqn:E; [| reflexivity].
  apply Qeq_bool_iff in E. contradiction.
Qed.

Lemma Qle_bool_total_false (a b : Q) : Qle_bool a b = false -> Qle_bool b a = true.
Proof.
  intros H. apply Qle_bool_iff. destruct (Qlt_le_dec b a) as [Hlt | Hle].
  - now apply Qlt_le_weak.
  - apply Qle_bool_iff in Hle. congruence.
Qed.

Lemma Qle_bool_false_lt (x y : Q) : Qle_bool x y = false -> (y < x)%Q.
Proof.
  intros H. apply Qnot_le_lt. intros Hle. apply Qle_bool_iff in Hle. congruence.
Qed.

Lemma signed_inf_not_finite (pos : bool) (a : Q) : is_finite (signed_inf pos a) = false.
Proof.
  unfold signed_inf. destruct (Qeq_bool a 0); [reflexivity |].
  now destruct (Bool.eqb pos (Qlt_bool 0 a)).
Qed.

(** A quotient by zero is never finite, and neither is its product with
    any number, however the arithmetic rounds. *)
Lemma fdiv_zero_not_finite (rnd : Q -> float64) (x : float64) (z : Q) :
  (z == 0)%Q -> is_finite (fdiv rnd x (Finite z)) = false.
Proof.
  intros Hz. apply Qeq_bool_iff in Hz.
  destruct x as [a | | |]; cbn; rewrite ?Hz; try reflexivity.
  - apply signed_inf_not_finite.
  - unfold Qlt_bool. apply Qeq_bool_iff in Hz.
    assert (H : Qle_bool 0 z = true) by (apply Qle_bool_iff; rewrite Hz; apply Qle_refl).
    now rewrite H.
  - unfold Qlt_bool. apply Qeq_bool_iff in Hz.
    assert (H : Qle_bool 0 z = true) by (apply Qle_bool_iff; rewrite Hz; apply Qle_refl).
    now rewrite H.
Qed.

Lemma fmul_not_finite (rnd : Q -> float64) (x y : float64) :
  is_finite x = false -> is_finite (fmul rnd x y) = false.
Proof.
  destruct x as [a | | |]; [discriminate | | |]; intros _;
    destruct y as [b | | |]; cbn; try reflexivity; apply signed_inf_not_finite.
Qed.

Lemma percent_change_of_zero (rnd : Q -> float64) (filtered : float64) (z : Q) :
  (z == 0)%Q ->
  is_finite (fmul rnd (fdiv rnd (fsub rnd filtered (Finite z)) (Finite z)) (Finite 100))
  = false.
Proof.
  intros Hz. apply fmul_not_finite. now apply fdiv_zero_not_finite.
Qed.

(** *** Order of samples *)

Lemma Fle_finite (a b : Q) : Fle (Finite a) (Finite b) <-> (a <= b)%Q.
Proof. unfold Fle. cbn. apply Qle_bool_iff. Qed.

(** A value between two finite values is finite. *)
Lemma fle_between (l h : Q) (y : float64) :
  fle (Finite l) y = true -> fle y (Finite h) = true ->
  exists x, y = Finite x /\ (l <= x)%Q /\ (x <= h)%Q.
Proof.
  destruct y as [x | | |]; cbn; try discriminate.
  intros Hl Hh. apply Qle_bool_iff in Hl, Hh. now exists x.
Qed.

(** *** Clipping *)

Lemma clipQ_range (v a b : Q) : (a <= b)%Q -> (a <= clipQ v a b)%Q /\ (clipQ v a b <= b)%Q.
Proof.
  intros Hab. unfold clipQ.
  destruct (Qle_bool v a) eqn:E1; [split; lra |].
  apply Qle_bool_false_lt in E1.
  destruct (Qle_bool b v) eqn:E2; [split; lra |].
  apply Qle_bool_false_lt in E2. split; lra.
Qed.

Lemma clipQ_mono (v w a b : Q) :
  (a <= b)%Q -> (v <= w)%Q -> (clipQ v a b <= clipQ w a b)%Q.
Proof.
  intros Hab Hvw. unfold clipQ.
  destruct (Qle_bool v a) eqn:V1; [apply Qle_bool_iff in V1 | apply Qle_bool_false_lt in V1];
    (destruct (Qle_bool w a) eqn:W1;
     [apply Qle_bool_iff in W1 | apply Qle_bool_false_lt in W1]);
    try lra;
    (destruct (Qle_bool b w) eqn:W2;
     [apply Qle_bool_iff in W2 | apply Qle_bool_false_lt in W2]);
    try lra;
    (destruct (Qle_bool b v) eqn:V2;
     [apply Qle_bool_iff in V2 | apply Qle_bool_false_lt in V2]);
    lra.
Qed.

(** The value of a finite sample after clipping to [[a, b]]. *)
Lemma clip_value (v a b : Q) :
  (a < b)%Q ->
  fminimum (Finite b) (fmaximum (Finite v) (Finite a)) = Finite (clipQ v a b).
Proof.
  intros Hab. unfold clipQ. cbn.
  destruct (Qle_bool v a) eqn:Hva; cbn.
  - destruct (Qle_bool b a) eqn:Hba; [| reflexivity].
    apply Qle_bool_iff in Hba. lra.
  - now destruct (Qle_bool b v).
Qed.

(** *** Rounding *)

Section Rounding.
Variable rnd : Q -> float64.
Hypothesis ieee : IEEE_rounding rnd.

Lemma round_zero (q : Q) : (q == 0)%Q -> rnd q = Finite 0.
Proof.
  intros H. rewrite (round_proper rnd ieee q 0 H).
  now rewrite (round_exact rnd ieee 0 eq_refl).
Qed.

Lemma round_one (q : Q) : (q == 1)%Q -> rnd q = Finite 1.
Proof.
  intros H. rewrite (round_proper rnd ieee q 1 H).
  now rewrite (round_exact rnd ieee 1 eq_refl).
Qed.

Lemma round_nonnegative (q : Q) : (0 <= q)%Q -> fle (Finite 0) (rnd q) = true.
Proof.
  intros H. rewrite <- (round_zero 0 (Qeq_refl 0)).
  now apply (round_monotone rnd ieee).
Qed.

Lemma round_at_most_one (q : Q) : (q <= 1)%Q -> fle (rnd q) (Finite 1) = true.
Proof.
  intros H. rewrite <- (round_one 1 (Qeq_refl 1)).
  now apply (round_monotone rnd ieee).
Qed.

(** The difference of a finite value and itself is zero. *)
Lemma fsub_diag (p : Q) : fsub rnd (Finite p) (Finite p) = Finite 0.
Proof. cbn. apply round_zero. ring. Qed.

(** With equal bounds, clipping and rescaling a sample gives [0 / 0]. *)
Lemma rescale_degenerate (x : float64) (p : Q) :
  fdiv rnd (fsub rnd (fminimum (Finite p) (fmaximum x (Finite p))) (Finite p))
       (fsub rnd (Finite p) (Finite p)) = NaN.
Proof.
  rewrite fsub_diag.
  assert (Hpp : Qle_bool p p = true) by (apply Qle_bool_iff, Qle_refl).
  assert (Hclip : fminimum (Finite p) (fmaximum x (Finite p)) = Finite p
                  \/ fminimum (Finite p) (fmaximum x (Finite p)) = NaN).
  { destruct x as [v | | |]; cbn; rewrite ?Hpp; auto.
    destruct (Qle_bool v p) eqn:E1; cbn; rewrite ?Hpp; auto.
    rewrite (Qle_bool_total_false v p E1). auto. }
  destruct Hclip as [-> | ->]; [| reflexivity].
  rewrite fsub_diag. reflexivity.
Qed.

(** The numerator of the rescaling lies between zero and the
    denominator. *)
Lemma rescale_numerator (v a b d : Q) :
  (a < b)%Q -> rnd (b - a) = Finite d ->
  exists x, rnd (clipQ v a b - a) = Finite x /\ (0 <= x)%Q /\ (x <= d)%Q.
Proof.
  intros Hab Hd.
  destruct (clipQ_range v a b) as [Hl Hh]; [lra |].
  apply fle_between.
  - apply round_nonnegative. lra.
  - rewrite <- Hd. apply (round_monotone rnd ieee). lra.
Qed.

Lemma difference_positive (a b d : Q) :
  (a < b)%Q -> rnd (b - a) = Finite d -> ~ (d == 0)%Q -> (0 < d)%Q.
Proof.
  intros Hab Hd Hnz.
  assert (H : fle (Finite 0) (rnd (b - a)) = true) by (apply round_nonnegative; lra).
  rewrite Hd in H. cbn in H. apply Qle_bool_iff in H.
  apply Qnot_le_lt. intros Hle. apply Hnz. lra.
Qed.

Lemma rescale_quotient (x d : Q) :
  (0 <= x)%Q -> (x <= d)%Q -> (0 < d)%Q ->
  exists q, fdiv rnd (Finite x) (Finite d) = Finite q /\ (0 <= q)%Q /\ (q <= 1)%Q.
Proof.
  intros H0 Hx Hd. cbn. rewrite Qeq_bool_false by (intros E; lra).
  apply fle_between.
  - apply round_nonnegative. apply Qle_shift_div_l; [assumption | lra].
  - apply round_at_most_one. apply Qle_shift_div_r; [assumption | lra].
Qed.

Lemma rescale_quotient_zero (d : Q) :
  ~ (d == 0)%Q -> fdiv rnd (Finite 0) (Finite d) = Finite 0.
Proof.
  intros Hd. cbn. rewrite (Qeq_bool_false d Hd). apply round_zero.
  unfold Qdiv. ring.
Qed.

Lemma rescale_quotient_one (d : Q) :
  ~ (d == 0)%Q -> fdiv rnd (Finite d) (Finite d) = Finite 1.
Proof.
  intros Hd. cbn. rewrite (Qeq_bool_false d Hd). apply round_one.
  now field.
Qed.

Lemma rescale_quotient_mono (x y d : Q) :
  (x <= y)%Q -> (0 < d)%Q ->
  fle (fdiv rnd (Finite x) (Finite d)) (fdiv rnd (Finite y) (Finite d)) = true.
Proof.
  intros Hxy Hd. cbn. rewrite Qeq_bool_false by (intros E; lra).
  apply (round_monotone rnd ieee). unfold Qdiv.
  apply Qmult_le_compat_r; [assumption |].
  apply Qlt_le_weak, Qinv_lt_0_compat, Hd.
Qed.


End Rounding.

(** *** Degenerate statistics *)

Lemma np_percentile_in_range (np : Numeric) (image : ndarray) (q : Q) :
  Qle_bool 0 q && Qle_bool q 100 = true ->
  np_percentile np image q
  = ([], Returned (percentile_linear (float_round np) (data image) q)).
Proof. unfold np_percentile. now intros ->. Qed.

Lemma apply_contrast_enhancement_in_range (np : Numeric) (image : ndarray) (pl ph : Q) :
  Qle_bool 0 pl && Qle_bool pl 100 = true ->
  Qle_bool 0 ph && Qle_bool ph 100 = true ->
  apply_contrast_enhancement np image pl ph =
  ([Print (LEnhancing pl ph)],
   Returned
     (arr_map (fun x => fdiv (float_round np)
                             (fsub (float_round np) x
                                   (percentile_linear (float_round np) (data image) pl))
                             (fsub (float_round np)
                                   (percentile_linear (float_round np) (data image) ph)
                                   (percentile_linear (float_round np) (data image) pl)))
              (np_clip image (percentile_linear (float_round np) (data image) pl)
                       (percentile_linear (float_round np) (data image) ph)))).
Proof.
  intros Hl Hh. unfold apply_contrast_enhancement.
  rewrite (np_percentile_in_range np image pl Hl), (np_percentile_in_range np image ph Hh).
  reflexivity.
Qed.

Lemma display_filter_comparison_reports (np : Numeric) (original_stats filtered_stats : Stats)
      (filter_name : string) :
  In (Print (LMeanChange (mean_change np original_stats filtered_stats)))
     (events (display_filter_comparison np original_stats filtered_stats filter_name))
  /\ In (Print (LStdChange (std_change np original_stats filtered_stats)))
        (events (display_filter_comparison np original_stats filtered_stats filter_name)).
Proof. split; cbn; tauto. Qed.

(** The claim of C4 fails: on a constant image the two percentile values
    are equal and every value of the enhanced image is [NaN]; against a
    baseline of mean and standard deviation zero the reported percent
    changes are infinite, or [NaN] when the filtered statistic is zero
    too. *)
Lemma degenerate_statistics_unguarded :
  result (apply_contrast_enhancement Samples.constant_array_numeric
                                     Samples.constant_image 2 98)
  = Returned {| shape := (2, 2); data := [NaN; NaN; NaN; NaN] |}
  /\ In (Print (LMeanChange PosInf))
        (events (display_filter_comparison
                   Samples.constant_array_numeric
                   (stats_of (Finite 0) (Finite 0)) (stats_of (Finite 3) (Finite 1))
                   "Edge Detection"))
  /\ In (Print (LStdChange PosInf))
        (events (display_filter_comparison
                   Samples.constant_array_numeric
                   (stats_of (Finite 0) (Finite 0)) (stats_of (Finite 3) (Finite 1))
                   "Edge Detection"))
  /\ In (Print (LMeanChange NaN))
        (events (display_filter_comparison
                   Samples.constant_array_numeric
                   (stats_of (Finite 0) (Finite 0)) (stats_of (Finite 0) (Finite 0))
                   "Gaussian Blur")).
Proof.
  split; [vm_compute; reflexivity |].
  split; [| split].
  - apply (display_filter_comparison_reports
             Samples.constant_array_numeric
             (stats_of (Finite 0) (Finite 0)) (stats_of (Finite 3) (Finite 1))).
  - apply (display_filter_comparison_reports
             Samples.constant_array_numeric
             (stats_of (Finite 0) (Finite 0)) (stats_of (Finite 3) (Finite 1))).
  - apply (display_filter_comparison_reports
             Samples.constant_array_numeric
             (stats_of (Finite 0) (Finite 0)) (stats_of (Finite 0) (Finite 0))).
Qed.

(** C4, amended.  Degenerate statistics are not guarded.  Contrast
    enhancement divides by the difference of the two percentile values
    whatever it is: when they are equal, every value of its output is
    [NaN].  The percent changes divide by the baseline mean and standard
    deviation whatever they are, and are reported as computed: a baseline
    mean (or standard deviation) of zero gives a change that is infinite
    or [NaN]. *)
Theorem degenerate_statistics_propagate :
  (forall (np : Numeric) (image : ndarray) (percentile_low percentile_high p : Q),
      IEEE_rounding (float_round np) ->
      Qle_bool 0 percentile_low && Qle_bool percentile_low 100 = true ->
      Qle_bool 0 percentile_high && Qle_bool percentile_high 100 = true ->
      percentile_linear (float_round np) (data image) percentile_low = Finite p ->
      percentile_linear (float_round np) (data image) percentile_high = Finite p ->
      exists enhanced,
        result (apply_contrast_enhancement np image percentile_low percentile_high)
        = Returned enhanced
        /\ List.length (data enhanced) = List.length (data image)
        /\ forall v, In v (data enhanced) -> v = NaN)
  /\ (forall (np : Numeric) (original_stats filtered_stats : Stats) (filter_name : string),
         In (Print (LMeanChange (mean_change np original_stats filtered_stats)))
            (events (display_filter_comparison np original_stats filtered_stats
                                               filter_name))
         /\ In (Print (LStdChange (std_change np original_stats filtered_stats)))
               (events (display_filter_comparison np original_stats filtered_stats
                                                  filter_name)))
  /\ (forall (np : Numeric) (original_stats filtered_stats : Stats) (z : Q),
         st_mean original_stats = Finite z -> (z == 0)%Q ->
         is_finite (mean_change np original_stats filtered_stats) = false)
  /\ (forall (np : Numeric) (original_stats filtered_stats : Stats) (z : Q),
         st_std original_stats = Finite z -> (z == 0)%Q ->
         is_finite (std_change np original_stats filtered_stats) = false).
Proof.
  split; [| split; [| split]].
  - intros np image pl ph p Hieee Hl Hh Hpl Hph.
    rewrite (apply_contrast_enhancement_in_range np image pl ph Hl Hh), Hpl, Hph.
    eexists. split; [reflexivity |]. split.
    + cbn. now rewrite !length_map.
    + intros v Hv. cbn in Hv. rewrite map_map in Hv.
      apply in_map_iff in Hv as [x [<- _]]. now apply rescale_degenerate.
  - intros. apply display_filter_comparison_reports.
  - intros np o f z Hm Hz. unfold mean_change. rewrite Hm.
    now apply percent_change_of_zero.
  - intros np o f z Hs Hz. unfold std_change. rewrite Hs.
    now apply percent_change_of_zero.
Qed.

Lemma degenerate_statistics_propagate_witness :
  (exists enhanced,
      result (apply_contrast_enhancement Samples.constant_array_numeric
                                         Samples.constant_image 2 98) = Returned enhanced
      /\ List.length (data enhanced) = 4
      /\ forall v, In v (data enhanced) -> v = NaN)
  /\ is_finite (mean_change Samples.constant_array_numeric
                            (stats_of (Finite 0) (Finite 0))
                            (stats_of (Finite 3) (Finite 1))) = false
  /\ is_finite (std_change Samples.constant_array_numeric
                           (stats_of (Finite 0) (Finite 0))
                           (stats_of (Finite 3) (Finite 1))) = false.
Proof.
  destruct degenerate_statistics_propagate as [HA [_ [HB HC]]].
  split; [| split].
  - apply (HA Samples.constant_array_numeric Samples.constant_image 2%Q 98%Q 5%Q);
      [exact binary64_round_IEEE | reflexivity | reflexivity
       | vm_compute; reflexivity | vm_compute; reflexivity].
  - exact (HB Samples.constant_array_numeric
              (stats_of (Finite 0) (Finite 0)) (stats_of (Finite 3) (Finite 1)) 0%Q
              eq_refl (Qeq_refl 0)).
  - exact (HC Samples.constant_array_numeric
              (stats_of (Finite 0) (Finite 0)) (stats_of (Finite 3) (Finite 1)) 0%Q
              eq_refl (Qeq_refl 0)).
Defined.

(** *** The pipeline *)

(** C6.  Each of the three filters is applied to the pixel data that was
    loaded, not to the output of the filter before it; the statistics
    reported for it are those of its own output, shown against the
    statistics of the loaded image, and both percent changes are taken
    relative to the latter.  The comparisons are reported in the order
    Gaussian blur, edge detection, contrast enhancement. *)
Theorem filters_apply_to_baseline
        (np : Numeric) (env : Env) (dicom_path : Path) (gaussian_sigma edge_sigma : Q)
        (ds : Dataset) (pixel_data : ndarray) (r c : pyval) :
  pydicom_installed env = true ->
  scipy_installed env = true ->
  dcmread env dicom_path = inr ds ->
  pixel_array ds = inr pixel_data ->
  Rows ds = Some r ->
  Columns ds = Some c ->
  exists gaussian_filtered edge_filtered contrast_enhanced,
    result (apply_gaussian_filter np env pixel_data gaussian_sigma)
    = Returned gaussian_filtered
    /\ result (apply_edge_detection np env pixel_data edge_sigma)
       = Returned edge_filtered
    /\ result (apply_contrast_enhancement np pixel_data 2 98)
       = Returned contrast_enhanced
    /\ result (process_with_filters np env dicom_path gaussian_sigma edge_sigma true)
       = Returned tt
    /\ report_lines
         (events (process_with_filters np env dicom_path gaussian_sigma edge_sigma true))
       = comparison_report np "Gaussian Blur" pixel_data gaussian_filtered
         ++ comparison_report np "Edge Detection" pixel_data edge_filtered
         ++ comparison_report np "Contrast Enhancement" pixel_data contrast_enhanced.
Proof.
  intros Hp Hs Hd Hpx Hr Hc.
  unfold process_with_filters, load_dicom_pixel_data, apply_gaussian_filter,
    apply_edge_detection, import_scipy.
  rewrite Hp, Hs, Hd. cbn -[apply_contrast_enhancement].
  rewrite Hpx. cbn -[apply_contrast_enhancement].
  rewrite Hr. cbn -[apply_contrast_enhancement].
  rewrite Hc. cbn -[apply_contrast_enhancement].
  rewrite (apply_contrast_enhancement_in_range np pixel_data 2 98 eq_refl eq_refl).
  do 3 eexists. repeat split; try reflexivity;
    destruct (PixelSpacing ds) as [[| a [| b [| x l]]] |]; reflexivity.
Qed.

Lemma filters_apply_to_baseline_witness :
  exists gaussian_filtered edge_filtered contrast_enhanced,
    result (apply_gaussian_filter Samples.constant_array_numeric Samples.filter_env
                                  Samples.constant_image 2)
    = Returned gaussian_filtered
    /\ result (apply_edge_detection Samples.constant_array_numeric Samples.filter_env
                                    Samples.constant_image 1)
       = Returned edge_filtered
    /\ result (apply_contrast_enhancement Samples.constant_array_numeric
                                          Samples.constant_image 2 98)
       = Returned contrast_enhanced
    /\ result (process_with_filters Samples.constant_array_numeric Samples.filter_env
                                    ["data"; "a.dcm"] 2 1 true)
       = Returned tt
    /\ report_lines
         (events (process_with_filters Samples.constant_array_numeric Samples.filter_env
                                       ["data"; "a.dcm"] 2 1 true))
       = comparison_report Samples.constant_array_numeric "Gaussian Blur"
                           Samples.constant_image gaussian_filtered
         ++ comparison_report Samples.constant_array_numeric "Edge Detection"
                              Samples.constant_image edge_filtered
         ++ comparison_report Samples.constant_array_numeric "Contrast Enhancement"
                              Samples.constant_image contrast_enhanced.
Proof.
  exact (filters_apply_to_baseline
           Samples.constant_array_numeric Samples.filter_env ["data"; "a.dcm"] 2 1
           _ Samples.constant_image (VInt 2) (VInt 2)
           eq_refl eq_refl eq_refl eq_refl eq_refl eq_refl).
Defined.

(** *** The range of contrast enhancement *)




End FilterFacts.

(** ** Further properties of the batch script *)

Module BatchExtra.
Import Py BatchProcessing BatchSpec BatchMain ExtraSpec BatchFacts.

(** *** File discovery *)




(** The paths found come out ordered by [Path] comparison; they are
    exactly the paths of the entries below the root that are a regular
    file without suffix other than the marker, or an entry of any kind
    whose name ends in one of the four extensions; and each of them
    extends the root by at least one component. *)
Theorem find_dicom_files_characterised (directory : Path) (tree : list entry) :
  Sorted Path_le (find_dicom_files directory tree)
  /\ (forall p,
         In p (find_dicom_files directory tree) <->
         exists it, In it (flat_map (walk directory) tree)
                    /\ fst it = p /\ is_candidate it = true)
  /\ (forall p,
         In p (find_dicom_files directory tree) ->
         exists rest, rest <> [] /\ p = directory ++ rest).
Proof. exact (find_dicom_files_spec directory tree). Qed.



(** The marker file [.DS_Store] is never among the paths found, whatever
    the tree holds. *)
Theorem find_dicom_files_skips_marker (directory : Path) (tree : list entry) :
  Forall (fun p => name p <> ".DS_Store") (find_dicom_files directory tree).
Proof.
  apply Forall_forall. intros p Hp Hname.
  destruct (find_dicom_files_spec directory tree) as [_ [Hin _]].
  apply Hin in Hp as [it [_ [<- Hc]]].
  unfold is_candidate in Hc. rewrite Hname in Hc.
  apply orb_prop in Hc as [Hc | Hc].
  - vm_compute in Hc. discriminate.
  - rewrite String.eqb_refl, andb_false_r in Hc. discriminate.
Qed.

(** *** Extraction and the loop *)

Lemma decoder_calls_app (t t' : list event) :
  decoder_calls (t ++ t') = decoder_calls t ++ decoder_calls t'.
Proof. apply flat_map_app. Qed.

Lemma process_single_image_calls (env : Env) (p : Path) :
  decoder_calls (events (process_single_image env p)) =
  if pydicom_installed env then [(p, true)] else [].
Proof.
  unfold process_single_image, call_dcmread.
  destruct (pydicom_installed env); [| reflexivity].
  now destruct (dcmread env p true) as [[cls msg] | ds].
Qed.

Lemma main_loop_calls (env : Env) (total idx : nat) (files : list Path)
        (results : list Result) :
  decoder_calls (events (main_loop env total idx files results)) =
  if pydicom_installed env then map (fun f => (f, true)) files else [].
Proof.
  destruct (main_loop_spec env total files idx results) as [outs [-> _]].
  cbn [events fst]. generalize idx. clear.
  induction files as [| f files IH]; intros idx.
  - now destruct (pydicom_installed env).
  - cbn [List.length seq combine flat_map map]. rewrite decoder_calls_app, IH.
    unfold iteration_events. cbn [fst snd]. rewrite decoder_calls_app.
    rewrite process_single_image_calls.
    now destruct (pydicom_installed env).
Qed.

(** The batch loop asks the decoder for each file exactly once, in the
    order of the files, and always with [stop_before_pixels=True]; when
    [pydicom] cannot be imported the decoder is never called. *)
Theorem main_loop_decoder_calls (env : Env) (total idx : nat) (files : list Path)
        (results : list Result) :
  decoder_calls (events (main_loop env total idx files results)) =
  if pydicom_installed env then map (fun f => (f, true)) files else [].
Proof. exact (main_loop_calls env total idx files results). Qed.

(** [display_progress] never divides by zero: with no file in total it
    reports 0 percent.  For the [current]-th of [total] files the
    percentage lies in (0, 100], and it is exactly 100 at the last file. *)
Theorem display_progress_percentage (current total : nat) (filename : string) :
  exists percentage,
    display_progress current total filename =
    ([Print (LProgress current total percentage filename)], Returned tt)
    /\ (total = 0 -> percentage = 0%Q)
    /\ (0 < current <= total -> (0 < percentage)%Q /\ (percentage <= 100)%Q)
    /\ (0 < current -> current = total -> percentage = 100%Q).
Proof.
  unfold display_progress. eexists. split; [reflexivity |].
  split; [now intros -> |]. split.
  - intros [Hc Ht].
    assert (Hpos : 0 < total) by lia. apply Nat.ltb_lt in Hpos. rewrite Hpos.
    unfold percent_of. rewrite Qred_correct.
    assert (Hc' : (0 < inject_Z (Z.of_nat current))%Q).
    { change 0%Q with (inject_Z 0). rewrite <- Zlt_Qlt. lia. }
    assert (Ht' : (inject_Z (Z.of_nat current) <= inject_Z (Z.of_nat total))%Q).
    { rewrite <- Zle_Qle. lia. }
    set (c := inject_Z (Z.of_nat current)) in *.
    set (t := inject_Z (Z.of_nat total)) in *.
    assert (Htpos : (0 < t)%Q) by lra.
    assert (Hq0 : (0 < c / t)%Q) by (apply Qlt_shift_div_l; lra).
    assert (Hq1 : (c / t <= 1)%Q) by (apply Qle_shift_div_r; lra).
    split; lra.
  - intros Hc <-.
    assert (Hpos : 0 < current) by lia. apply Nat.ltb_lt in Hpos. rewrite Hpos.
    unfold percent_of.
    assert (Hc' : (0 < inject_Z (Z.of_nat current))%Q).
    { change 0%Q with (inject_Z 0). rewrite <- Zlt_Qlt. lia. }
    set (c := inject_Z (Z.of_nat current)) in *.
    assert (E : (c / c * 100 == 100)%Q) by (field; lra).
    now rewrite (Qred_complete _ _ E).
Qed.

Lemma display_progress_percentage_witness :
  exists percentage,
    display_progress 3 3 "c.dcm" =
    ([Print (LProgress 3 3 percentage "c.dcm")], Returned tt)
    /\ percentage = 100%Q.
Proof.
  destruct (display_progress_percentage 3 3 "c.dcm") as [pct [Heq [_ [_ Hlast]]]].
  exists pct. split; [exact Heq |]. apply Hlast; [lia | reflexivity].
Defined.

(** *** Grouping *)

Lemma group_by_study_snoc (results : list pydict) (r : pydict) :
  group_by_study (results ++ [r]) = group_step (group_by_study results) r.
Proof. unfold group_by_study. now rewrite fold_left_app. Qed.

Lemma studies_append_concat (k : pyval) (r : pydict) (studies : Studies) :
  In k (map fst studies) ->
  Permutation (List.concat (map snd (studies_append k r studies)))
              (r :: List.concat (map snd studies)).
Proof.
  induction studies as [| [k' images] rest IH]; intros Hk; [contradiction |].
  cbn [studies_append]. destruct (pyval_eqb k' k) eqn:E; cbn [map snd List.concat].
  - rewrite <- app_assoc. cbn [app].
    symmetry. apply Permutation_middle.
  - destruct Hk as [Hk | Hk].
    + cbn in Hk. subst. now rewrite pyval_eqb_refl in E.
    + rewrite (IH Hk). symmetry. apply Permutation_middle.
Qed.

Lemma groups_nonempty (results : list pydict) :
  Forall (fun kv => snd kv <> []) (group_by_study results).
Proof.
  rewrite group_by_study_groups_of. apply Forall_forall.
  intros [k g] Hin. apply groups_of_In in Hin as [Hk ->]. cbn [snd].
  rewrite first_occurrences_In, study_ids_In in Hk.
  destruct Hk as [r [Hr Hk]]. intros Hnil.
  assert (Hin : In r (filter (has_study k) results)).
  { apply filter_In. split; [assumption |].
    rewrite (has_study_Some _ _ _ Hk). apply pyval_eqb_refl. }
  now rewrite Hnil in Hin.
Qed.

(** Grouping loses and repeats nothing: no group is empty, and the groups
    taken together hold exactly the records that carry ['study_uid'], each
    as often as it occurs in the input. *)
Theorem groups_cover_records (results : list pydict) :
  Forall (fun kv => snd kv <> []) (group_by_study results)
  /\ Permutation (List.concat (map snd (group_by_study results)))
                 (filter (dict_in "study_uid") results).
Proof.
  split; [apply groups_nonempty |].
  induction results as [| r results IH] using rev_ind; [reflexivity |].
  rewrite group_by_study_snoc, filter_app. cbn [filter].
  unfold group_step, dict_in.
  destruct (dict_get r "study_uid") as [k |].
  - transitivity (r :: List.concat (map snd (group_by_study results))).
    + destruct (studies_mem k (group_by_study results)) eqn:Hmem; cbn [negb].
      * apply studies_append_concat. now apply studies_mem_In.
      * rewrite studies_append_concat.
        -- rewrite map_app, concat_app. cbn. now rewrite !app_nil_r.
        -- rewrite map_app. apply in_or_app. right. now left.
    + rewrite IH. apply Permutation_cons_append.
  - now rewrite app_nil_r.
Qed.

(** *** The summary *)

Lemma flat_map_bind {A B X} (f : event -> list X) (m : M event A) (k : A -> M event B) :
  flat_map f (events (bind m k)) =
  flat_map f (events m) ++ match result m with
                           | Returned a => flat_map f (events (k a))
                           | Raised _ => []
                           end.
Proof. rewrite bind_events, flat_map_app. now destruct (result m). Qed.

Lemma display_study_result (k : pyval) (first : pydict) (rest : list pydict) :
  if is_text k
  then result (display_study (k, first :: rest)) = Returned tt
  else exists msg, result (display_study (k, first :: rest)) = Raised (Exn TypeError msg).
Proof. destruct k; cbn; eauto. Qed.

Lemma for_each_display_study_result (studies : Studies) :
  Forall (fun kv => snd kv <> []) studies ->
  if forallb (fun kv => is_text (fst kv)) studies
  then result (for_each studies display_study) = Returned tt
  else exists msg, result (for_each studies display_study) = Raised (Exn TypeError msg).
Proof.
  induction 1 as [| [k images] rest Hne _ IH]; [reflexivity |].
  cbn [snd] in Hne. destruct images as [| first more]; [contradiction |].
  cbn [for_each forallb fst]. rewrite bind_result.
  pose proof (display_study_result k first more) as Hk.
  destruct (is_text k); cbn [andb].
  - rewrite Hk. exact IH.
  - destruct Hk as [msg ->]. now exists msg.
Qed.

Lemma forallb_ext_In {A} (f : A -> bool) (l l' : list A) :
  (forall x, In x l <-> In x l') -> forallb f l = forallb f l'.
Proof.
  intros H. destruct (forallb f l') eqn:E.
  - rewrite forallb_forall in *. intros x Hx. apply E. now apply H.
  - destruct (forallb f l) eqn:E'; [| reflexivity].
    rewrite <- E. symmetry. rewrite forallb_forall in *.
    intros x Hx. apply E'. now apply H.
Qed.

Lemma group_keys_text (results : list pydict) :
  forallb (fun kv => is_text (fst kv)) (group_by_study results) =
  forallb is_text (study_ids results).
Proof.
  rewrite <- (forallb_ext_In is_text (map fst (group_by_study results))).
  - induction (group_by_study results) as [| kv l IH]; [reflexivity |].
    cbn. now rewrite IH.
  - intros k. rewrite group_by_study_groups_of, groups_of_keys.
    apply first_occurrences_In.
Qed.

Lemma collect_errors_outcome (results : list Result) :
  result (collect_errors results) =
  if forallb names_file results
  then Returned (failures results)
  else Raised (Exn KeyError "'filename'").
Proof.
  induction results as [| [[|] r] rest IH]; [reflexivity | exact IH |].
  cbn [collect_errors forallb]. unfold names_file at 1, dict_in. cbn [fst snd orb].
  unfold failures. cbn [flat_map fst snd]. unfold dict_get_default.
  destruct (dict_get r "filename") as [f |]; [| reflexivity].
  rewrite bind_result, IH. cbn [andb].
  now destruct (forallb names_file rest).
Qed.

Lemma display_summary_ends (results : list Result) (total_files : Z) :
  (if Z.eqb total_files 0
   then result (display_summary results total_files)
        = Raised (Exn ZeroDivisionError "division by zero")
   else if forallb is_text (study_ids (successes results))
   then result (display_summary results total_files)
        = (if forallb names_file results
           then Returned tt
           else Raised (Exn KeyError "'filename'"))
   else exists msg,
       result (display_summary results total_files) = Raised (Exn TypeError msg))
  /\ error_lines (events (display_summary results total_files)) =
     match result (display_summary results total_files) with
     | Returned _ => firstn 10 (failures results)
     | Raised _ => []
     end.
Proof.
  unfold display_summary, successes.
  repeat summary_step.
  unfold percentage_or_raise.
  destruct (Z.eqb total_files 0) eqn:Hz; [split; reflexivity |].
  repeat summary_step.
  pose proof (groups_nonempty (map snd (filter fst results))) as Hne.
  pose proof (group_keys_text (map snd (filter fst results))) as Hkeys.
  remember (group_by_study (map snd (filter fst results))) as studies eqn:Hstudies.
  pose proof (for_each_display_study_result studies Hne) as HSr.
  pose proof (for_each_display_study_lines studies) as [HSe _].
  pose proof (collect_errors_events results) as HCe.
  pose proof (collect_errors_outcome results) as HCr.
  destruct (display_errors_spec (failures results)) as [HDr [HDe _]].
  rewrite <- Hkeys.
  destruct studies as [| item rest].
  - cbn [forallb negb]. repeat summary_step. rewrite HCe, HCr.
    destruct (forallb names_file results); cbn [negb]; repeat summary_step;
      rewrite ?HDr, ?HDe; cbn [error_lines flat_map app]; rewrite ?app_nil_r;
      split; reflexivity.
  - repeat summary_step. rewrite HSe.
    destruct (forallb (fun kv => is_text (fst kv)) (item :: rest));
      [| destruct HSr as [msg HSr]; rewrite HSr; split; [now exists msg | reflexivity]].
    rewrite HSr. repeat summary_step. rewrite HCe, HCr.
    destruct (forallb names_file results); cbn [negb]; repeat summary_step;
      rewrite ?HDr, ?HDe; cbn [error_lines flat_map app]; rewrite ?app_nil_r;
      split; reflexivity.
Qed.

(** How [display_summary] ends.  With a total of zero it raises
    [ZeroDivisionError], and with no other total.  With a non-zero total
    and records whose study identifiers are all text, it returns, unless
    a failure does not carry ['filename'] (as the failure for a missing
    [pydicom] does): then it raises [KeyError].  It never raises
    [IndexError], and when it raises, no failure at all has been
    detailed. *)
Theorem display_summary_outcome (results : list Result) (total_files : Z) :
  (total_files = 0%Z ->
   result (display_summary results total_files)
   = Raised (Exn ZeroDivisionError "division by zero"))
  /\ (total_files <> 0%Z ->
      forallb is_text (study_ids (successes results)) = true ->
      result (display_summary results total_files)
      = if forallb names_file results
        then Returned tt
        else Raised (Exn KeyError "'filename'"))
  /\ (total_files <> 0%Z ->
      forall msg,
        result (display_summary results total_files)
        <> Raised (Exn ZeroDivisionError msg)
        /\ result (display_summary results total_files)
           <> Raised (Exn IndexError msg))
  /\ error_lines (events (display_summary results total_files)) =
     match result (display_summary results total_files) with
     | Returned _ => firstn 10 (failures results)
     | Raised _ => []
     end.
Proof.
  destruct (display_summary_ends results total_files) as [Hres Hlines].
  split; [| split; [| split; [| exact Hlines]]].
  - intros ->. exact Hres.
  - intros Hz Htext. apply Z.eqb_neq in Hz. now rewrite Hz, Htext in Hres.
  - intros Hz msg. apply Z.eqb_neq in Hz. rewrite Hz in Hres.
    destruct (forallb is_text (study_ids (successes results))).
    + rewrite Hres. destruct (forallb names_file results); split; discriminate.
    + destruct Hres as [msg' ->]. split; discriminate.
Qed.

Lemma display_summary_outcome_witness :
  result (display_summary Samples.twelve_failures 0)
  = Raised (Exn ZeroDivisionError "division by zero")
  /\ result (display_summary Samples.twelve_failures 12) = Returned tt
  /\ result (display_summary [(false, [("error", VStr "pydicom not installed")])] 1)
     = Raised (Exn KeyError "'filename'").
Proof.
  split; [| split].
  - exact (proj1 (display_summary_outcome Samples.twelve_failures 0) eq_refl).
  - apply (proj1 (proj2 (display_summary_outcome Samples.twelve_failures 12)));
      [discriminate | reflexivity].
  - apply (proj1 (proj2 (display_summary_outcome
                           [(false, [("error", VStr "pydicom not installed")])] 1)));
      [discriminate | reflexivity].
Defined.

Ltac trace_step :=
  rewrite ?flat_map_bind, ?bind_result;
  cbn [print emit ret raise events result fst snd flat_map app].

Lemma display_study_count_lines (item : pyval * list pydict) :
  count_lines (events (display_study item)) = [].
Proof. destruct item as [k [| first rest]]; [reflexivity |]. now destruct k. Qed.

Lemma for_each_display_study_count_lines (studies : Studies) :
  count_lines (events (for_each studies display_study)) = [].
Proof.
  induction studies as [| item rest IH]; [reflexivity |].
  cbn [for_each]. unfold count_lines in *. rewrite flat_map_bind.
  fold (count_lines (events (display_study item))).
  rewrite display_study_count_lines.
  now destruct (result (display_study item)).
Qed.

Lemma display_errors_other_lines (errors : list (pyval * pyval)) :
  count_lines (events (display_errors errors)) = []
  /\ study_lines (events (display_errors errors)) = [].
Proof.
  destruct errors as [| fe rest]; [now split |].
  unfold display_errors. rewrite print_errors_spec.
  assert (H : forall l : list (pyval * pyval),
             count_lines (map (fun fe => Print (LError (fst fe) (snd fe))) l) = []
             /\ study_lines (map (fun fe => Print (LError (fst fe) (snd fe))) l) = []).
  { induction l as [| x l [IH1 IH2]]; [now split |]. cbn. now split. }
  destruct (H (firstn 10 (fe :: rest))) as [H1 H2].
  unfold count_lines, study_lines in *.
  destruct (10 <? List.length (fe :: rest));
    cbn [print emit ret bind events result fst snd];
    rewrite !flat_map_app, H1, H2; now split.
Qed.

Lemma failures_length (results : list Result) :
  List.length (failures results) + List.length (filter fst results)
  = List.length results.
Proof.
  induction results as [| [[|] r] rest IH]; unfold failures in *;
    cbn [flat_map fst snd filter List.length app] in *; lia.
Qed.

(** The counts of the summary.  With a non-zero total it prints, in this
    order and whatever happens later, the total, the number of successes,
    the total minus that number as the failures, and as unique studies the
    number of distinct study identifiers among the successful records.
    When the total is the number of results, the failure count is the
    number of failed results. *)
Theorem display_summary_counts (results : list Result) (total_files : Z) :
  total_files <> 0%Z ->
  count_lines (events (display_summary results total_files)) =
    [ LTotalFiles total_files;
      LSuccessful (Z.of_nat (List.length (successes results)))
                  (percent_of (Z.of_nat (List.length (successes results))) total_files);
      LFailed (total_files - Z.of_nat (List.length (successes results)))
              (percent_of (total_files - Z.of_nat (List.length (successes results)))
                          total_files);
      LUniqueStudies (List.length (first_occurrences (study_ids (successes results)))) ]
  /\ (total_files = Z.of_nat (List.length results) ->
      (total_files - Z.of_nat (List.length (successes results)))%Z
      = Z.of_nat (List.length (failures results))).
Proof.
  intros Hne. split.
  - assert (Hz : Z.eqb total_files 0 = false) by now apply Z.eqb_neq.
    assert (Hs : List.length (successes results) = List.length (filter fst results))
      by (unfold successes; apply length_map).
    rewrite Hs.
    assert (Hu : List.length (first_occurrences (study_ids (successes results)))
                 = List.length (group_by_study (map snd (filter fst results)))).
    { rewrite group_by_study_groups_of. unfold groups_of, successes.
      now rewrite length_map. }
    rewrite Hu.
    unfold display_summary, count_lines, percentage_or_raise. rewrite Hz.
    repeat trace_step.
    fold (count_lines (events (collect_errors results))).
    rewrite collect_errors_events.
    assert (Htail : forall studies,
               flat_map (fun e => match e with
                                  | Print (LTotalFiles n) => [LTotalFiles n]
                                  | Print (LSuccessful n p) => [LSuccessful n p]
                                  | Print (LFailed n p) => [LFailed n p]
                                  | Print (LUniqueStudies n) => [LUniqueStudies n]
                                  | _ => []
                                  end)
                        (events (for_each studies display_study)) = [])
      by apply for_each_display_study_count_lines.
    assert (Herr : forall errors,
               flat_map (fun e => match e with
                                  | Print (LTotalFiles n) => [LTotalFiles n]
                                  | Print (LSuccessful n p) => [LSuccessful n p]
                                  | Print (LFailed n p) => [LFailed n p]
                                  | Print (LUniqueStudies n) => [LUniqueStudies n]
                                  | _ => []
                                  end)
                        (events (display_errors errors)) = [])
      by (intros; apply display_errors_other_lines).
    destruct (group_by_study (map snd (filter fst results))) as [| item rest] eqn:Hg;
      repeat trace_step; rewrite ?Htail; cbn [app count_lines flat_map];
      repeat match goal with
             | |- context [match ?r with Returned _ => _ | Raised _ => _ end] =>
                 destruct r; repeat trace_step; rewrite ?Herr; cbn [app flat_map]
             end; reflexivity.
  - intros ->. unfold successes. rewrite length_map.
    pose proof (failures_length results). lia.
Qed.

Lemma display_summary_counts_witness :
  count_lines (events (display_summary Samples.twelve_failures 12)) =
  [LTotalFiles 12; LSuccessful 0 0; LFailed 12 100; LUniqueStudies 0].
Proof.
  destruct (display_summary_counts Samples.twelve_failures 12) as [H _];
    [discriminate |].
  exact H.
Defined.

Lemma for_each_display_study_block (studies : Studies) :
  Forall (fun kv => snd kv <> []) studies ->
  forallb (fun kv => is_text (fst kv)) studies = true ->
  study_lines (events (for_each studies display_study)) = flat_map study_block studies.
Proof.
  induction 1 as [| [k images] rest Hne _ IH]; intros Htext; [reflexivity |].
  cbn [snd] in Hne. destruct images as [| first more]; [contradiction |].
  cbn [forallb fst] in Htext. apply andb_prop in Htext as [Hk Hrest].
  destruct k as [uid | |]; try discriminate.
  cbn [for_each]. unfold study_lines in *. rewrite flat_map_bind.
  cbn [flat_map]. rewrite <- (IH Hrest). reflexivity.
Qed.

(** The study section of the summary.  When every successful record has a
    textual study identifier (or none), the studies are shown in order of
    first appearance; each shows the description, patient and modality of
    the first record of that study in input order, the number of records
    of the study, and the first 50 characters of the identifier. *)
Theorem display_summary_studies (results : list Result) (total_files : Z) :
  total_files <> 0%Z ->
  forallb is_text (study_ids (successes results)) = true ->
  study_lines (events (display_summary results total_files)) =
  flat_map study_block
           (map (fun k => (k, filter (has_study k) (successes results)))
                (first_occurrences (study_ids (successes results)))).
Proof.
  intros Hne Htext.
  assert (Hz : Z.eqb total_files 0 = false) by now apply Z.eqb_neq.
  fold (groups_of (successes results)).
  rewrite <- group_by_study_groups_of.
  rewrite <- group_keys_text in Htext.
  pose proof (groups_nonempty (successes results)) as Hgne.
  unfold successes in *.
  pose proof (for_each_display_study_block _ Hgne Htext) as Hblock.
  pose proof (for_each_display_study_result _ Hgne) as Hres.
  rewrite Htext in Hres.
  unfold display_summary, study_lines, percentage_or_raise in *. rewrite Hz.
  repeat trace_step.
  assert (HC : flat_map (fun e => match e with
                                  | Print (LStudy v) => [LStudy v]
                                  | Print (LPatientID v) => [LPatientID v]
                                  | Print (LModality v) => [LModality v]
                                  | Print (LImages n) => [LImages n]
                                  | Print (LStudyUID s) => [LStudyUID s]
                                  | _ => []
                                  end) (events (collect_errors results)) = [])
    by now rewrite collect_errors_events.
  assert (Herr : forall errors,
             flat_map (fun e => match e with
                                | Print (LStudy v) => [LStudy v]
                                | Print (LPatientID v) => [LPatientID v]
                                | Print (LModality v) => [LModality v]
                                | Print (LImages n) => [LImages n]
                                | Print (LStudyUID s) => [LStudyUID s]
                                | _ => []
                                end) (events (display_errors errors)) = [])
    by (intros; apply display_errors_other_lines).
  destruct (group_by_study (map snd (filter fst results))) as [| item rest] eqn:Hg;
    repeat trace_step; rewrite ?Hblock, ?Hres, ?HC; cbn [app flat_map];
    repeat match goal with
           | |- context [match ?r with Returned _ => _ | Raised _ => _ end] =>
               destruct r; repeat trace_step; rewrite ?Herr; cbn [app flat_map]
           end; rewrite ?app_nil_r; reflexivity.
Qed.

Lemma display_summary_studies_witness :
  study_lines
    (events (display_summary
               [ (true, [("study_uid", VStr "S1"); ("patient_id", VStr "P1")]);
                 (false, [("error", VStr "unreadable"); ("filename", VStr "x")]);
                 (true, [("study_uid", VStr "S1"); ("patient_id", VStr "P2")]) ] 3))
  = [ LStudy (VStr "N/A"); LPatientID (VStr "P1"); LModality (VStr "N/A");
      LImages 2; LStudyUID "S1" ].
Proof.
  exact (display_summary_studies
           [ (true, [("study_uid", VStr "S1"); ("patient_id", VStr "P1")]);
             (false, [("error", VStr "unreadable"); ("filename", VStr "x")]);
             (true, [("study_uid", VStr "S1"); ("patient_id", VStr "P2")]) ] 3
           ltac:(discriminate) eq_refl).
Defined.

(** *** The entry point *)

Lemma display_study_calls (item : pyval * list pydict) :
  decoder_calls (events (display_study item)) = [].
Proof. destruct item as [k [| first rest]]; [reflexivity |]. now destruct k. Qed.

Lemma for_each_display_study_calls (studies : Studies) :
  decoder_calls (events (for_each studies display_study)) = [].
Proof.
  induction studies as [| item rest IH]; [reflexivity |].
  cbn [for_each]. unfold decoder_calls in *. rewrite flat_map_bind.
  fold (decoder_calls (events (display_study item))).
  rewrite display_study_calls. now destruct (result (display_study item)).
Qed.

Lemma display_errors_calls (errors : list (pyval * pyval)) :
  decoder_calls (events (display_errors errors)) = [].
Proof.
  destruct errors as [| fe rest]; [reflexivity |].
  unfold display_errors. rewrite print_errors_spec.
  assert (H : forall l : list (pyval * pyval),
             decoder_calls (map (fun fe => Print (LError (fst fe) (snd fe))) l) = []).
  { induction l as [| x l IH]; [reflexivity | exact IH]. }
  specialize (H (firstn 10 (fe :: rest))).
  destruct (10 <? List.length (fe :: rest));
    cbn [print emit ret bind events result fst snd];
    rewrite !decoder_calls_app, H; reflexivity.
Qed.

Lemma display_summary_calls (results : list Result) (total_files : Z) :
  decoder_calls (events (display_summary results total_files)) = [].
Proof.
  unfold display_summary, decoder_calls, percentage_or_raise.
  pose proof for_each_display_study_calls as HS.
  pose proof display_errors_calls as HE.
  pose proof (collect_errors_events results) as HC.
  unfold decoder_calls in HS, HE.
  repeat trace_step.
  destruct (Z.eqb total_files 0); repeat trace_step; [reflexivity |].
  destruct (group_by_study (map snd (filter fst results))) as [| item rest];
    repeat trace_step; rewrite ?HS, ?HC; cbn [app flat_map];
    repeat match goal with
           | |- context [match ?r with Returned _ => _ | Raised _ => _ end] =>
               destruct r; repeat trace_step; rewrite ?HE; cbn [app flat_map]
           end; reflexivity.
Qed.

Lemma outcome_unit_eta (r : outcome unit) :
  match r with Returned _ => Returned tt | Raised e => Raised e end = r.
Proof. now destruct r as [[] | e]. Qed.

(** A batch over at least one file ends as its summary ends, and calls
    the decoder as its loop does. *)
Lemma main_batch_nonempty (env : Env) (f : Path) (fs : list Path) :
  exists outs,
    Forall2 (fun p r => result (process_single_image env p) = Returned r) (f :: fs) outs
    /\ result (main_batch env (f :: fs))
       = result (display_summary outs (Z.of_nat (List.length (f :: fs))))
    /\ decoder_calls (events (main_batch env (f :: fs)))
       = if pydicom_installed env then map (fun p => (p, true)) (f :: fs) else [].
Proof.
  destruct (main_loop_spec env (List.length (f :: fs)) (f :: fs) 1 []) as [outs [Heq Hall]].
  pose proof (main_loop_calls env (List.length (f :: fs)) 1 (f :: fs) []) as Hcalls.
  exists outs. split; [exact Hall |].
  unfold main_batch. rewrite Heq in *. cbn [app events fst] in Hcalls.
  split.
  - repeat trace_step. apply outcome_unit_eta.
  - unfold decoder_calls in *. repeat trace_step.
    rewrite Hcalls.
    fold (decoder_calls (events (display_summary outs (Z.of_nat (List.length (f :: fs)))))).
    rewrite display_summary_calls.
    destruct (result (display_summary outs (Z.of_nat (List.length (f :: fs)))));
      cbn [flat_map app]; now rewrite ?app_nil_r.
Qed.

Lemma lift_events {A} (m : M event A) : events (lift m) = map Core (events m).
Proof. reflexivity. Qed.

Lemma lift_result {A} (m : M event A) : result (lift m) = result m.
Proof. reflexivity. Qed.

Lemma main_decoder_calls_Core (t : list event) :
  main_decoder_calls (map Core t) = decoder_calls t.
Proof.
  unfold main_decoder_calls, decoder_calls.
  induction t as [| e t IH]; [reflexivity |].
  cbn [map flat_map]. rewrite IH. now destruct e.
Qed.

Lemma main_decoder_calls_app (t t' : list main_event) :
  main_decoder_calls (t ++ t') = main_decoder_calls t ++ main_decoder_calls t'.
Proof. apply flat_map_app. Qed.

Ltac main_step :=
  rewrite ?bind_result, ?bind_events, ?main_decoder_calls_app;
  cbn [out err emit ret raise sys_exit events result fst snd app
       main_decoder_calls flat_map].

Lemma main_exits_early (w : World) :
  (pydicom_installed (decoder w) = false ->
   result (main w) = Raised (Exn (SystemExit 1) "")
   /\ main_decoder_calls (events (main w)) = [])
  /\ (pydicom_installed (decoder w) = true ->
      List.length (argv w) < 2 ->
      result (main w) = Raised (Exn (SystemExit 0) "")
      /\ main_decoder_calls (events (main w)) = [])
  /\ (forall script arg rest,
         pydicom_installed (decoder w) = true ->
         argv w = script :: arg :: rest ->
         match stat w (path_of w arg) with
         | None =>
             result (main w) = Raised (Exn (SystemExit 1) "")
             /\ main_decoder_calls (events (main w)) = []
             /\ In (Err (MNoDirectory (path_of w arg))) (events (main w))
         | Some RegularFile =>
             result (main w) = Raised (Exn (SystemExit 1) "")
             /\ main_decoder_calls (events (main w)) = []
             /\ In (Err (MNotDirectory (path_of w arg))) (events (main w))
         | Some (Folder tree) =>
             find_dicom_files (path_of w arg) tree = [] ->
             result (main w) = Raised (Exn (SystemExit 0) "")
             /\ main_decoder_calls (events (main w)) = []
         end).
Proof.
  unfold main. split; [| split].
  - intros ->. repeat main_step. now split.
  - intros -> Hlen. destruct (argv w) as [| script [| arg rest]];
      [| | cbn in Hlen; lia]; repeat main_step; now split.
  - intros script arg rest -> ->.
    destruct (stat w (path_of w arg)) as [[| tree] |].
    + repeat main_step. repeat split. cbn. tauto.
    + intros ->. repeat main_step. now split.
    + repeat main_step. repeat split. cbn. tauto.
Qed.

(** Exit codes of [main].  Without [pydicom] it exits with status 1;
    without a directory argument with status 0; on a path that does not
    exist or is not a directory with status 1, naming the path on stderr;
    on a directory without DICOM files with status 0.  In none of these
    cases is the decoder called. *)
Theorem main_exit_codes (w : World) :
  (pydicom_installed (decoder w) = false ->
   result (main w) = Raised (Exn (SystemExit 1) "")
   /\ main_decoder_calls (events (main w)) = [])
  /\ (pydicom_installed (decoder w) = true ->
      List.length (argv w) < 2 ->
      result (main w) = Raised (Exn (SystemExit 0) "")
      /\ main_decoder_calls (events (main w)) = [])
  /\ (forall script arg rest,
         pydicom_installed (decoder w) = true ->
         argv w = script :: arg :: rest ->
         match stat w (path_of w arg) with
         | None =>
             result (main w) = Raised (Exn (SystemExit 1) "")
             /\ main_decoder_calls (events (main w)) = []
             /\ In (Err (MNoDirectory (path_of w arg))) (events (main w))
         | Some RegularFile =>
             result (main w) = Raised (Exn (SystemExit 1) "")
             /\ main_decoder_calls (events (main w)) = []
             /\ In (Err (MNotDirectory (path_of w arg))) (events (main w))
         | Some (Folder tree) =>
             find_dicom_files (path_of w arg) tree = [] ->
             result (main w) = Raised (Exn (SystemExit 0) "")
             /\ main_decoder_calls (events (main w)) = []
         end).
Proof. exact (main_exits_early w). Qed.

Lemma main_exit_codes_witness :
  result (main {| argv := ["batch_processing.py"; "scan.dcm"];
                  decoder := Samples.env;
                  path_of := fun s => [s];
                  stat := fun _ => Some RegularFile |})
  = Raised (Exn (SystemExit 1) "").
Proof.
  destruct (main_exit_codes {| argv := ["batch_processing.py"; "scan.dcm"];
                               decoder := Samples.env;
                               path_of := fun s => [s];
                               stat := fun _ => Some RegularFile |})
    as [_ [_ H]].
  exact (proj1 (H "batch_processing.py" "scan.dcm" [] eq_refl eq_refl)).
Defined.

(** On an existing directory [main] asks the decoder for each discovered
    file once, in the sorted order of discovery and without pixel data,
    whatever the decoder answers and however the summary ends. *)
Theorem main_processes_discovered_files
        (w : World) (script arg : string) (rest : list string) (tree : list entry) :
  pydicom_installed (decoder w) = true ->
  argv w = script :: arg :: rest ->
  stat w (path_of w arg) = Some (Folder tree) ->
  main_decoder_calls (events (main w))
  = map (fun f => (f, true)) (find_dicom_files (path_of w arg) tree).
Proof.
  intros Hi Hargv Hstat. unfold main. rewrite Hi, Hargv, Hstat.
  repeat main_step. rewrite lift_events, main_decoder_calls_Core.
  destruct (find_dicom_files (path_of w arg) tree) as [| f fs]; [reflexivity |].
  destruct (main_batch_nonempty (decoder w) f fs) as [outs [_ [_ Hcalls]]].
  now rewrite Hcalls, Hi.
Qed.

Lemma main_processes_discovered_files_witness :
  main_decoder_calls
    (events (main {| argv := ["batch_processing.py"; "data"];
                     decoder := Samples.env;
                     path_of := fun s => [s];
                     stat := fun _ => Some (Folder [File "b.dcm"; File "a.dcm"]) |}))
  = [(["data"; "a.dcm"], true); (["data"; "b.dcm"], true)].
Proof.
  exact (main_processes_discovered_files
           {| argv := ["batch_processing.py"; "data"];
              decoder := Samples.env;
              path_of := fun s => [s];
              stat := fun _ => Some (Folder [File "b.dcm"; File "a.dcm"]) |}
           "batch_processing.py" "data" [] [File "b.dcm"; File "a.dcm"]
           eq_refl eq_refl eq_refl).
Defined.

Lemma study_ids_cons (r : pydict) (results : list pydict) :
  study_ids (r :: results) = study_ids [r] ++ study_ids results.
Proof. unfold study_ids. cbn. now rewrite app_nil_r. Qed.

Lemma batch_outcomes_renderable (env : Env) (files : list Path) (outs : list Result) :
  pydicom_installed env = true ->
  Forall2 (fun p r => result (process_single_image env p) = Returned r) files outs ->
  forallb names_file outs = true
  /\ forallb is_text (study_ids (successes outs)) = forallb (text_study_uid env) files.
Proof.
  intros Hi. induction 1 as [| f r files outs Hr _ [IHn IHt]]; [now split |].
  unfold process_single_image, call_dcmread, text_study_uid in *. rewrite Hi in Hr.
  cbn [forallb]. unfold successes in *.
  destruct (dcmread env f true) as [[cls msg] | ds]; cbn in Hr; injection Hr as <-.
  - cbn. now split.
  - cbn [filter fst map snd names_file orb andb]. split; [exact IHn |].
    rewrite study_ids_cons, forallb_app, IHt. cbn. now rewrite andb_true_r.
Qed.

(** A run of [main] that returns.  On an existing directory with at
    least one discovered file, if every discovered file that decodes has
    a textual study identifier or none, [main] returns, whatever files
    fail to decode: the total is not zero, every failure carries
    ['filename'] and no group is empty, so that the summary raises
    neither [ZeroDivisionError] nor [KeyError] nor [IndexError].  The
    last line of the run announces its completion. *)
Theorem main_outcome (w : World) (script arg : string) (rest : list string)
        (tree : list entry) :
  pydicom_installed (decoder w) = true ->
  argv w = script :: arg :: rest ->
  stat w (path_of w arg) = Some (Folder tree) ->
  find_dicom_files (path_of w arg) tree <> [] ->
  forallb (text_study_uid (decoder w)) (find_dicom_files (path_of w arg) tree) = true ->
  result (main w) = Returned tt
  /\ last (events (main w)) (Out (MText ""))
     = Core (Print (Text (nl ++ "Batch processing complete!"))).
Proof.
  intros Hi Hargv Hstat Hfiles Htext.
  unfold main. rewrite Hi, Hargv, Hstat. repeat main_step.
  rewrite lift_result, lift_events.
  destruct (find_dicom_files (path_of w arg) tree) as [| f fs]; [contradiction |].
  destruct (main_loop_spec (decoder w) (List.length (f :: fs)) (f :: fs) 1 [])
    as [outs [Heq Hall]].
  destruct (batch_outcomes_renderable _ _ _ Hi Hall) as [Hnames Htext'].
  destruct (display_summary_ends outs (Z.of_nat (List.length (f :: fs)))) as [Hres _].
  cbn [List.length] in Hres. rewrite Htext', Htext, Hnames in Hres.
  change (Z.of_nat (S (List.length fs)) =? 0)%Z with false in Hres.
  unfold main_batch. rewrite Heq. cbn [app].
  repeat (rewrite ?bind_result, ?bind_events;
          cbn [print emit ret raise events result fst snd app]).
  cbn [List.length]. rewrite Hres.
  split; [reflexivity |].
  match goal with
  | |- last (?a :: ?b :: ?c :: map Core (?x :: ?y :: ?A ++ ?B ++ [?z])) ?d = _ =>
      change (last ([a; b; c] ++ map Core ([x; y] ++ A ++ B ++ [z])) d = Core z);
      rewrite (app_assoc A B [z]), (app_assoc [x; y] (A ++ B) [z]), map_app, app_assoc
  end.
  apply last_last.
Qed.

Lemma main_outcome_witness :
  result (main {| argv := ["batch_processing.py"; "data"];
                  decoder := Samples.env;
                  path_of := fun s => [s];
                  stat := fun _ => Some (Folder [File "bad.dcm"; File "a.dcm"]) |})
  = Returned tt.
Proof.
  exact (proj1 (main_outcome
                  {| argv := ["batch_processing.py"; "data"];
                     decoder := Samples.env;
                     path_of := fun s => [s];
                     stat := fun _ => Some (Folder [File "bad.dcm"; File "a.dcm"]) |}
                  "batch_processing.py" "data" [] [File "bad.dcm"; File "a.dcm"]
                  eq_refl eq_refl eq_refl ltac:(discriminate) eq_refl)).
Defined.

End BatchExtra.

(** ** Further properties of the filter script *)

Module FilterExtra.
Import Py CustomFilter FilterSpec ExtraFilterSpec FilterFacts.

#[local] Opaque Qred Qplus Qminus Qmult Qopp Qinv Qle_bool Qeq_bool.

(** *** Loading *)

(** Loading never raises.  It returns either the pixel array together
    with the metadata, which happens exactly when [pydicom] is available,
    the file decodes, its pixel data can be read and both dimensions are
    present; or no array together with an error dictionary whose message
    is that of the stage that failed. *)
Theorem load_dicom_pixel_data_outcome (env : Env) (p : Path) :
  exists loaded,
    result (load_dicom_pixel_data env p) = Returned loaded
    /\ match loaded with
       | (Some a, MetadataDict m) =>
           exists ds,
             pydicom_installed env = true
             /\ dcmread env p = inr ds
             /\ pixel_array ds = inr a
             /\ Rows ds = Some (rows m)
             /\ Columns ds = Some (columns m)
       | (None, ErrorDict msg) => load_failure env p msg
       | _ => False
       end.
Proof.
  unfold load_dicom_pixel_data, load_failure.
  destruct (pydicom_installed env) eqn:Hi; cbn.
  - destruct (dcmread env p) as [[cls msg] | ds] eqn:Hd; cbn.
    + eexists. split; [reflexivity |]. right. split; [reflexivity |]. left. eauto.
    + destruct (pixel_array ds) as [[cls msg] | a] eqn:Hpx; cbn.
      * eexists. split; [reflexivity |]. right. split; [reflexivity |].
        right. exists ds. split; [reflexivity |]. left. eauto.
      * destruct (Rows ds) as [r |] eqn:Hr; cbn.
        -- destruct (Columns ds) as [c |] eqn:Hc; cbn.
           ++ eexists. split; [reflexivity |]. cbn. exists ds. repeat split; assumption.
           ++ eexists. split; [reflexivity |]. right. split; [reflexivity |].
              right. exists ds. split; [reflexivity |]. right. exists a.
              split; [assumption |]. right. exists r. repeat split; assumption.
        -- eexists. split; [reflexivity |]. right. split; [reflexivity |].
           right. exists ds. split; [reflexivity |]. right. exists a.
           split; [assumption |]. left. now split.
  - eexists. split; [reflexivity |]. left. now split.
Qed.

(** *** The pipeline when something is missing *)

(** When loading fails, for whatever reason, [process_with_filters] says
    so on stderr and returns: it applies no filter, reports no
    comparison, and does not depend on [scipy]. *)
Theorem process_with_filters_load_failure
        (np : Numeric) (env : Env) (dicom_path : Path) (gaussian_sigma edge_sigma : Q)
        (enable_contrast : bool) (i : info) :
  result (load_dicom_pixel_data env dicom_path) = Returned (None, i) ->
  result (process_with_filters np env dicom_path gaussian_sigma edge_sigma enable_contrast)
  = Returned tt
  /\ report_lines
       (events (process_with_filters np env dicom_path gaussian_sigma edge_sigma
                                     enable_contrast)) = []
  /\ events (process_with_filters np env dicom_path gaussian_sigma edge_sigma
                                  enable_contrast)
     = Print (LLoading dicom_path)
       :: events (load_dicom_pixel_data env dicom_path)
       ++ [PrintErr (Text "Failed to load pixel data")].
Proof.
  intros Hload. unfold process_with_filters.
  assert (Hrep : report_lines (events (load_dicom_pixel_data env dicom_path)) = []).
  { unfold load_dicom_pixel_data.
    destruct (pydicom_installed env); [| reflexivity]. cbn.
    destruct (dcmread env dicom_path) as [[cls msg] | ds]; [reflexivity |]. cbn.
    destruct (pixel_array ds) as [[cls msg] | a]; [reflexivity |]. cbn.
    destruct (Rows ds); [| reflexivity]. cbn.
    destruct (Columns ds); reflexivity. }
  destruct (load_dicom_pixel_data env dicom_path) as [t o].
  cbn [result snd] in Hload. cbn [events fst] in Hrep.
  subst o. cbn [print emit bind print_err events result fst snd app].
  repeat split. unfold report_lines. cbn [filter is_report_line].
  rewrite filter_app. fold (report_lines t). rewrite Hrep. reflexivity.
Qed.

Lemma process_with_filters_load_failure_witness :
  result (process_with_filters
            Samples.constant_array_numeric
            {| pydicom_installed := true; scipy_installed := false;
               dcmread := fun _ => inl ("InvalidDicomError", "not a DICOM file") |}
            ["x.dcm"] 2 1 true)
  = Returned tt.
Proof.
  exact (proj1 (process_with_filters_load_failure
                  Samples.constant_array_numeric
                  {| pydicom_installed := true; scipy_installed := false;
                     dcmread := fun _ => inl ("InvalidDicomError", "not a DICOM file") |}
                  ["x.dcm"] 2 1 true (ErrorDict "not a DICOM file") eq_refl)).
Defined.

(** When the image loads but [scipy] cannot be imported, the run ends at
    the first filter with exit status 1: the metadata has been shown, no
    comparison is reported. *)
Theorem process_with_filters_without_scipy
        (np : Numeric) (env : Env) (dicom_path : Path) (gaussian_sigma edge_sigma : Q)
        (enable_contrast : bool) (pixel_data : ndarray) (m : Metadata) :
  scipy_installed env = false ->
  result (load_dicom_pixel_data env dicom_path) = Returned (Some pixel_data, MetadataDict m) ->
  result (process_with_filters np env dicom_path gaussian_sigma edge_sigma enable_contrast)
  = Raised (Exn (SystemExit 1) "")
  /\ report_lines
       (events (process_with_filters np env dicom_path gaussian_sigma edge_sigma
                                     enable_contrast)) = []
  /\ In (Print (LDimensions (rows m) (columns m)))
        (events (process_with_filters np env dicom_path gaussian_sigma edge_sigma
                                      enable_contrast))
  /\ In (PrintErr (Text "Error: scipy is not installed."))
        (events (process_with_filters np env dicom_path gaussian_sigma edge_sigma
                                      enable_contrast)).
Proof.
  intros Hs Hload. unfold process_with_filters.
  assert (Hrep : report_lines (events (load_dicom_pixel_data env dicom_path)) = []).
  { unfold load_dicom_pixel_data.
    destruct (pydicom_installed env); [| reflexivity]. cbn.
    destruct (dcmread env dicom_path) as [[cls msg] | ds]; [reflexivity |]. cbn.
    destruct (pixel_array ds) as [[cls msg] | a]; [reflexivity |]. cbn.
    destruct (Rows ds); [| reflexivity]. cbn.
    destruct (Columns ds); reflexivity. }
  destruct (load_dicom_pixel_data env dicom_path) as [t o].
  cbn [result snd] in Hload. cbn [events fst] in Hrep.
  subst o. unfold apply_gaussian_filter, import_scipy. rewrite Hs.
  cbn [print emit bind print_err ret raise sys_exit events result fst snd app].
  destruct (pixel_spacing m) as [l | [| a [| b [| c l]]]];
    cbn [print emit bind print_err ret raise sys_exit events result fst snd app];
    (split; [reflexivity |]);
    (split; [unfold report_lines in *; cbn [filter is_report_line];
             rewrite filter_app, Hrep; reflexivity |]);
    split; apply in_cons, in_or_app; right; cbn; tauto.
Qed.

Lemma process_with_filters_without_scipy_witness :
  result (process_with_filters
            Samples.constant_array_numeric
            {| pydicom_installed := true; scipy_installed := false;
               dcmread := dcmread Samples.filter_env |}
            ["a.dcm"] 2 1 true)
  = Raised (Exn (SystemExit 1) "").
Proof.
  exact (proj1 (process_with_filters_without_scipy
                  Samples.constant_array_numeric
                  {| pydicom_installed := true; scipy_installed := false;
                     dcmread := dcmread Samples.filter_env |}
                  ["a.dcm"] 2 1 true Samples.constant_image _ eq_refl eq_refl)).
Defined.

(** With contrast enhancement disabled the run reports two comparisons,
    Gaussian blur and edge detection, both against the loaded image, and
    returns; its closing summary still announces three applied filters
    next to "contrast enhancement disabled". *)
Theorem process_with_filters_without_contrast
        (np : Numeric) (env : Env) (dicom_path : Path) (gaussian_sigma edge_sigma : Q)
        (ds : Dataset) (pixel_data : ndarray) (r c : pyval) :
  pydicom_installed env = true ->
  scipy_installed env = true ->
  dcmread env dicom_path = inr ds ->
  pixel_array ds = inr pixel_data ->
  Rows ds = Some r ->
  Columns ds = Some c ->
  exists gaussian_filtered edge_filtered,
    result (apply_gaussian_filter np env pixel_data gaussian_sigma)
    = Returned gaussian_filtered
    /\ result (apply_edge_detection np env pixel_data edge_sigma)
       = Returned edge_filtered
    /\ result (process_with_filters np env dicom_path gaussian_sigma edge_sigma false)
       = Returned tt
    /\ report_lines
         (events (process_with_filters np env dicom_path gaussian_sigma edge_sigma false))
       = comparison_report np "Gaussian Blur" pixel_data gaussian_filtered
         ++ comparison_report np "Edge Detection" pixel_data edge_filtered
    /\ In (Print (Text "Filters applied:          3"))
          (events (process_with_filters np env dicom_path gaussian_sigma edge_sigma false))
    /\ In (Print (LContrast false))
          (events (process_with_filters np env dicom_path gaussian_sigma edge_sigma false)).
Proof.
  intros Hp Hs Hd Hpx Hr Hc.
  unfold process_with_filters, load_dicom_pixel_data, apply_gaussian_filter,
    apply_edge_detection, import_scipy.
  rewrite Hp, Hs, Hd. cbn. rewrite Hpx. cbn. rewrite Hr. cbn. rewrite Hc. cbn.
  do 2 eexists. repeat split; try reflexivity;
    destruct (PixelSpacing ds) as [[| a [| b [| x l]]] |]; cbn;
    try reflexivity; tauto.
Qed.

Lemma process_with_filters_without_contrast_witness :
  In (Print (Text "Filters applied:          3"))
     (events (process_with_filters Samples.constant_array_numeric Samples.filter_env
                                   ["data"; "a.dcm"] 2 1 false))
  /\ List.length
       (report_lines
          (events (process_with_filters Samples.constant_array_numeric Samples.filter_env
                                        ["data"; "a.dcm"] 2 1 false))) = 14.
Proof.
  destruct (process_with_filters_without_contrast
              Samples.constant_array_numeric Samples.filter_env ["data"; "a.dcm"] 2 1
              _ Samples.constant_image (VInt 2) (VInt 2)
              eq_refl eq_refl eq_refl eq_refl eq_refl eq_refl)
    as [g [e [_ [_ [_ [Hrep [Hthree _]]]]]]].
  split; [exact Hthree |]. now rewrite Hrep.
Defined.

(** *** Contrast enhancement, sample by sample *)

Section Rounding.
Variable rnd : Q -> float64.
Hypothesis ieee : IEEE_rounding rnd.

(** Clipping to [[a, b]] with [a < b] and rescaling keeps the order of
    two finite samples. *)
Lemma rescale_mono (v w a b d : Q) :
  (a < b)%Q ->
  fsub rnd (Finite b) (Finite a) = Finite d ->
  ~ (d == 0)%Q ->
  (v <= w)%Q ->
  exists qv qw,
    fdiv rnd (fsub rnd (fminimum (Finite b) (fmaximum (Finite v) (Finite a))) (Finite a))
         (fsub rnd (Finite b) (Finite a)) = Finite qv
    /\ fdiv rnd (fsub rnd (fminimum (Finite b) (fmaximum (Finite w) (Finite a))) (Finite a))
            (fsub rnd (Finite b) (Finite a)) = Finite qw
    /\ (qv <= qw)%Q.
Proof.
  intros Hab Hd Hnz Hvw. rewrite !(clip_value _ a b Hab), Hd.
  cbn [fsub] in Hd |- *.
  pose proof (difference_positive rnd ieee a b d Hab Hd Hnz) as Hpos.
  destruct (rescale_numerator rnd ieee v a b d Hab Hd) as [x [Hx [Hx0 Hxd]]].
  destruct (rescale_numerator rnd ieee w a b d Hab Hd) as [y [Hy [Hy0 Hyd]]].
  assert (Hxy : (x <= y)%Q).
  { assert (H : fle (rnd (clipQ v a b - a)) (rnd (clipQ w a b - a)) = true).
    { apply (round_monotone rnd ieee).
      pose proof (clipQ_mono v w a b (Qlt_le_weak _ _ Hab) Hvw). lra. }
    rewrite Hx, Hy in H. now apply Qle_bool_iff in H. }
  rewrite Hx, Hy.
  destruct (rescale_quotient rnd ieee x d Hx0 Hxd Hpos) as [qv [Hqv _]].
  destruct (rescale_quotient rnd ieee y d Hy0 Hyd Hpos) as [qw [Hqw _]].
  exists qv, qw. split; [exact Hqv |]. split; [exact Hqw |].
  pose proof (rescale_quotient_mono rnd ieee x y d Hxy Hpos) as H.
  rewrite Hqv, Hqw in H. now apply Qle_bool_iff in H.
Qed.

(** With the bounds reversed, [b < a], every finite sample is clipped to
    [b] and rescaled to 1. *)
Lemma rescale_reversed (v a b d : Q) :
  (b < a)%Q ->
  fsub rnd (Finite b) (Finite a) = Finite d ->
  ~ (d == 0)%Q ->
  fdiv rnd (fsub rnd (fminimum (Finite b) (fmaximum (Finite v) (Finite a))) (Finite a))
       (fsub rnd (Finite b) (Finite a)) = Finite 1.
Proof.
  intros Hba Hd Hnz.
  assert (Hclip : fminimum (Finite b) (fmaximum (Finite v) (Finite a)) = Finite b).
  { cbn. destruct (Qle_bool v a) eqn:E; cbn.
    - assert (H : Qle_bool b a = true) by (apply Qle_bool_iff; lra). now rewrite H.
    - apply Qle_bool_false_lt in E.
      assert (H : Qle_bool b v = true) by (apply Qle_bool_iff; lra). now rewrite H. }
  rewrite Hclip, Hd. now apply rescale_quotient_one.
Qed.

(** The percent change of a statistic that the filter leaves as it is. *)
Lemma percent_change_unchanged (m b : Q) :
  ~ (b == 0)%Q -> (m == b)%Q ->
  fmul rnd (fdiv rnd (fsub rnd (Finite m) (Finite b)) (Finite b)) (Finite 100) = Finite 0.
Proof.
  intros Hb Hm. cbn [fsub]. rewrite (round_zero rnd ieee (m - b)) by (rewrite Hm; ring).
  rewrite (rescale_quotient_zero rnd ieee b Hb). cbn [fmul].
  apply (round_zero rnd ieee). ring.
Qed.

Lemma fle_zero_cases (y : float64) :
  fle (Finite 0) y = true -> (exists q, y = Finite q /\ (0 <= q)%Q) \/ y = PosInf.
Proof.
  destruct y as [q | | |]; cbn; try discriminate; [| now right].
  intros H. apply Qle_bool_iff in H. left. now exists q.
Qed.

(** The percent change of a statistic that the filter does not lower,
    against a positive baseline, is not negative. *)
Lemma percent_change_nonnegative (m b : Q) :
  (0 < b)%Q -> (b <= m)%Q ->
  fle (Finite 0)
      (fmul rnd (fdiv rnd (fsub rnd (Finite m) (Finite b)) (Finite b)) (Finite 100)) = true.
Proof.
  intros Hb Hm. cbn [fsub].
  assert (Hb0 : Qeq_bool b 0 = false) by (apply Qeq_bool_false; intros E; lra).
  assert (Hbneg : Qlt_bool b 0 = false).
  { unfold Qlt_bool. assert (H : Qle_bool 0 b = true) by (apply Qle_bool_iff; lra).
    now rewrite H. }
  destruct (fle_zero_cases (rnd (m - b))) as [[y [-> Hy]] | ->].
  - apply (round_nonnegative rnd ieee). lra.
  - cbn [fdiv]. rewrite Hb0.
    destruct (fle_zero_cases (rnd (y / b))) as [[z [-> Hz]] | ->].
    + apply (round_nonnegative rnd ieee). apply Qle_shift_div_l; [assumption | lra].
    + cbn [fmul]. apply (round_nonnegative rnd ieee). lra.
    + vm_compute. reflexivity.
  - cbn [fdiv]. rewrite Hbneg. vm_compute. reflexivity.
Qed.

End Rounding.

(** Contrast enhancement keeps the order of the samples.  When the low
    percentile value lies below the high one and their difference is
    computed as a finite number other than zero, a sample that is not
    above another is mapped to a value that is not above the other's. *)
Theorem contrast_enhancement_monotone
        (np : Numeric) (image : ndarray) (percentile_low percentile_high : Q)
        (p_low p_high d : Q) :
  IEEE_rounding (float_round np) ->
  Qle_bool 0 percentile_low && Qle_bool percentile_low 100 = true ->
  Qle_bool 0 percentile_high && Qle_bool percentile_high 100 = true ->
  percentile_linear (float_round np) (data image) percentile_low = Finite p_low ->
  percentile_linear (float_round np) (data image) percentile_high = Finite p_high ->
  (p_low < p_high)%Q ->
  fsub (float_round np) (Finite p_high) (Finite p_low) = Finite d ->
  ~ (d == 0)%Q ->
  exists enhanced,
    result (apply_contrast_enhancement np image percentile_low percentile_high)
    = Returned enhanced
    /\ forall i j x y,
         nth_error (data image) i = Some (Finite x) ->
         nth_error (data image) j = Some (Finite y) ->
         (x <= y)%Q ->
         exists qx qy,
           nth_error (data enhanced) i = Some (Finite qx)
           /\ nth_error (data enhanced) j = Some (Finite qy)
           /\ (qx <= qy)%Q.
Proof.
  intros Hieee Hl Hh Hpl Hph Hab Hd Hnz.
  rewrite (apply_contrast_enhancement_in_range np image _ _ Hl Hh), Hpl, Hph.
  eexists. split; [reflexivity |].
  unfold np_clip, arr_map. cbn [shape data]. rewrite map_map.
  intros i j x y Hi Hj Hxy. rewrite !nth_error_map, Hi, Hj. cbn [option_map].
  destruct (rescale_mono _ Hieee x y p_low p_high d Hab Hd Hnz Hxy)
    as [qx [qy [Hqx [Hqy Hle]]]].
  exists qx, qy. now rewrite Hqx, Hqy.
Qed.

Lemma contrast_enhancement_monotone_witness :
  exists enhanced,
    result (apply_contrast_enhancement Samples.constant_array_numeric
                                       Samples.ramp_image 0 100) = Returned enhanced
    /\ exists qx qy,
         nth_error (data enhanced) 1 = Some (Finite qx)
         /\ nth_error (data enhanced) 2 = Some (Finite qy)
         /\ (qx <= qy)%Q.
Proof.
  destruct (contrast_enhancement_monotone
              Samples.constant_array_numeric Samples.ramp_image 0 100 0 100 100)
    as [enhanced [Hres Hmono]].
  - exact binary64_round_IEEE.
  - reflexivity.
  - reflexivity.
  - vm_compute; reflexivity.
  - vm_compute; reflexivity.
  - reflexivity.
  - vm_compute; reflexivity.
  - intros H; discriminate H.
  - exists enhanced. split; [exact Hres |].
    apply (Hmono 1%nat 2%nat 50%Q 100%Q eq_refl eq_refl). discriminate.
Defined.

(** When the high percentile value lies below the low one, as it does
    for ranks given in reverse order on an image that is not constant,
    and their difference is computed as a finite number other than zero,
    every sample of a finite-valued image is mapped to exactly 1. *)
Theorem contrast_enhancement_reversed_ranks
        (np : Numeric) (image : ndarray) (percentile_low percentile_high : Q)
        (p_low p_high d : Q) :
  IEEE_rounding (float_round np) ->
  Forall finite (data image) ->
  Qle_bool 0 percentile_low && Qle_bool percentile_low 100 = true ->
  Qle_bool 0 percentile_high && Qle_bool percentile_high 100 = true ->
  percentile_linear (float_round np) (data image) percentile_low = Finite p_low ->
  percentile_linear (float_round np) (data image) percentile_high = Finite p_high ->
  (p_high < p_low)%Q ->
  fsub (float_round np) (Finite p_high) (Finite p_low) = Finite d ->
  ~ (d == 0)%Q ->
  exists enhanced,
    result (apply_contrast_enhancement np image percentile_low percentile_high)
    = Returned enhanced
    /\ List.length (data enhanced) = List.length (data image)
    /\ forall v, In v (data enhanced) -> v = Finite 1.
Proof.
  intros Hieee Hfin Hl Hh Hpl Hph Hba Hd Hnz.
  rewrite (apply_contrast_enhancement_in_range np image _ _ Hl Hh), Hpl, Hph.
  eexists. split; [reflexivity |].
  unfold np_clip, arr_map. cbn [shape data]. rewrite map_map.
  split; [now rewrite length_map |].
  intros v Hv. apply in_map_iff in Hv as [x [<- Hx]].
  rewrite Forall_forall in Hfin. specialize (Hfin x Hx).
  destruct x as [x0 | | |]; try discriminate.
  now apply (rescale_reversed _ Hieee x0 p_low p_high d).
Qed.

Lemma contrast_enhancement_reversed_ranks_witness :
  exists enhanced,
    result (apply_contrast_enhancement Samples.constant_array_numeric
                                       Samples.ramp_image 100 0) = Returned enhanced
    /\ forall v, In v (data enhanced) -> v = Finite 1.
Proof.
  destruct (contrast_enhancement_reversed_ranks
              Samples.constant_array_numeric Samples.ramp_image 100 0 100 0 (-100))
    as [enhanced [Hres [_ Hone]]].
  - exact binary64_round_IEEE.
  - repeat constructor.
  - reflexivity.
  - reflexivity.
  - vm_compute; reflexivity.
  - vm_compute; reflexivity.
  - reflexivity.
  - vm_compute; reflexivity.
  - intros H; discriminate H.
  - exists enhanced. split; [exact Hres | exact Hone].
Defined.

(** *** Percent changes *)

(** Against a finite baseline other than zero, a statistic that the
    filter leaves as it is is reported as a change of exactly 0, for the
    mean and for the standard deviation.  Against a positive baseline, a
    statistic that the filter does not lower is reported as a change
    that is not negative. *)
Theorem percent_change_value :
  (forall (np : Numeric) (original_stats filtered_stats : Stats) (b m : Q),
      IEEE_rounding (float_round np) ->
      st_mean original_stats = Finite b -> ~ (b == 0)%Q ->
      st_mean filtered_stats = Finite m -> (m == b)%Q ->
      mean_change np original_stats filtered_stats = Finite 0)
  /\ (forall (np : Numeric) (original_stats filtered_stats : Stats) (b m : Q),
         IEEE_rounding (float_round np) ->
         st_std original_stats = Finite b -> ~ (b == 0)%Q ->
         st_std filtered_stats = Finite m -> (m == b)%Q ->
         std_change np original_stats filtered_stats = Finite 0)
  /\ (forall (np : Numeric) (original_stats filtered_stats : Stats) (b m : Q),
         IEEE_rounding (float_round np) ->
         st_mean original_stats = Finite b -> (0 < b)%Q ->
         st_mean filtered_stats = Finite m -> (b <= m)%Q ->
         fle (Finite 0) (mean_change np original_stats filtered_stats) = true)
  /\ (forall (np : Numeric) (original_stats filtered_stats : Stats) (b m : Q),
         IEEE_rounding (float_round np) ->
         st_std original_stats = Finite b -> (0 < b)%Q ->
         st_std filtered_stats = Finite m -> (b <= m)%Q ->
         fle (Finite 0) (std_change np original_stats filtered_stats) = true).
Proof.
  split; [| split; [| split]].
  - intros np o f b m Hieee Hb Hnz Hm Hmb. unfold mean_change. rewrite Hb, Hm.
    now apply percent_change_unchanged.
  - intros np o f b m Hieee Hb Hnz Hm Hmb. unfold std_change. rewrite Hb, Hm.
    now apply percent_change_unchanged.
  - intros np o f b m Hieee Hb Hpos Hm Hmb. unfold mean_change. rewrite Hb, Hm.
    now apply percent_change_nonnegative.
  - intros np o f b m Hieee Hb Hpos Hm Hmb. unfold std_change. rewrite Hb, Hm.
    now apply percent_change_nonnegative.
Qed.

Lemma percent_change_value_witness :
  mean_change Samples.constant_array_numeric
              (stats_of (Finite 4) (Finite 2)) (stats_of (Finite 4) (Finite 3))
  = Finite 0
  /\ fle (Finite 0)
         (std_change Samples.constant_array_numeric
                     (stats_of (Finite 4) (Finite 2)) (stats_of (Finite 4) (Finite 3)))
     = true.
Proof.
  destruct percent_change_value as [Hmean [_ [_ Hstd]]].
  split.
  - apply (Hmean Samples.constant_array_numeric
                 (stats_of (Finite 4) (Finite 2)) (stats_of (Finite 4) (Finite 3))
                 4%Q 4%Q binary64_round_IEEE eq_refl);
      [intros H; discriminate H | reflexivity | reflexivity].
  - apply (Hstd Samples.constant_array_numeric
                (stats_of (Finite 4) (Finite 2)) (stats_of (Finite 4) (Finite 3))
                2%Q 3%Q binary64_round_IEEE eq_refl);
      [reflexivity | reflexivity | discriminate].
Defined.

(** *** Ranks 0 and 100 *)

Lemma Fle_refl (x : float64) : finite x -> Fle x x.
Proof. destruct x; try discriminate. intros _. apply Fle_finite, Qle_refl. Qed.

Lemma Fle_trans (x y z : float64) : Fle x y -> Fle y z -> Fle x z.
Proof.
  unfold Fle. destruct x as [a | | |], y as [b | | |], z as [c | | |];
    cbn; try discriminate; try reflexivity.
  rewrite !Qle_bool_iff. apply Qle_trans.
Qed.

Lemma Fle_total (x y : float64) : finite x -> finite y -> fle x y = false -> Fle y x.
Proof.
  destruct x as [a | | |], y as [b | | |]; try discriminate. intros _ _.
  cbn. unfold Fle. cbn. apply Qle_bool_total_false.
Qed.

Lemma insert_sorted_In (z x : float64) (s : list float64) :
  In z (insert_sorted x s) <-> z = x \/ In z s.
Proof.
  induction s as [| y s IH]; cbn.
  - intuition congruence.
  - destruct (fle x y); cbn; [intuition congruence |].
    rewrite IH. intuition congruence.
Qed.

Lemma np_sort_In (z : float64) (l : list float64) : In z (np_sort l) <-> In z l.
Proof.
  induction l as [| x l IH]; cbn; [tauto |].
  rewrite insert_sorted_In, IH. intuition congruence.
Qed.

Lemma insert_sorted_length (x : float64) (s : list float64) :
  List.length (insert_sorted x s) = S (List.length s).
Proof.
  induction s as [| y s IH]; cbn; [reflexivity |].
  destruct (fle x y); cbn; [reflexivity | now rewrite IH].
Qed.

Lemma np_sort_length (l : list float64) : List.length (np_sort l) = List.length l.
Proof.
  induction l as [| x l IH]; cbn; [reflexivity |].
  now rewrite insert_sorted_length, IH.
Qed.

Lemma np_sort_finite (l : list float64) : Forall finite l -> Forall finite (np_sort l).
Proof.
  rewrite !Forall_forall. intros H z Hz. apply H. now apply np_sort_In.
Qed.

Lemma insert_sorted_sorted (x : float64) (s : list float64) :
  finite x -> Forall finite s ->
  StronglySorted Fle s -> StronglySorted Fle (insert_sorted x s).
Proof.
  intros Hx Hfin Hs. induction Hs as [| y s Hs IH Hy]; cbn.
  - repeat constructor.
  - apply Forall_cons_iff in Hfin as [Hyf Hfin].
    destruct (fle x y) eqn:E.
    + constructor; [now constructor |].
      constructor; [exact E |].
      eapply Forall_impl; [| exact Hy]. intros z Hz. now apply Fle_trans with y.
    + constructor; [now apply IH |].
      apply Forall_forall. intros z Hz. apply insert_sorted_In in Hz as [-> | Hz].
      * now apply Fle_total.
      * rewrite Forall_forall in Hy. now apply Hy.
Qed.

Lemma np_sort_sorted (l : list float64) :
  Forall finite l -> StronglySorted Fle (np_sort l).
Proof.
  induction l as [| x l IH]; cbn; intros H; [constructor |].
  apply Forall_cons_iff in H as [Hx Hl].
  apply insert_sorted_sorted; auto using np_sort_finite.
Qed.

Lemma sorted_nth (s : list float64) (d : float64) :
  StronglySorted Fle s -> Forall finite s ->
  forall i j, i <= j -> j < List.length s -> Fle (nth i s d) (nth j s d).
Proof.
  induction 1 as [| y s Hs IH Hy]; intros Hfin i j Hij Hj; [cbn in Hj; lia |].
  apply Forall_cons_iff in Hfin as [Hyf Hfin].
  destruct i as [| i], j as [| j]; cbn in *; try lia.
  - now apply Fle_refl.
  - rewrite Forall_forall in Hy. apply Hy. apply nth_In. lia.
  - apply IH; [assumption | lia | lia].
Qed.

Lemma finite_not_nan (l : list float64) : Forall finite l -> existsb is_nan l = false.
Proof.
  induction 1 as [| x l Hx _ IH]; [reflexivity |].
  cbn. rewrite IH. destruct x; try discriminate. reflexivity.
Qed.

Lemma virtual_index_zero (n : nat) : (virtual_index n 0 == 0)%Q.
Proof. unfold virtual_index. field. Qed.

Lemma virtual_index_hundred (n : nat) :
  (virtual_index n 100 == inject_Z (Z.of_nat (n - 1)))%Q.
Proof. unfold virtual_index. field. Qed.

Section MinMax.
Variable rnd : Q -> float64.
Hypothesis ieee : IEEE_rounding rnd.

Lemma representable_finite (l : list float64) :
  Forall (representable rnd) l -> Forall finite l.
Proof.
  apply Forall_impl. intros x Hx. now destruct x.
Qed.

(** Two values of the format that are equal as numbers are the same. *)
Lemma representable_eq (a b : Q) :
  rnd a = Finite a -> rnd b = Finite b -> (a == b)%Q -> a = b.
Proof.
  intros Ha Hb E. rewrite (round_proper rnd ieee a b E), Hb in Ha. now injection Ha.
Qed.

Variable l : list float64.
Variables lo hi d : Q.
Hypothesis values : Forall (representable rnd) l.
Hypothesis lo_sample : In (Finite lo) l.
Hypothesis hi_sample : In (Finite hi) l.
Hypothesis least : forall y, In y l -> Fle (Finite lo) y.
Hypothesis greatest : forall y, In y l -> Fle y (Finite hi).
Hypothesis difference : fsub rnd (Finite hi) (Finite lo) = Finite d.

Lemma sample_value (y : float64) :
  In y l -> exists v, y = Finite v /\ rnd v = Finite v /\ (lo <= v)%Q /\ (v <= hi)%Q.
Proof.
  intros Hy. pose proof (least y Hy) as Hl. pose proof (greatest y Hy) as Hh.
  rewrite Forall_forall in values. pose proof (values y Hy) as Hr.
  destruct y as [v | | |]; try contradiction.
  exists v. repeat split; [exact Hr | now apply Fle_finite | now apply Fle_finite].
Qed.

Lemma sorted_sample (i : nat) :
  i < List.length l ->
  exists v, nth i (np_sort l) NaN = Finite v
            /\ rnd v = Finite v /\ (lo <= v)%Q /\ (v <= hi)%Q.
Proof.
  intros Hi. apply sample_value. apply np_sort_In. apply nth_In.
  now rewrite np_sort_length.
Qed.

Lemma length_positive : 0 < List.length l.
Proof. destruct l; [contradiction | cbn; lia]. Qed.

(** The first of the sorted samples is a least sample, the last a
    greatest one. *)
Lemma sorted_first : nth 0 (np_sort l) NaN = Finite lo.
Proof.
  pose proof length_positive as Hn.
  destruct (sorted_sample 0 Hn) as [v [Hv [Hr [Hlo _]]]]. rewrite Hv. f_equal.
  destruct (sample_value _ lo_sample) as [lo' [E [Hrlo _]]]. injection E as <-.
  apply representable_eq; [assumption | assumption |].
  apply Qle_antisym; [| exact Hlo].
  apply Fle_finite. rewrite <- Hv.
  pose proof lo_sample as Hin. apply np_sort_In in Hin.
  apply In_nth with (d := NaN) in Hin. destruct Hin as [i [Hi <-]].
  apply sorted_nth; [apply np_sort_sorted | apply np_sort_finite | lia | exact Hi];
    now apply representable_finite.
Qed.

Lemma sorted_last : nth (List.length l - 1) (np_sort l) NaN = Finite hi.
Proof.
  pose proof length_positive as Hn.
  destruct (sorted_sample (List.length l - 1)) as [v [Hv [Hr [_ Hhi]]]]; [lia |].
  rewrite Hv. f_equal.
  destruct (sample_value _ hi_sample) as [hi' [E [Hrhi _]]]. injection E as <-.
  apply representable_eq; [assumption | assumption |].
  apply Qle_antisym; [exact Hhi |].
  apply Fle_finite. rewrite <- Hv.
  pose proof hi_sample as Hin. apply np_sort_In in Hin.
  apply In_nth with (d := NaN) in Hin. destruct Hin as [i [Hi <-]].
  rewrite np_sort_length in Hi.
  apply sorted_nth; [apply np_sort_sorted | apply np_sort_finite | lia
                     | rewrite np_sort_length; lia];
    now apply representable_finite.
Qed.

(** The percentile of rank 0 is the least sample, the percentile of rank
    100 the greatest. *)
Lemma percentile_rank_zero : percentile_linear rnd l 0 = Finite lo.
Proof.
  pose proof length_positive as Hn.
  unfold percentile_linear.
  rewrite (finite_not_nan l (representable_finite l values)), np_sort_length.
  cbv zeta.
  rewrite (Qfloor_comp _ _ (virtual_index_zero (List.length l))).
  change (Qfloor 0) with 0%Z. change (Z.to_nat 0) with 0%nat.
  rewrite sorted_first.
  destruct (sorted_sample (Nat.min 1 (List.length l - 1))) as [b [-> [_ [Hb1 Hb2]]]]; [lia |].
  destruct (sample_value _ lo_sample) as [lo' [E [Hrlo _]]]. injection E as <-.
  cbn [fsub] in difference |- *.
  destruct (fle_between 0 d (rnd (b - lo))) as [e [-> _]].
  - apply (round_nonnegative rnd ieee). lra.
  - rewrite <- difference. apply (round_monotone rnd ieee). lra.
  - cbn [fmul]. rewrite (round_zero rnd ieee).
    + cbn [fadd]. rewrite <- Hrlo. apply (round_proper rnd ieee). ring.
    + rewrite virtual_index_zero. ring.
Qed.

Lemma percentile_rank_hundred : percentile_linear rnd l 100 = Finite hi.
Proof.
  pose proof length_positive as Hn.
  unfold percentile_linear.
  rewrite (finite_not_nan l (representable_finite l values)), np_sort_length.
  cbv zeta.
  rewrite (Qfloor_comp _ _ (virtual_index_hundred (List.length l))), Qfloor_Z, Nat2Z.id.
  replace (Nat.min (S (List.length l - 1)) (List.length l - 1)) with (List.length l - 1)
    by lia.
  rewrite sorted_last.
  destruct (sample_value _ hi_sample) as [hi' [E [Hrhi _]]]. injection E as <-.
  rewrite (fsub_diag rnd ieee). cbn [fmul]. rewrite (round_zero rnd ieee) by ring.
  cbn [fadd]. rewrite <- Hrhi. apply (round_proper rnd ieee). ring.
Qed.

Lemma least_below_greatest : ~ (d == 0)%Q -> (lo < hi)%Q.
Proof.
  intros Hnz. apply Qnot_le_lt. intros Hle.
  assert (Hlohi : (lo <= hi)%Q) by (apply Fle_finite; auto).
  apply Hnz. cbn [fsub] in difference.
  rewrite (round_zero rnd ieee (hi - lo)) in difference by lra.
  now injection difference as <-.
Qed.

(** No sample is changed by clipping to the least and the greatest. *)
Lemma clip_unchanged (v : Q) :
  (lo < hi)%Q -> In (Finite v) l ->
  fminimum (Finite hi) (fmaximum (Finite v) (Finite lo)) = Finite v.
Proof.
  intros Hlt Hv. rewrite (clip_value v lo hi Hlt). f_equal.
  destruct (sample_value _ Hv) as [v' [E [Hr [H1 H2]]]]. injection E as <-.
  destruct (sample_value _ lo_sample) as [lo' [E [Hrlo _]]]. injection E as <-.
  destruct (sample_value _ hi_sample) as [hi' [E [Hrhi _]]]. injection E as <-.
  unfold clipQ.
  destruct (Qle_bool v lo) eqn:E1.
  - apply Qle_bool_iff in E1. apply representable_eq; [assumption | assumption | lra].
  - destruct (Qle_bool hi v) eqn:E2; [| reflexivity].
    apply Qle_bool_iff in E2. apply representable_eq; [assumption | assumption | lra].
Qed.

End MinMax.

(** With ranks 0 and 100 contrast enhancement is min-max normalisation.
    On an image of values of the format whose greatest sample [hi] less
    its least sample [lo] is computed as a finite number [d] other than
    zero, the two percentile values are [lo] and [hi], nothing is
    clipped, every sample [v] is mapped to [(v - lo) / d] as the
    arithmetic computes it, a least sample to exactly 0 and a greatest
    one to exactly 1. *)
Theorem contrast_enhancement_min_max (np : Numeric) (image : ndarray) (lo hi d : Q) :
  IEEE_rounding (float_round np) ->
  Forall (representable (float_round np)) (data image) ->
  In (Finite lo) (data image) ->
  In (Finite hi) (data image) ->
  (forall y, In y (data image) -> Fle (Finite lo) y) ->
  (forall y, In y (data image) -> Fle y (Finite hi)) ->
  fsub (float_round np) (Finite hi) (Finite lo) = Finite d ->
  ~ (d == 0)%Q ->
  percentile_linear (float_round np) (data image) 0 = Finite lo
  /\ percentile_linear (float_round np) (data image) 100 = Finite hi
  /\ exists enhanced,
       result (apply_contrast_enhancement np image 0 100) = Returned enhanced
       /\ (forall i v,
              nth_error (data image) i = Some (Finite v) ->
              nth_error (data enhanced) i
              = Some (fdiv (float_round np)
                           (fsub (float_round np) (Finite v) (Finite lo)) (Finite d)))
       /\ (forall i, nth_error (data image) i = Some (Finite lo) ->
                     nth_error (data enhanced) i = Some (Finite 0))
       /\ (forall i, nth_error (data image) i = Some (Finite hi) ->
                     nth_error (data enhanced) i = Some (Finite 1)).
Proof.
  intros Hieee Hval Hlo Hhi Hleast Hgreatest Hd Hnz.
  pose proof (percentile_rank_zero _ Hieee _ lo hi d Hval Hlo Hhi Hleast Hgreatest Hd)
    as Hp0.
  pose proof (percentile_rank_hundred _ Hieee _ lo hi Hval Hlo Hhi Hleast Hgreatest)
    as Hp100.
  pose proof (least_below_greatest _ Hieee _ lo hi d Hhi Hleast Hd Hnz) as Hlt.
  split; [exact Hp0 |]. split; [exact Hp100 |].
  rewrite (apply_contrast_enhancement_in_range np image 0 100 eq_refl eq_refl), Hp0, Hp100.
  eexists. split; [reflexivity |].
  unfold np_clip, arr_map. cbn [shape data]. rewrite map_map.
  assert (Hmap : forall i v,
             nth_error (data image) i = Some (Finite v) ->
             nth_error
               (map (fun x => fdiv (float_round np)
                                   (fsub (float_round np)
                                         (fminimum (Finite hi) (fmaximum x (Finite lo)))
                                         (Finite lo))
                                   (fsub (float_round np) (Finite hi) (Finite lo)))
                    (data image)) i
             = Some (fdiv (float_round np)
                          (fsub (float_round np) (Finite v) (Finite lo)) (Finite d))).
  { intros i v Hi. rewrite nth_error_map, Hi. cbn [option_map].
    rewrite (clip_unchanged _ Hieee _ lo hi Hval Hlo Hhi Hleast Hgreatest v Hlt), Hd;
      [reflexivity | eapply nth_error_In; eauto]. }
  split; [exact Hmap |]. split.
  - intros i Hi. rewrite (Hmap i lo Hi), (fsub_diag _ Hieee).
    now rewrite (rescale_quotient_zero _ Hieee d Hnz).
  - intros i Hi. rewrite (Hmap i hi Hi), Hd.
    now rewrite (rescale_quotient_one _ Hieee d Hnz).
Qed.

Lemma contrast_enhancement_min_max_witness :
  percentile_linear binary64_round (data Samples.ramp_image) 0 = Finite 0
  /\ percentile_linear binary64_round (data Samples.ramp_image) 100 = Finite 100
  /\ exists enhanced,
       result (apply_contrast_enhancement Samples.constant_array_numeric
                                          Samples.ramp_image 0 100) = Returned enhanced
       /\ nth_error (data enhanced) 0 = Some (Finite 0)
       /\ nth_error (data enhanced) 2 = Some (Finite 1).
Proof.
  destruct (contrast_enhancement_min_max
              Samples.constant_array_numeric Samples.ramp_image 0 100 100)
    as [Hp0 [Hp100 [enhanced [Hres [_ [Hzero Hone]]]]]].
  - exact binary64_round_IEEE.
  - repeat constructor; vm_compute; reflexivity.
  - cbn. tauto.
  - cbn. tauto.
  - intros y Hy. cbn in Hy. destruct Hy as [<- | [<- | [<- | []]]]; reflexivity.
  - intros y Hy. cbn in Hy. destruct Hy as [<- | [<- | [<- | []]]]; reflexivity.
  - vm_compute; reflexivity.
  - intros H; discriminate H.
  - split; [exact Hp0 |]. split; [exact Hp100 |].
    exists enhanced. split; [exact Hres |]. split.
    + exact (Hzero 0%nat eq_refl).
    + exact (Hone 2%nat eq_refl).
Defined.

(** *** Samples that are not numbers *)

Lemma rescale_nan (rnd : Q -> float64) (x p q : float64) :
  is_nan p = true \/ is_nan q = true ->
  fdiv rnd (fsub rnd (fminimum q (fmaximum x p)) p) (fsub rnd q p) = NaN.
Proof.
  intros [H | H].
  - destruct p; try discriminate. destruct x, q; reflexivity.
  - destruct q; try discriminate. destruct x, p; reflexivity.
Qed.

(** One [NaN] sample spoils the whole result: both percentile values are
    [NaN] then, and every value of the enhanced image is [NaN]. *)
Theorem contrast_enhancement_nan_sample
        (np : Numeric) (image : ndarray) (percentile_low percentile_high : Q) :
  existsb is_nan (data image) = true ->
  Qle_bool 0 percentile_low && Qle_bool percentile_low 100 = true ->
  Qle_bool 0 percentile_high && Qle_bool percentile_high 100 = true ->
  exists enhanced,
    result (apply_contrast_enhancement np image percentile_low percentile_high)
    = Returned enhanced
    /\ List.length (data enhanced) = List.length (data image)
    /\ forall v, In v (data enhanced) -> v = NaN.
Proof.
  intros Hnan Hl Hh.
  rewrite (apply_contrast_enhancement_in_range np image _ _ Hl Hh).
  unfold percentile_linear. rewrite Hnan.
  eexists. split; [reflexivity |]. unfold np_clip, arr_map. cbn [data].
  split; [now rewrite !length_map |].
  intros v Hv. rewrite map_map in Hv. apply in_map_iff in Hv as [x [<- _]].
  apply rescale_nan. now left.
Qed.

Lemma contrast_enhancement_nan_sample_witness :
  exists enhanced,
    result (apply_contrast_enhancement
              Samples.constant_array_numeric
              {| shape := (1, 3); data := [Finite 1; NaN; Finite 3] |} 2 98)
    = Returned enhanced
    /\ forall v, In v (data enhanced) -> v = NaN.
Proof.
  destruct (contrast_enhancement_nan_sample
              Samples.constant_array_numeric
              {| shape := (1, 3); data := [Finite 1; NaN; Finite 3] |} 2 98
              eq_refl eq_refl eq_refl) as [enhanced [Hres [_ Hall]]].
  exists enhanced. split; assumption.
Defined.

End FilterExtra.
